(** * atomorder: the geometric alignment scorer (objectives.py, class Rotation)

    A shallow embedding of [atomorder/objectives.py] and the properties of
    its alignment scorer, followed by the atom-type scorer [Atomic] of the
    same file and the tables of [atomorder/definitions.py].

    Modelling conventions.
    - A numpy float is a value of [fl]: an exact rational, a signed
      infinity, or NaN.  Arithmetic on finite values is exact; division by
      zero and the arithmetic of the special values follow IEEE 754 as
      numpy applies it (a warning, no exception).  Signed zeros are not
      distinguished.  The algebra of the scorer is stated over this exact
      arithmetic.  What holds only while results stay in the range of the
      format (that a returned entry is finite, that the symmetry assertion
      passes on every input) is settled over the module [Binary64], in
      which a result too large for binary64 overflows to an infinity.
      Rounding is modelled in neither.
    - Python exceptions are the [Raise] branch of [result].
    - Arrays of a fixed small shape are tuples ([vec3], [vec4], [mat3],
      [mat4]); arrays whose length depends on the input are lists, and an
      index out of range raises [IndexError].
    - The object [self] is the record [Rotation]; methods take and return it
      explicitly where they mutate it.
    - [numpy.linalg.eigh] and the step of scipy's SLSQP are parameters. *)

From Stdlib Require Import QArith Qabs Lqa QNsatz ZArith List Bool Lia Permutation.
From Stdlib Require String.
Import String.StringSyntax.
Delimit Scope string_scope with string.
Bind Scope string_scope with String.string.
Import ListNotations.

Open Scope Q_scope.

(** ** Floating point values *)

Inductive fl : Type :=
| Fin (q : Q)
| Inf (negative : bool)
| NaN.

Declare Scope fl_scope.
Delimit Scope fl_scope with fl.
Bind Scope fl_scope with fl.

Definition Qneg_bool (q : Q) : bool := negb (Qle_bool 0 q).
Definition Qzero_bool (q : Q) : bool := Qeq_bool q 0.

Definition fl_opp (x : fl) : fl :=
  match x with
  | Fin a => Fin (- a)
  | Inf s => Inf (negb s)
  | NaN => NaN
  end.

Definition fl_add (x y : fl) : fl :=
  match x, y with
  | Fin a, Fin b => Fin (a + b)
  | Fin _, Inf s => Inf s
  | Inf s, Fin _ => Inf s
  | Inf s, Inf t => if Bool.eqb s t then Inf s else NaN
  | _, _ => NaN
  end.

Definition fl_sub (x y : fl) : fl := fl_add x (fl_opp y).

Definition fl_mul (x y : fl) : fl :=
  match x, y with
  | Fin a, Fin b => Fin (a * b)
  | Fin a, Inf s => if Qzero_bool a then NaN else Inf (xorb (Qneg_bool a) s)
  | Inf s, Fin b => if Qzero_bool b then NaN else Inf (xorb s (Qneg_bool b))
  | Inf s, Inf t => Inf (xorb s t)
  | _, _ => NaN
  end.

(** [x / y] as numpy computes it on float64: no exception, [0/0] is NaN and
    [a/0] for [a <> 0] is an infinity. *)
Definition fl_div (x y : fl) : fl :=
  match x, y with
  | Fin a, Fin b =>
      if Qzero_bool b
      then (if Qzero_bool a then NaN else Inf (Qneg_bool a))
      else Fin (a / b)
  | Fin _, Inf _ => Fin 0
  | Inf s, Fin b => Inf (xorb s (Qneg_bool b))
  | _, _ => NaN
  end.

Definition fl_sq (x : fl) : fl := fl_mul x x.

Notation "x + y" := (fl_add x y) : fl_scope.
Notation "x - y" := (fl_sub x y) : fl_scope.
Notation "x * y" := (fl_mul x y) : fl_scope.
Notation "x / y" := (fl_div x y) : fl_scope.
Notation "- x" := (fl_opp x) : fl_scope.

Definition f0 : fl := Fin 0.
Definition f1 : fl := Fin 1.

(** [numpy.isclose(a, b)] with the default [rtol = 1e-5], [atol = 1e-8] and
    [equal_nan = False]: finite values are compared within tolerance,
    anything else with [==]. *)
Definition rtol : Q := 1 # 100000.
Definition atol : Q := 1 # 100000000.

Definition isclose (a b : fl) : bool :=
  match a, b with
  | Fin x, Fin y => Qle_bool (Qabs (x - y)) (atol + rtol * Qabs y)
  | Inf s, Inf t => Bool.eqb s t
  | _, _ => false
  end.

(** [numpy.sum] of a one-dimensional array. *)
Definition np_sum (l : list fl) : fl := fold_left fl_add l f0.

(** ** Exceptions *)

Inductive exn : Type :=
| IndexError
| ValueError
| AssertionError
| AttributeError
| NameError
| TypeError
| LinAlgError.

Inductive result (A : Type) : Type :=
| Ok (a : A)
| Raise (e : exn).
Arguments Ok {A} a.
Arguments Raise {A} e.

Definition bind {A B : Type} (r : result A) (k : A -> result B) : result B :=
  match r with
  | Ok a => k a
  | Raise e => Raise e
  end.

Declare Scope result_scope.
Delimit Scope result_scope with result.
Notation "'let*' x ':=' r 'in' k" := (bind r (fun x => k))
  (at level 10, x pattern, r at level 100, k at level 200) : result_scope.
Open Scope result_scope.

(** [assert(c)] *)
Definition py_assert (c : bool) : result unit :=
  if c then Ok tt else Raise AssertionError.

(** [l[i]] for [0 <= i]. *)
Definition getitem {A : Type} (l : list A) (i : nat) : result A :=
  match nth_error l i with
  | Some a => Ok a
  | None => Raise IndexError
  end.

(** [mapM]: evaluate left to right, stop at the first exception. *)
Fixpoint mapM {A B : Type} (f : A -> result B) (l : list A) : result (list B) :=
  match l with
  | [] => Ok []
  | a :: l' =>
      let* b := f a in
      let* bs := mapM f l' in
      Ok (b :: bs)
  end.

(** [a[idx]] where [idx] is a list of indices. *)
Definition take {A : Type} (a : list A) (idx : list nat) : result (list A) :=
  mapM (getitem a) idx.

(** [a[np.ix_(rows, cols)]] on a two-dimensional array. *)
Definition take_ix {A : Type} (a : list (list A)) (rows cols : list nat)
  : result (list (list A)) :=
  mapM (fun r => let* row := getitem a r in take row cols) rows.

(** ** Small fixed-shape arrays *)

Definition vec3 : Type := fl * fl * fl.
Definition vec4 : Type := fl * fl * fl * fl.
Definition mat3 : Type := vec3 * vec3 * vec3.
Definition mat4 : Type := vec4 * vec4 * vec4 * vec4.

Definition dot3 (a b : vec3) : fl :=
  let '(a1, a2, a3) := a in
  let '(b1, b2, b3) := b in
  (a1 * b1 + a2 * b2 + a3 * b3)%fl.

Definition dot4 (a b : vec4) : fl :=
  let '(a1, a2, a3, a4) := a in
  let '(b1, b2, b3, b4) := b in
  (a1 * b1 + a2 * b2 + a3 * b3 + a4 * b4)%fl.

Definition vec4_map (f : fl -> fl) (a : vec4) : vec4 :=
  let '(a1, a2, a3, a4) := a in (f a1, f a2, f a3, f a4).

Definition vec4_map2 (f : fl -> fl -> fl) (a b : vec4) : vec4 :=
  let '(a1, a2, a3, a4) := a in
  let '(b1, b2, b3, b4) := b in
  (f a1 b1, f a2 b2, f a3 b3, f a4 b4).

Definition vec4_all2 (f : fl -> fl -> bool) (a b : vec4) : bool :=
  let '(a1, a2, a3, a4) := a in
  let '(b1, b2, b3, b4) := b in
  f a1 b1 && f a2 b2 && f a3 b3 && f a4 b4.

Definition mat4_map (f : fl -> fl) (m : mat4) : mat4 :=
  let '(r1, r2, r3, r4) := m in
  (vec4_map f r1, vec4_map f r2, vec4_map f r3, vec4_map f r4).

Definition mat4_map2 (f : fl -> fl -> fl) (m n : mat4) : mat4 :=
  let '(r1, r2, r3, r4) := m in
  let '(s1, s2, s3, s4) := n in
  (vec4_map2 f r1 s1, vec4_map2 f r2 s2, vec4_map2 f r3 s3, vec4_map2 f r4 s4).

Definition mat4_all2 (f : fl -> fl -> bool) (m n : mat4) : bool :=
  let '(r1, r2, r3, r4) := m in
  let '(s1, s2, s3, s4) := n in
  vec4_all2 f r1 s1 && vec4_all2 f r2 s2 && vec4_all2 f r3 s3 && vec4_all2 f r4 s4.

(** [m.T] *)
Definition mat4_T (m : mat4) : mat4 :=
  let '((a11, a12, a13, a14), (a21, a22, a23, a24),
        (a31, a32, a33, a34), (a41, a42, a43, a44)) := m in
  ((a11, a21, a31, a41), (a12, a22, a32, a42),
   (a13, a23, a33, a43), (a14, a24, a34, a44)).

(** [m.dot(v)] *)
Definition mat4_dot_vec (m : mat4) (v : vec4) : vec4 :=
  let '(r1, r2, r3, r4) := m in
  (dot4 r1 v, dot4 r2 v, dot4 r3 v, dot4 r4 v).

(** [m.dot(n)] *)
Definition mat4_dot (m n : mat4) : mat4 :=
  let '(c1, c2, c3, c4) := mat4_T n in
  let row (r : vec4) := (dot4 r c1, dot4 r c2, dot4 r c3, dot4 r c4) in
  let '(r1, r2, r3, r4) := m in
  (row r1, row r2, row r3, row r4).

(** [m[:3,:3]] and [v[:3]] *)
Definition mat4_block3 (m : mat4) : mat3 :=
  let '((a11, a12, a13, _), (a21, a22, a23, _), (a31, a32, a33, _), _) := m in
  ((a11, a12, a13), (a21, a22, a23), (a31, a32, a33)).

Definition vec4_head3 (v : vec4) : vec3 :=
  let '(a1, a2, a3, _) := v in (a1, a2, a3).

Definition mat3_T (m : mat3) : mat3 :=
  let '((a11, a12, a13), (a21, a22, a23), (a31, a32, a33)) := m in
  ((a11, a21, a31), (a12, a22, a32), (a13, a23, a33)).

Definition mat3_dot_vec (m : mat3) (v : vec3) : vec3 :=
  let '(r1, r2, r3) := m in (dot3 r1 v, dot3 r2 v, dot3 r3 v).

Definition mat3_dot (m n : mat3) : mat3 :=
  let '(c1, c2, c3) := mat3_T n in
  let row (r : vec3) := (dot3 r c1, dot3 r c2, dot3 r c3) in
  let '(r1, r2, r3) := m in
  (row r1, row r2, row r3).

Definition det3 (m : mat3) : fl :=
  let '((a, b, c), (d, e, f), (g, h, i)) := m in
  (a * (e * i - f * h) - b * (d * i - f * g) + c * (d * h - e * g))%fl.

Definition vec3_sub (a b : vec3) : vec3 :=
  let '(a1, a2, a3) := a in
  let '(b1, b2, b3) := b in
  ((a1 - b1)%fl, (a2 - b2)%fl, (a3 - b3)%fl).

Definition vec3_add (a b : vec3) : vec3 :=
  let '(a1, a2, a3) := a in
  let '(b1, b2, b3) := b in
  ((a1 + b1)%fl, (a2 + b2)%fl, (a3 + b3)%fl).

Definition mat4_zero : mat4 :=
  ((f0, f0, f0, f0), (f0, f0, f0, f0), (f0, f0, f0, f0), (f0, f0, f0, f0)).

Definition mat4_add : mat4 -> mat4 -> mat4 := mat4_map2 fl_add.
Definition mat4_sub : mat4 -> mat4 -> mat4 := mat4_map2 fl_sub.
Definition mat4_scale (c : fl) : mat4 -> mat4 := mat4_map (fl_mul c).

(** ** Quaternion transform algebra (makeW, makeQ, transform) *)

(** [makeW(r1, r2, r3, r4=0)], eqn 16 of Walker91 *)
Definition makeW (r : vec4) : mat4 :=
  let '(r1, r2, r3, r4) := r in
  ((r4, r3, - r2, r1),
   (- r3, r4, r1, r2),
   (r2, - r1, r4, r3),
   (- r1, - r2, - r3, r4))%fl.

(** [makeQ(r1, r2, r3, r4=0)], eqn 15 of Walker91 *)
Definition makeQ (r : vec4) : mat4 :=
  let '(r1, r2, r3, r4) := r in
  ((r4, - r3, r2, r1),
   (r3, r4, - r1, r2),
   (- r2, r1, r4, r3),
   (- r1, - r2, - r3, r4))%fl.

(** The arguments of [makeW] and [makeQ] when a coordinate row of length 3
    is unpacked into them: [r4] takes its default, the integer [0]. *)
Definition quat_of_coord (x : vec3) : vec4 :=
  let '(x1, x2, x3) := x in (x1, x2, x3, f0).

Definition transform (r s : vec4) : mat3 * vec3 :=
  let Wt_r := mat4_T (makeW r) in
  let Q_r := makeQ r in
  let rot := mat4_block3 (mat4_dot Wt_r Q_r) in
  let trans := vec4_head3 (mat4_dot_vec Wt_r s) in
  (rot, trans).

(** ** The data the scorer works on *)

Definition matrix : Type := list (list fl).

(** [a.shape] of a rectangular two-dimensional array and [np.zeros(shape)]. *)
Definition shape (a : matrix) : nat * nat := (length a, length (hd [] a)).

Definition zeros (sh : nat * nat) : matrix := repeat (repeat f0 (snd sh)) (fst sh).

(** Modelled from the spec: the Ordering object [M] handed to the scorer
    (the Molecular Geometry Provider; its class is defined outside
    objectives.py).  Only the attributes that [Rotation] reads are kept:
    the coordinates of both sides (N*3 arrays), the number of rigid groups
    of each side, the partition of each side into index sets (non-negative
    atom indices), and the match matrix, of which [__init__] uses the
    shape. *)
Record Ordering : Type := mkOrdering {
  products_coordinates : list vec3;
  reactants_coordinates : list vec3;
  num_reactants : Z;
  num_products : Z;
  reactant_subset_indices : list (list nat);
  product_subset_indices : list (list nat);
  match_matrix : matrix
}.

(** What [self.score] is bound to. *)
Inductive solver : Type :=
| analytical
| numerical.

(** One dual quaternion [q[k]]: the pair [(q[k,0], q[k,1]) = (s, r)]. *)
Definition dualquat : Type := vec4 * vec4.

(** The instance attributes of a [Rotation] object. *)
Record Rotation : Type := mkRotation {
  self_M : Ordering;
  self_X : list vec3;
  self_Y : list vec3;
  self_score : solver;
  self_q : list dualquat;
  self_W : list mat4;
  self_Q : list mat4;
  self_Qt_dot_W : list (list mat4);
  self_W_minus_Q : list (list mat4);
  self_squared_distances : matrix
}.

Definition set_squared_distances (self : Rotation) (d : matrix) : Rotation :=
  mkRotation (self_M self) (self_X self) (self_Y self) (self_score self)
    (self_q self) (self_W self) (self_Q self) (self_Qt_dot_W self)
    (self_W_minus_Q self) d.

Definition set_q (self : Rotation) (q : list dualquat) : Rotation :=
  mkRotation (self_M self) (self_X self) (self_Y self) (self_score self)
    q (self_W self) (self_Q self) (self_Qt_dot_W self)
    (self_W_minus_Q self) (self_squared_distances self).

(** ** Construction *)

(** [initialize_quaternions]: [q = np.zeros((N+M-1, 2, 4)); q[:,1,3] = 1].
    [np.zeros] raises [ValueError] on a negative dimension. *)
Definition identity_dualquat : dualquat :=
  ((f0, f0, f0, f0), (f0, f0, f0, f1)).

Definition initialize_quaternions (M : Ordering) : result (list dualquat) :=
  let N := num_reactants M in
  let M' := num_products M in
  if (N + M' - 1 <? 0)%Z then Raise ValueError
  else Ok (repeat identity_dualquat (Z.to_nat (N + M' - 1))).

(** [set_solver] *)
Definition set_solver (M : Ordering) : solver :=
  if (num_reactants M =? 1)%Z || (num_products M =? 1)%Z
  then analytical
  else numerical.

(** [interaction_arrays] *)
Definition interaction_arrays (X Y : list vec3)
  : list mat4 * list mat4 * list (list mat4) * list (list mat4) :=
  let W := map (fun x => makeW (quat_of_coord x)) X in
  let Q := map (fun y => makeQ (quat_of_coord y)) Y in
  let Qt_dot_W := map (fun w => map (fun q => mat4_dot (mat4_T q) w) Q) W in
  let W_minus_Q := map (fun w => map (fun q => mat4_sub w q) Q) W in
  (W, Q, Qt_dot_W, W_minus_Q).

(** [__init__] *)
Definition Rotation_init (M : Ordering) : result Rotation :=
  let X := products_coordinates M in
  let Y := reactants_coordinates M in
  let score := set_solver M in
  let* q := initialize_quaternions M in
  let '(W, Q, Qt_dot_W, W_minus_Q) := interaction_arrays X Y in
  Ok (mkRotation M X Y score q W Q Qt_dot_W W_minus_Q
        (zeros (shape (match_matrix M)))).

(** ** Writing a block of the squared-distance buffer *)

(** A single cell [a[i][j] = x]. *)
Fixpoint set_nth {A : Type} (l : list A) (i : nat) (x : A) : result (list A) :=
  match l, i with
  | [], _ => Raise IndexError
  | _ :: t, O => Ok (x :: t)
  | h :: t, S i' => let* t' := set_nth t i' x in Ok (h :: t')
  end.

Definition set2 (a : matrix) (i j : nat) (x : fl) : result matrix :=
  let* row := getitem a i in
  let* row' := set_nth row j x in
  set_nth a i row'.

Definition enumerate {A : Type} (l : list A) : list (nat * A) :=
  combine (seq 0 (length l)) l.

(** numpy's broadcasting rule for assigning a value of shape [vshape] to a
    target of shape [tshape] (both two-dimensional). *)
Definition broadcastable (vshape tshape : nat * nat) : bool :=
  let '(a, b) := vshape in
  let '(c, d) := tshape in
  ((a =? c) || (a =? 1))%nat && ((b =? d) || (b =? 1))%nat.

Definition bcast_get (V : matrix) (vshape : nat * nat) (i j : nat) : fl :=
  let i' := if (fst vshape =? 1)%nat then O else i in
  let j' := if (snd vshape =? 1)%nat then O else j in
  nth j' (nth i' V []) NaN.

Definition cell : Type := nat * nat * fl.

(** The cells that [a[np.ix_(rows, cols)] = V] writes, in row-major order. *)
Definition cell_writes (rows cols : list nat) (V : matrix) (vshape : nat * nat)
  : list cell :=
  flat_map (fun '(i, r) =>
              map (fun '(j, c) => (r, c, bcast_get V vshape i j)) (enumerate cols))
           (enumerate rows).

Fixpoint apply_writes (ws : list cell) (a : matrix) : result matrix :=
  match ws with
  | [] => Ok a
  | (i, j, x) :: ws' => let* a' := set2 a i j x in apply_writes ws' a'
  end.

(** [a[np.ix_(rows, cols)] = V]: [ValueError] when the shapes cannot be
    broadcast, [IndexError] when an index is out of bounds. *)
Definition setitem_ix (a : matrix) (rows cols : list nat)
           (V : matrix) (vshape : nat * nat) : result matrix :=
  if broadcastable vshape (length rows, length cols)
  then apply_writes (cell_writes rows cols V vshape) a
  else Raise ValueError.

(** [for a in l: body(a)], stopping at the first exception; the state
    reached so far is kept. *)
Fixpoint for_each {A S : Type} (l : list A)
         (body : A -> S -> result unit * S) (s : S) : result unit * S :=
  match l with
  | [] => (Ok tt, s)
  | a :: l' =>
      match body a s with
      | (Ok _, s') => for_each l' body s'
      | (Raise e, s') => (Raise e, s')
      end
  end.

(** ** The single-body analytical solver *)

(** [np.sum(m[:,:,None,None]*t, axis=(0,1))] for a weight block [m] and a
    block [t] of 4x4 matrices of the same shape. *)
Definition weighted_sum (m : matrix) (t : list (list mat4)) : mat4 :=
  fold_left
    (fun acc '(mrow, trow) =>
       fold_left (fun acc' '(w, a) => mat4_add acc' (mat4_scale w a))
                 (combine mrow trow) acc)
    (combine m t) mat4_zero.

(** [m.sum()] *)
Definition matrix_sum (m : matrix) : fl := np_sum (concat m).

(** [np.allclose] *)
Definition allclose4 (a b : vec4) : bool := vec4_all2 isclose a b.
Definition allclose44 (a b : mat4) : bool := mat4_all2 isclose a b.

(** [A = 0.5*(C3.T.dot(C3)/(2*C2)-C1-C1.T)] *)
Definition make_A (C1 : mat4) (C2 : fl) (C3 : mat4) : mat4 :=
  mat4_scale (Fin (1 # 2))
    (mat4_sub
       (mat4_sub
          (mat4_map (fun x => x / (Fin 2 * C2))%fl (mat4_dot (mat4_T C3) C3))
          C1)
       (mat4_T C1)).

(** [m[:,-1]] *)
Definition last_column (m : mat4) : vec4 :=
  let '((_, _, _, a), (_, _, _, b), (_, _, _, c), (_, _, _, d)) := m in
  (a, b, c, d).

(** [v[-1]] *)
Definition last4 (v : vec4) : fl := let '(_, _, _, d) := v in d.

(** One entry of
    [np.sum((Y[None,:,:] - trans[None,None,:] - rot.dot(X.T).T[:,None,:])**2, axis=2)]:
    the entry at row [x] (of [X]) and column [y] (of [Y]). *)
Definition sqdist (rot : mat3) (trans : vec3) (x y : vec3) : fl :=
  let '(d1, d2, d3) := vec3_sub (vec3_sub y trans) (mat3_dot_vec rot x) in
  np_sum [fl_sq d1; fl_sq d2; fl_sq d3].

Definition sqdist_matrix (rot : mat3) (trans : vec3) (X Y : list vec3) : matrix :=
  map (fun x => map (fun y => sqdist rot trans x y) Y) X.

Section Analytical.

(** [numpy.linalg.eigh] on a 4x4 matrix: the eigenvalues in ascending
    order and the matrix whose columns are the eigenvectors, or
    [LinAlgError]. *)
Variable eigh : mat4 -> result (vec4 * mat4).

(** The three weighted sums of one sub-block and the matrix [A]:
    [C1 = -2*np.sum(match_sub_matrix[:,:,None,None]*Qt_dot_W,axis=(0,1))],
    [C2 = match_sub_matrix.sum()],
    [C3 = 2*np.sum(match_sub_matrix[:,:,None,None]*W_minus_Q,axis=(0,1))]. *)
Definition block_C1 (match_sub_matrix : matrix) (Qt_dot_W : list (list mat4)) : mat4 :=
  mat4_scale (Fin (-2)) (weighted_sum match_sub_matrix Qt_dot_W).

Definition block_C2 (match_sub_matrix : matrix) : fl :=
  matrix_sum match_sub_matrix.

Definition block_C3 (match_sub_matrix : matrix) (W_minus_Q : list (list mat4)) : mat4 :=
  mat4_scale (Fin 2) (weighted_sum match_sub_matrix W_minus_Q).

Definition block_A (match_sub_matrix : matrix)
           (Qt_dot_W W_minus_Q : list (list mat4)) : mat4 :=
  make_A (block_C1 match_sub_matrix Qt_dot_W) (block_C2 match_sub_matrix)
         (block_C3 match_sub_matrix W_minus_Q).

(** The fit of one sub-block, from [C1] to the block of squared distances
    (of shape [(len(X), len(Y))]). *)
Definition analytical_fit (X Y : list vec3) (match_sub_matrix : matrix)
           (Qt_dot_W W_minus_Q : list (list mat4)) : result matrix :=
  let C2 := block_C2 match_sub_matrix in
  let C3 := block_C3 match_sub_matrix W_minus_Q in
  let A := block_A match_sub_matrix Qt_dot_W W_minus_Q in
  let* _ := py_assert (allclose44 A (mat4_T A)) in
  let* eigen := eigh A in
  let r := last_column (snd eigen) in
  let* _ := py_assert (allclose4 (mat4_dot_vec A r)
                                 (vec4_map (fl_mul (last4 (fst eigen))) r)) in
  let s := vec4_map (fun x => - x / (Fin 2 * C2))%fl (mat4_dot_vec C3 r) in
  let '(rot, trans) := transform r s in
  Ok (sqdist_matrix rot trans X Y).

(** The body of the double loop of [analytical_solver] up to the
    assignment. *)
Definition analytical_block (self : Rotation) (match_ : matrix)
           (reactant_indices product_indices : list nat) : result matrix :=
  let* X := take (self_X self) product_indices in
  let* Y := take (self_Y self) reactant_indices in
  let* match_sub_matrix := take_ix match_ reactant_indices product_indices in
  let* Qt_dot_W := take_ix (self_Qt_dot_W self) reactant_indices product_indices in
  let* W_minus_Q := take_ix (self_W_minus_Q self) reactant_indices product_indices in
  analytical_fit X Y match_sub_matrix Qt_dot_W W_minus_Q.

(** The loop body with its assignment to
    [self.squared_distances[sub_matrix_indices]]. *)
Definition analytical_step (match_ : matrix)
           (reactant_indices product_indices : list nat)
           (self : Rotation) : result unit * Rotation :=
  match analytical_block self match_ reactant_indices product_indices with
  | Raise e => (Raise e, self)
  | Ok V =>
      match setitem_ix (self_squared_distances self)
              reactant_indices product_indices V
              (length product_indices, length reactant_indices) with
      | Raise e => (Raise e, self)
      | Ok d => (Ok tt, set_squared_distances self d)
      end
  end.

Definition analytical_solver (self : Rotation) (match_ : matrix)
  : result matrix * Rotation :=
  match getitem (reactant_subset_indices (self_M self)) 0 with
  | Raise e => (Raise e, self)
  | Ok ref_indices =>
      match take (self_Y self) ref_indices with
      | Raise e => (Raise e, self)
      | Ok Y0 =>
          match for_each (reactant_subset_indices (self_M self))
                  (fun reactant_indices =>
                     for_each (product_subset_indices (self_M self))
                       (fun product_indices =>
                          analytical_step match_ reactant_indices product_indices))
                  self with
          | (Ok _, self') => (Ok (self_squared_distances self'), self')
          | (Raise e, self') => (Raise e, self')
          end
      end
  end.

End Analytical.

(** ** Attribute lookup on a Rotation object *)

Inductive attr : Type :=
| attr_Ordering (o : Ordering)
| attr_coordinates (c : list vec3)
| attr_solver (s : solver)
| attr_q (q : list dualquat)
| attr_mats (m : list mat4)
| attr_mats2 (m : list (list mat4))
| attr_matrix (m : matrix)
| attr_method (name : String.string).

(** The methods that [class Rotation] defines. *)
Definition Rotation_methods : list String.string :=
  ["__init__"; "initialize_quaternions"; "set_solver"; "analytical_solver";
   "numerical_solver"; "semi_analytical_solver"; "update_quarternions";
   "interaction_arrays"; "makeW"; "makeQ"; "transform"]%string.

(** [self.name]: the instance attributes set by [__init__], then the
    methods of the class; anything else raises [AttributeError]. *)
Definition getattr (self : Rotation) (name : String.string) : result attr :=
  if String.eqb name "M" then Ok (attr_Ordering (self_M self))
  else if String.eqb name "X" then Ok (attr_coordinates (self_X self))
  else if String.eqb name "Y" then Ok (attr_coordinates (self_Y self))
  else if String.eqb name "score" then Ok (attr_solver (self_score self))
  else if String.eqb name "q" then Ok (attr_q (self_q self))
  else if String.eqb name "W" then Ok (attr_mats (self_W self))
  else if String.eqb name "Q" then Ok (attr_mats (self_Q self))
  else if String.eqb name "Qt_dot_W" then Ok (attr_mats2 (self_Qt_dot_W self))
  else if String.eqb name "W_minus_Q" then Ok (attr_mats2 (self_W_minus_Q self))
  else if String.eqb name "squared_distances"
       then Ok (attr_matrix (self_squared_distances self))
  else if existsb (String.eqb name) Rotation_methods then Ok (attr_method name)
  else Raise AttributeError.

(** [update_quarternions]: [self.q = q.copy()] *)
Definition update_quarternions (self : Rotation) (q : list dualquat) : Rotation :=
  set_q self q.

(** ** The multi-body numerical solver *)

(** Integer indexing as Python does it: a negative index counts from the
    end. *)
Definition norm_index (len : nat) (k : Z) : result nat :=
  let n := Z.of_nat len in
  if ((0 <=? k) && (k <? n))%Z then Ok (Z.to_nat k)
  else if ((- n <=? k) && (k <? 0))%Z then Ok (Z.to_nat (n + k))
  else Raise IndexError.

Definition getitemZ {A : Type} (l : list A) (k : Z) : result A :=
  let* i := norm_index (length l) k in getitem l i.

Definition setitemZ {A : Type} (l : list A) (k : Z) (x : A) : result (list A) :=
  let* i := norm_index (length l) k in set_nth l i x.

(** [range(n)] and [xrange(n)] *)
Definition range (n : Z) : list nat := seq 0 (Z.to_nat n).

(** [self.q] as the flat state vector and back:
    [flat_q.reshape(n, 2, 4)]. *)
Definition vec4_list (v : vec4) : list fl :=
  let '(a, b, c, d) := v in [a; b; c; d].

Definition dualquat_list (d : dualquat) : list fl :=
  vec4_list (fst d) ++ vec4_list (snd d).

Definition flatten_q (q : list dualquat) : list fl := flat_map dualquat_list q.

Fixpoint chunks8 (x : list fl) : option (list dualquat) :=
  match x with
  | [] => Some []
  | s1 :: s2 :: s3 :: s4 :: r1 :: r2 :: r3 :: r4 :: x' =>
      match chunks8 x' with
      | Some q => Some (((s1, s2, s3, s4), (r1, r2, r3, r4)) :: q)
      | None => None
      end
  | _ => None
  end.

(** [reshape] infers a dimension that is given as a negative number
    (numpy takes every negative entry for the unknown dimension); any
    mismatch raises [ValueError]. *)
Definition reshape_q (n : Z) (x : list fl) : result (list dualquat) :=
  match chunks8 x with
  | Some q =>
      if ((n <? 0) || (n =? Z.of_nat (length q)))%Z then Ok q
      else Raise ValueError
  | None => Raise ValueError
  end.

(** [np.zeros((n, ...))] along its first axis. *)
Definition zeros_n {A : Type} (n : Z) (zero : A) : result (list A) :=
  if (n <? 0)%Z then Raise ValueError else Ok (repeat zero (Z.to_nat n)).

Definition vec3_zero : vec3 := (f0, f0, f0).
Definition mat3_zero : mat3 := (vec3_zero, vec3_zero, vec3_zero).

(** [for k in ks: rot[k], trans[k] = self.transform(q[k, 1], q[k, 0])] *)
Fixpoint fill_transforms (q : list dualquat) (ks : list Z)
         (rot : list mat3) (trans : list vec3)
  : result (list mat3 * list vec3) :=
  match ks with
  | [] => Ok (rot, trans)
  | k :: ks' =>
      let* qk1 := getitemZ q k in
      let* qk0 := getitemZ q k in
      let '(rt, tr) := transform (snd qk1) (fst qk0) in
      let* rot' := setitemZ rot k rt in
      let* trans' := setitemZ trans k tr in
      fill_transforms q ks' rot' trans'
  end.

(** What [a[idx]] yields on an N*3 array: one row when [idx] is an integer
    (one axis), a list of rows when [idx] is a sequence (two axes). *)
Inductive index : Type :=
| Int (i : nat)
| Seq (l : list nat).

Inductive picked : Type :=
| Row (v : vec3)
| Rows (l : list vec3).

Definition pick (a : list vec3) (idx : index) : result picked :=
  match idx with
  | Int i => let* v := getitem a i in Ok (Row v)
  | Seq l => let* vs := take a l in Ok (Rows vs)
  end.

(** [rot.dot(Y.T).T] *)
Definition rot_dot_T (rot : mat3) (Y : picked) : picked :=
  match Y with
  | Row v => Row (mat3_dot_vec rot v)
  | Rows l => Rows (map (mat3_dot_vec rot) l)
  end.

(** [a[None,:,:]]: the two slices need two axes. *)
Definition index_None_slice_slice (a : picked) : result (list vec3) :=
  match a with
  | Row _ => Raise IndexError
  | Rows l => Ok l
  end.

(** [np.ix_(a, b)]: every argument must be one-dimensional. *)
Definition np_ix_ (a b : index) : result (list nat * list nat) :=
  match a, b with
  | Seq r, Seq c => Ok (r, c)
  | _, _ => Raise ValueError
  end.

(** Unpacking one element of [reactant_subset_indices[1:]] into
    [i, reactant_indices]: the element must have exactly two items. *)
Definition unpack_pair (g : list nat) : result (nat * nat) :=
  match g with
  | [a; b] => Ok (a, b)
  | _ => Raise ValueError
  end.

(** One entry of
    [np.sum((trans[M+i][None,None,:] + (rot[M+i].dot(Y.T).T)[None,:,:]
             - trans[j][None,None,:] - (rot[j].dot(X.T).T)[:,None,:])**2, axis=2)]. *)
Definition sqdist2 (trans_i : vec3) (rot_j : mat3) (trans_j : vec3)
           (x roty : vec3) : fl :=
  let '(d1, d2, d3) :=
    vec3_sub (vec3_sub (vec3_add trans_i roty) trans_j) (mat3_dot_vec rot_j x) in
  np_sum [fl_sq d1; fl_sq d2; fl_sq d3].

(** The body of the loop over the remaining reactant groups,
    [for i, reactant_indices in self.M.reactant_subset_indices[1:]]. *)
Definition objective_inner (num_products : Z) (rot : list mat3) (trans : list vec3)
           (j : nat) (X : list vec3) (product_indices : list nat)
           (g : list nat) (self : Rotation) : result unit * Rotation :=
  let r :=
    let* (i, reactant_indices) := unpack_pair g in
    let* Y := pick (self_X self) (Int reactant_indices) in
    let* trans_i := getitemZ trans (num_products + Z.of_nat i) in
    let* rot_i := getitemZ rot (num_products + Z.of_nat i) in
    let* rotY := index_None_slice_slice (rot_dot_T rot_i Y) in
    let* trans_j := getitem trans j in
    let* rot_j := getitem rot j in
    let V := map (fun x => map (sqdist2 trans_i rot_j trans_j x) rotY) X in
    let* (rows, cols) := np_ix_ (Int reactant_indices) (Seq product_indices) in
    setitem_ix (self_squared_distances self) rows cols V (length X, length rotY) in
  match r with
  | Raise e => (Raise e, self)
  | Ok d => (Ok tt, set_squared_distances self d)
  end.

(** The body of the loop over the product groups. *)
Definition objective_outer (num_products : Z) (rot : list mat3) (trans : list vec3)
           (ref_indices : list nat) (Y0 : list vec3)
           (jp : nat * list nat) (self : Rotation) : result unit * Rotation :=
  let '(j, product_indices) := jp in
  match take (self_X self) product_indices with
  | Raise e => (Raise e, self)
  | Ok X =>
      let r :=
        let* trans_j := getitem trans j in
        let* rot_j := getitem rot j in
        setitem_ix (self_squared_distances self) ref_indices product_indices
          (sqdist_matrix rot_j trans_j X Y0) (length X, length Y0) in
      match r with
      | Raise e => (Raise e, self)
      | Ok d =>
          for_each (tl (reactant_subset_indices (self_M self)))
            (objective_inner num_products rot trans j X product_indices)
            (set_squared_distances self d)
      end
  end.

(** [objective(flat_q, match, self)], the function handed to the
    optimizer. *)
Definition objective (flat_q : list fl) (match_ : matrix) (self : Rotation)
  : result fl * Rotation :=
  let N := num_reactants (self_M self) in
  let M := num_products (self_M self) in
  let pre :=
    let* q := reshape_q (N + M - 1) flat_q in
    let* trans := zeros_n (N + M - 1) vec3_zero in
    let* rot := zeros_n (N + M - 1) mat3_zero in
    let* (rot, trans) := fill_transforms q (map Z.of_nat (range M)) rot trans in
    let* (rot, trans) :=
      fill_transforms q (map (fun i => M + Z.of_nat i)%Z (range (N - 1))) rot trans in
    let* ref_indices := getitem (reactant_subset_indices (self_M self)) 0 in
    let* Y0 := take (self_Y self) ref_indices in
    Ok (rot, trans, ref_indices, Y0) in
  match pre with
  | Raise e => (Raise e, self)
  | Ok (rot, trans, ref_indices, Y0) =>
      match for_each (enumerate (product_subset_indices (self_M self)))
              (objective_outer M rot trans ref_indices Y0) self with
      | (Raise e, self') => (Raise e, self')
      | (Ok _, self') =>
          (* return np.sum(self.match_matrix*self.squared_distances) *)
          match getattr self' "match_matrix" with
          | Ok (attr_matrix m) =>
              (Ok (np_sum (map (fun '(a, b) => a * b)%fl
                             (combine (concat m)
                                (concat (self_squared_distances self'))))),
               self')
          | Ok _ => (Raise TypeError, self')
          | Raise e => (Raise e, self')
          end
      end
  end.

(** The local scope of one call of [numerical_solver].  The lambdas built
    in its first loop refer to the variables [j], [N] and [M] of this scope;
    Python looks a free variable up when the lambda is called, not when it
    is created. *)
Record scope : Type := mkScope {
  sc_N : Z;
  sc_M : Z;
  sc_j : option nat
}.

Definition bind_j (sc : scope) (j : nat) : scope :=
  mkScope (sc_N sc) (sc_M sc) (Some j).

(** The four lambda expressions of the loop. *)
Inductive lambda : Type :=
| lambda_rr       (* lambda x: np.sum(x[8*j+4:8*j+8]*x[8*j+4:8*j+8]) -1 *)
| lambda_rs       (* lambda x: np.sum(x[8*j+4:8*j+8]*x[8*j:8*j+4]) *)
| lambda_rr_jac   (* lambda x: rr_constraint_jacobian(x, j, N, M) *)
| lambda_rs_jac.  (* lambda x: rs_constraint_jacobian(x, j, N, M) *)

(** A constraint dictionary: the keys ["type"], ["fun"] and ["jac"]. *)
Record constraint : Type := mkConstraint {
  con_type : String.string;
  con_fun : lambda;
  con_jac : option lambda
}.

(** [x[a:b]] for [0 <= a <= b]; a slice never raises. *)
Definition slice (x : list fl) (a b : nat) : list fl :=
  firstn (b - a) (skipn a x).

(** [a*b] on one-dimensional arrays, with numpy's broadcasting. *)
Definition array_mul (a b : list fl) : result (list fl) :=
  if (length a =? length b)%nat
  then Ok (map (fun '(u, v) => u * v)%fl (combine a b))
  else match a, b with
       | [u], _ => Ok (map (fl_mul u) b)
       | _, [v] => Ok (map (fun u => u * v)%fl a)
       | _, _ => Raise ValueError
       end.

(** [jac[a:b] = v] *)
Definition setslice (jac : list fl) (a b : nat) (v : list fl) : result (list fl) :=
  let target := slice jac a b in
  if (length v =? length target)%nat
  then Ok (firstn a jac ++ v ++ skipn (a + length target) jac)
  else match v with
       | [u] => Ok (firstn a jac ++ map (fun _ => u) target
                      ++ skipn (a + length target) jac)
       | _ => Raise ValueError
       end.

Definition rr_constraint_jacobian (x : list fl) (j : nat) (N M : Z)
  : result (list fl) :=
  let* jac := zeros_n (8 * (M + N - 1)) f0 in
  setslice jac (8 * j + 4) (8 * j + 8)
           (map (fl_mul (Fin 2)) (slice x (8 * j + 4) (8 * j + 8))).

Definition rs_constraint_jacobian (x : list fl) (j : nat) (N M : Z)
  : result (list fl) :=
  let* jac := zeros_n (8 * (M + N - 1)) f0 in
  let* jac := setslice jac (8 * j) (8 * j + 4) (slice x (8 * j + 4) (8 * j + 8)) in
  setslice jac (8 * j + 4) (8 * j + 8) (slice x (8 * j) (8 * j + 4)).

Inductive pyval : Type :=
| Scalar (v : fl)
| Array (a : list fl).

(** Calling one of the lambdas while the scope of [numerical_solver] is
    [sc]: the free variable [j] is read from [sc]. *)
Definition call_lambda (sc : scope) (f : lambda) (x : list fl) : result pyval :=
  match sc_j sc with
  | None => Raise NameError
  | Some j =>
      match f with
      | lambda_rr =>
          let* p := array_mul (slice x (8 * j + 4) (8 * j + 8))
                              (slice x (8 * j + 4) (8 * j + 8)) in
          Ok (Scalar (np_sum p - f1)%fl)
      | lambda_rs =>
          let* p := array_mul (slice x (8 * j + 4) (8 * j + 8))
                              (slice x (8 * j) (8 * j + 4)) in
          Ok (Scalar (np_sum p))
      | lambda_rr_jac =>
          let* a := rr_constraint_jacobian x j (sc_N sc) (sc_M sc) in Ok (Array a)
      | lambda_rs_jac =>
          let* a := rs_constraint_jacobian x j (sc_N sc) (sc_M sc) in Ok (Array a)
      end
  end.

(** [cons[k]["jac"] = f] *)
Definition set_jac (cons : list (option constraint)) (k : nat) (f : lambda)
  : result (list (option constraint)) :=
  let* c := getitem cons k in
  match c with
  | Some d => set_nth cons k (Some (mkConstraint (con_type d) (con_fun d) (Some f)))
  | None => Raise TypeError
  end.

(** The first loop of [numerical_solver]: it fills [cons] and leaves [j]
    bound in the scope. *)
Fixpoint constraints_loop (js : list nat) (sc : scope)
         (cons : list (option constraint))
  : result (scope * list (option constraint)) :=
  match js with
  | [] => Ok (sc, cons)
  | j :: js' =>
      let sc := bind_j sc j in
      let* cons := set_nth cons (2 * j) (Some (mkConstraint "eq" lambda_rr None)) in
      let* cons := set_nth cons (2 * j + 1) (Some (mkConstraint "eq" lambda_rs None)) in
      let* cons := set_jac cons (2 * j) lambda_rr_jac in
      let* cons := set_jac cons (2 * j + 1) lambda_rs_jac in
      constraints_loop js' sc cons
  end.

(** A bound pair [(lower, upper)]; [None] is Python's [None]. *)
Definition bound : Type := option Z * option Z.

(** The second loop: it extends [bounds] and rebinds the same [j]. *)
Fixpoint bounds_loop (js : list nat) (sc : scope) (bounds : list bound)
  : scope * list bound :=
  match js with
  | [] => (sc, bounds)
  | j :: js' =>
      let sc := bind_j sc j in
      let bounds := bounds ++ repeat (None, None) 4 in
      let bounds := bounds ++ repeat (Some (-1)%Z, Some 1%Z) 4 in
      bounds_loop js' sc bounds
  end.

(** The values of all constraint functions at [x], as the optimizer
    obtains them by calling [c["fun"](x)] for each [c] in [cons]. *)
Definition eval_constraints (sc : scope) (cons : list (option constraint))
           (x : list fl) : result (list fl) :=
  mapM (fun c =>
          match c with
          | None => Raise TypeError
          | Some d =>
              let* v := call_lambda sc (con_fun d) x in
              match v with
              | Scalar y => Ok y
              | Array _ => Raise ValueError
              end
          end) cons.

(** The part of [numerical_solver] before the call of the optimizer: the
    constraints, the bounds, and the scope as the two loops leave it. *)
Definition solver_setup (N M : Z)
  : result (scope * list (option constraint) * list bound) :=
  let sc := mkScope N M None in
  (* cons = np.empty(2*(N+M-1), dtype=dict) *)
  let* cons0 := zeros_n (2 * (N + M - 1)) (@None constraint) in
  let* (sc1, cons1) := constraints_loop (range (M + N - 1)) sc cons0 in
  let '(sc2, bounds) := bounds_loop (range (M + N - 1)) sc1 [] in
  Ok (sc2, cons1, bounds).

Section Numerical.

(** One iteration of scipy's SLSQP, as a black box: from the current
    point, the objective value, the constraint values and the bounds it
    proposes the next point, or stops. *)
Variable slsqp_step :
  list fl -> fl -> list fl -> list bound -> option (list fl).

(** [scipy.optimize.minimize(objective, x0, constraints=cons,
    method="SLSQP", options={"maxiter": ...}, args=(match, self),
    bounds=bounds)]: the constraint functions are evaluated at the
    current point, then the objective; an exception raised by either
    propagates to the caller. *)
Fixpoint minimize (maxiter : nat) (sc : scope)
         (cons : list (option constraint)) (bounds : list bound)
         (match_ : matrix) (x : list fl) (self : Rotation)
  : result (list fl) * Rotation :=
  match eval_constraints sc cons x with
  | Raise e => (Raise e, self)
  | Ok cv =>
      match objective x match_ self with
      | (Raise e, self') => (Raise e, self')
      | (Ok fx, self') =>
          match maxiter with
          | O => (Ok x, self')
          | S maxiter' =>
              match slsqp_step x fx cv bounds with
              | None => (Ok x, self')
              | Some x' => minimize maxiter' sc cons bounds match_ x' self'
              end
          end
      end
  end.

Definition numerical_solver (self : Rotation) (match_ : matrix)
  : result matrix * Rotation :=
  let N := num_reactants (self_M self) in
  let M := num_products (self_M self) in
  match solver_setup N M with
  | Raise e => (Raise e, self)
  | Ok (sc2, cons1, bounds) =>
    match minimize 500 sc2 cons1 bounds match_ (flatten_q (self_q self)) self with
      | (Raise e, self') => (Raise e, self')
      | (Ok opt_x, self') =>
          (* self.update_quaternions(opt.x.reshape((N+M-1),2,4)) *)
          match getattr self' "update_quaternions" with
          | Raise e => (Raise e, self')
          | Ok (attr_method name) =>
              match reshape_q (N + M - 1) opt_x with
              | Raise e => (Raise e, self')
              | Ok q =>
                  if String.eqb name "update_quarternions"
                  then let self'' := update_quarternions self' q in
                       (Ok (self_squared_distances self''), self'')
                  else (Raise TypeError, self')
              end
          | Ok _ => (Raise TypeError, self')
          end
      end
  end.

End Numerical.

(** ** The scorer: [self.score(match)] *)

Definition Score (eigh : mat4 -> result (vec4 * mat4))
           (slsqp_step : list fl -> fl -> list fl -> list bound -> option (list fl))
           (self : Rotation) (match_ : matrix) : result matrix * Rotation :=
  match self_score self with
  | analytical => analytical_solver eigh self match_
  | numerical => numerical_solver slsqp_step self match_
  end.

(** ** Atomic: the atom-type contribution *)

(** The attributes of the Ordering object that [Atomic] reads besides
    [match_matrix]: four one-dimensional numpy arrays of strings. *)
Record AtomTypes : Type := mkAtomTypes {
  reactants_sybyl_types : list String.string;
  products_sybyl_types : list String.string;
  reactants_elements : list String.string;
  products_elements : list String.string
}.

(** [a[:, None] != b[None, :]]: a boolean array of shape
    [(len(a), len(b))]. *)
Definition ne_outer (a b : list String.string) : list (list bool) :=
  map (fun x => map (fun y => negb (String.eqb x y)) b) a.

(** [w * mask] for a boolean array: [True] counts as 1.0, [False] as 0.0. *)
Definition scale_mask (w : fl) (mask : list (list bool)) : matrix :=
  map (map (fun t : bool => (w * (if t then f1 else f0))%fl)) mask.

Fixpoint imap_from {A B : Type} (f : nat -> A -> B) (start : nat) (l : list A)
  : list B :=
  match l with
  | [] => []
  | a :: l' => f start a :: imap_from f (S start) l'
  end.

(** [a += V] in place, for [V] of shape [vshape]: [V] is broadcast to the
    shape of [a], and numpy raises ValueError when it cannot be. *)
Definition iadd (a V : matrix) (vshape : nat * nat) : result matrix :=
  if broadcastable vshape (shape a)
  then Ok (imap_from
             (fun i row =>
                imap_from (fun j x => (x + bcast_get V vshape i j)%fl) O row)
             O a)
  else Raise ValueError.

(** The float literal [1e300]. *)
Definition q1e300 : Q := inject_Z (10 ^ 300).

(** [Atomic.get_score_matrix]; [atomic_sybyl_weight] is the value of
    [settings.atomic_sybyl_weight]. *)
Definition get_score_matrix (atomic_sybyl_weight : fl) (M : Ordering)
           (T : AtomTypes) : result matrix :=
  let score_matrix := zeros (shape (match_matrix M)) in
  let* score_matrix :=
    iadd score_matrix
         (scale_mask atomic_sybyl_weight
            (ne_outer (reactants_sybyl_types T) (products_sybyl_types T)))
         (length (reactants_sybyl_types T), length (products_sybyl_types T)) in
  let* score_matrix :=
    iadd score_matrix
         (scale_mask (Fin q1e300)
            (ne_outer (reactants_elements T) (products_elements T)))
         (length (reactants_elements T), length (products_elements T)) in
  Ok score_matrix.

Record Atomic : Type := mkAtomic {
  atomic_M : Ordering;
  atomic_T : AtomTypes;
  atomic_score_matrix : matrix
}.

(** [Atomic.__init__] *)
Definition Atomic_init (atomic_sybyl_weight : fl) (M : Ordering) (T : AtomTypes)
  : result Atomic :=
  let* sm := get_score_matrix atomic_sybyl_weight M T in
  Ok (mkAtomic M T sm).

(** [Atomic.score]: the match matrix is a parameter for convenience only. *)
Definition Atomic_score (self : Atomic) (mtch : matrix) : matrix :=
  atomic_score_matrix self.

(** ** Constants (definitions.py) *)

(** A dictionary as an association list with one entry per key, in
    insertion order.  [d[k]] reads the entry of [k]; [d[k] = v] replaces
    the value of an existing key and appends a new one. *)
Definition key : Type := (String.string * String.string)%type.

Definition key_eqb (k k' : key) : bool :=
  String.eqb (fst k) (fst k') && String.eqb (snd k) (snd k').

Fixpoint dict_get {V : Type} (d : list (key * V)) (k : key) : option V :=
  match d with
  | [] => None
  | (k', v) :: d' => if key_eqb k k' then Some v else dict_get d' k
  end.

Fixpoint dict_set {V : Type} (d : list (key * V)) (k : key) (v : V)
  : list (key * V) :=
  match d with
  | [] => [(k, v)]
  | (k', v') :: d' =>
      if key_eqb k k' then (k, v) :: d' else (k', v') :: dict_set d' k v
  end.

(** A dictionary display [{k1: v1, k2: v2, ...}]. *)
Definition dict_of_list {V : Type} (l : list (key * V)) : list (key * V) :=
  fold_left (fun d '(k, v) => dict_set d k v) l [].

(** [key[::-1]] on a pair. *)
Definition reversed (k : key) : key := (snd k, fst k).

(** [for key, value in d.items(): d[key[::-1]] = value].  In Python 2
    [d.items()] is a list, a copy of the entries in an order the language
    does not fix; it is the argument [items] here. *)
Definition add_reversed {V : Type} (items : list (key * V)) (d : list (key * V))
  : list (key * V) :=
  fold_left (fun d '(k, v) => dict_set d (reversed k) v) items d.

(** loose_lower, lower, loose_upper, upper *)
Definition limits : Type := (fl * fl * fl * fl)%type.

Definition lim (a b c e : Q) : limits := (Fin a, Fin b, Fin c, Fin e).

(** The dictionary display of [__init__] and the entry of S-H added after
    it. *)
Definition bond_length_limits_display : list (key * limits) :=
  dict_of_list
  [
   (("As", "As")%string, lim 2.20 2.30 2.65 2.80);
   (("As", "Br")%string, lim 2.20 2.30 3.30 3.40);
   (("As", "Cl")%string, lim 2.10 2.15 2.40 3.30);
   (("As", "C")%string, lim 1.75 1.80 2.10 2.20);
   (("As", "F")%string, lim 1.50 1.60 1.80 2.10);
   (("As", "I")%string, lim 2.30 2.40 3.70 3.80);
   (("As", "N")%string, lim 1.60 1.70 2.05 2.70);
   (("As", "O")%string, lim 1.40 1.60 2.00 2.30);
   (("As", "P")%string, lim 2.10 2.20 2.40 2.60);
   (("As", "S")%string, lim 1.90 2.00 2.40 3.10);
   (("Br", "Br")%string, lim 2.20 2.20 2.80 4.00);
   (("Br", "C")%string, lim 1.75 1.80 2.00 2.10);
   (("Br", "I")%string, lim 2.50 2.55 3.00 3.50);
   (("Br", "P")%string, lim 2.00 2.10 2.70 3.00);
   (("C", "Cl")%string, lim 1.60 1.65 1.85 2.00);
   (("C", "C")%string, lim 1.10 1.25 1.70 1.80);
   (("C", "F")%string, lim 1.20 1.25 1.45 1.50);
   (("C", "H")%string, lim 0.85 0.95 1.15 1.25);
   (("C", "I")%string, lim 1.90 2.00 2.20 2.25);
   (("C", "N")%string, lim 1.00 1.10 1.60 1.70);
   (("C", "O")%string, lim 1.00 1.15 1.50 1.60);
   (("C", "P")%string, lim 1.45 1.65 1.95 2.00);
   (("C", "S")%string, lim 1.50 1.60 1.90 2.00);
   (("Cl", "I")%string, lim 2.30 2.35 2.75 3.10);
   (("Cl", "N")%string, lim 1.60 1.65 1.80 1.90);
   (("Cl", "O")%string, lim 1.20 1.30 1.50 1.60);
   (("Cl", "P")%string, lim 1.90 1.95 2.20 2.40);
   (("Cl", "S")%string, lim 1.90 1.95 2.45 3.10);
   (("F", "I")%string, lim 1.80 1.90 2.15 3.00);
   (("F", "P")%string, lim 1.40 1.50 1.65 1.70);
   (("F", "S")%string, lim 1.40 1.45 1.75 1.80);
   (("H", "N")%string, lim 0.80 0.95 1.10 1.25);
   (("H", "O")%string, lim 0.70 0.85 1.10 1.30);
   (("I", "I")%string, lim 2.60 2.70 3.20 3.60);
   (("I", "N")%string, lim 1.90 1.95 2.55 2.65);
   (("I", "O")%string, lim 1.55 1.60 2.60 3.00);
   (("I", "P")%string, lim 2.30 2.35 2.60 3.00);
   (("I", "S")%string, lim 2.30 2.40 2.95 3.25);
   (("N", "N")%string, lim 1.00 1.10 1.50 1.60);
   (("N", "O")%string, lim 1.10 1.15 1.50 1.60);
   (("N", "P")%string, lim 1.40 1.50 1.80 2.10);
   (("N", "S")%string, lim 1.40 1.50 1.75 1.85);
   (("O", "O")%string, lim 1.20 1.25 1.55 1.60);
   (("O", "P")%string, lim 1.35 1.40 1.80 1.90);
   (("O", "S")%string, lim 1.35 1.40 1.65 1.80);
   (("P", "P")%string, lim 1.95 2.00 2.35 2.60);
   (("P", "S")%string, lim 1.75 1.85 2.20 2.30);
   (("S", "S")%string, lim 1.90 2.00 2.40 2.60)
  ].

Definition bond_length_limits_one_way : list (key * limits) :=
  dict_set bond_length_limits_display ("H", "S")%string (lim 1.2 1.3 1.4 1.5).

Record Constants : Type := mkConstants {
  bond_length_limits : list (key * limits);
  number_bonds : list (String.string * list Z);
  monovalent : list String.string
}.

(** [Constants.__init__]; [items] is the list that
    [self.bond_length_limits.items()] returns. *)
Definition Constants_init (items : list (key * limits)) : Constants :=
  mkConstants
    (add_reversed items bond_length_limits_one_way)
    [("As", [3; 4]); ("Br", [1]); ("C", [2; 3; 4]); ("Cl", [1]); ("F", [1]);
     ("H", [1]); ("I", [1]); ("N", [1; 2; 3; 4]); ("O", [1; 2]); ("P", [3]);
     ("S", [1; 2; 3; 4])]%string%Z
    ["Br"; "Cl"; "F"; "H"; "I"]%string.

(** * The scorer in the range of binary64

    The arithmetic above is exact.  A binary64 operation whose exact result
    is too large for the format returns an infinity instead; the module
    [Binary64] carries that out.  Its four operations round the exact
    result to the range of the format, and the functions of the scorer that
    compute with numbers are stated again over them, word for word as
    above.  Everything else is shared: indexing, the assignments, the
    exceptions and the attribute lookup; [makeW] and [makeQ], which only
    negate and place entries; and [isclose], whose verdict is the same
    whether or not the difference it forms overflows.  Rounding to 53 bits
    and underflow are not modelled. *)

Module Binary64.

(** An exact result of magnitude [2^1024 - 2^970] or more rounds to an
    infinity (round to nearest, ties to even); the largest finite number
    of the format is [2^1024 - 2^971]. *)
Definition overflow_threshold : Q := inject_Z (2 ^ 1024 - 2 ^ 970).

Definition round (x : fl) : fl :=
  match x with
  | Fin q =>
      if Qle_bool overflow_threshold (Qabs q) then Inf (Qneg_bool q) else Fin q
  | _ => x
  end.

Definition fl_add (x y : fl) : fl := round (fl_add x y).
Definition fl_sub (x y : fl) : fl := round (fl_sub x y).
Definition fl_mul (x y : fl) : fl := round (fl_mul x y).
Definition fl_div (x y : fl) : fl := round (fl_div x y).

#[local] Set Warnings "-notation-overridden".
Notation "x + y" := (fl_add x y) : fl_scope.
Notation "x - y" := (fl_sub x y) : fl_scope.
Notation "x * y" := (fl_mul x y) : fl_scope.
Notation "x / y" := (fl_div x y) : fl_scope.
#[local] Set Warnings "+notation-overridden".

Definition fl_sq (x : fl) : fl := fl_mul x x.

(** [numpy.sum] of a one-dimensional array. *)
Definition np_sum (l : list fl) : fl := fold_left fl_add l f0.

Definition dot3 (a b : vec3) : fl :=
  let '(a1, a2, a3) := a in
  let '(b1, b2, b3) := b in
  (a1 * b1 + a2 * b2 + a3 * b3)%fl.

Definition dot4 (a b : vec4) : fl :=
  let '(a1, a2, a3, a4) := a in
  let '(b1, b2, b3, b4) := b in
  (a1 * b1 + a2 * b2 + a3 * b3 + a4 * b4)%fl.

(** [m.dot(v)] *)
Definition mat4_dot_vec (m : mat4) (v : vec4) : vec4 :=
  let '(r1, r2, r3, r4) := m in
  (dot4 r1 v, dot4 r2 v, dot4 r3 v, dot4 r4 v).

(** [m.dot(n)] *)
Definition mat4_dot (m n : mat4) : mat4 :=
  let '(c1, c2, c3, c4) := mat4_T n in
  let row (r : vec4) := (dot4 r c1, dot4 r c2, dot4 r c3, dot4 r c4) in
  let '(r1, r2, r3, r4) := m in
  (row r1, row r2, row r3, row r4).

Definition mat3_dot_vec (m : mat3) (v : vec3) : vec3 :=
  let '(r1, r2, r3) := m in (dot3 r1 v, dot3 r2 v, dot3 r3 v).

Definition vec3_sub (a b : vec3) : vec3 :=
  let '(a1, a2, a3) := a in
  let '(b1, b2, b3) := b in
  ((a1 - b1)%fl, (a2 - b2)%fl, (a3 - b3)%fl).

Definition vec3_add (a b : vec3) : vec3 :=
  let '(a1, a2, a3) := a in
  let '(b1, b2, b3) := b in
  ((a1 + b1)%fl, (a2 + b2)%fl, (a3 + b3)%fl).

Definition mat4_add : mat4 -> mat4 -> mat4 := mat4_map2 fl_add.

Definition mat4_sub : mat4 -> mat4 -> mat4 := mat4_map2 fl_sub.

Definition mat4_scale (c : fl) : mat4 -> mat4 := mat4_map (fl_mul c).

Definition transform (r s : vec4) : mat3 * vec3 :=
  let Wt_r := mat4_T (makeW r) in
  let Q_r := makeQ r in
  let rot := mat4_block3 (mat4_dot Wt_r Q_r) in
  let trans := vec4_head3 (mat4_dot_vec Wt_r s) in
  (rot, trans).

(** [interaction_arrays] *)
Definition interaction_arrays (X Y : list vec3)
  : list mat4 * list mat4 * list (list mat4) * list (list mat4) :=
  let W := map (fun x => makeW (quat_of_coord x)) X in
  let Q := map (fun y => makeQ (quat_of_coord y)) Y in
  let Qt_dot_W := map (fun w => map (fun q => mat4_dot (mat4_T q) w) Q) W in
  let W_minus_Q := map (fun w => map (fun q => mat4_sub w q) Q) W in
  (W, Q, Qt_dot_W, W_minus_Q).

(** [__init__] *)
Definition Rotation_init (M : Ordering) : result Rotation :=
  let X := products_coordinates M in
  let Y := reactants_coordinates M in
  let score := set_solver M in
  let* q := initialize_quaternions M in
  let '(W, Q, Qt_dot_W, W_minus_Q) := interaction_arrays X Y in
  Ok (mkRotation M X Y score q W Q Qt_dot_W W_minus_Q
        (zeros (shape (match_matrix M)))).

(** [np.sum(m[:,:,None,None]*t, axis=(0,1))] for a weight block [m] and a
    block [t] of 4x4 matrices of the same shape. *)
Definition weighted_sum (m : matrix) (t : list (list mat4)) : mat4 :=
  fold_left
    (fun acc '(mrow, trow) =>
       fold_left (fun acc' '(w, a) => mat4_add acc' (mat4_scale w a))
                 (combine mrow trow) acc)
    (combine m t) mat4_zero.

(** [m.sum()] *)
Definition matrix_sum (m : matrix) : fl := np_sum (concat m).

(** [A = 0.5*(C3.T.dot(C3)/(2*C2)-C1-C1.T)] *)
Definition make_A (C1 : mat4) (C2 : fl) (C3 : mat4) : mat4 :=
  mat4_scale (Fin (1 # 2))
    (mat4_sub
       (mat4_sub
          (mat4_map (fun x => x / (Fin 2 * C2))%fl (mat4_dot (mat4_T C3) C3))
          C1)
       (mat4_T C1)).

(** One entry of
    [np.sum((Y[None,:,:] - trans[None,None,:] - rot.dot(X.T).T[:,None,:])**2, axis=2)]:
    the entry at row [x] (of [X]) and column [y] (of [Y]). *)
Definition sqdist (rot : mat3) (trans : vec3) (x y : vec3) : fl :=
  let '(d1, d2, d3) := vec3_sub (vec3_sub y trans) (mat3_dot_vec rot x) in
  np_sum [fl_sq d1; fl_sq d2; fl_sq d3].

Definition sqdist_matrix (rot : mat3) (trans : vec3) (X Y : list vec3) : matrix :=
  map (fun x => map (fun y => sqdist rot trans x y) Y) X.

Section Analytical.

(** [numpy.linalg.eigh] on a 4x4 matrix: the eigenvalues in ascending
    order and the matrix whose columns are the eigenvectors, or
    [LinAlgError]. *)
Variable eigh : mat4 -> result (vec4 * mat4).

(** The three weighted sums of one sub-block and the matrix [A]:
    [C1 = -2*np.sum(match_sub_matrix[:,:,None,None]*Qt_dot_W,axis=(0,1))],
    [C2 = match_sub_matrix.sum()],
    [C3 = 2*np.sum(match_sub_matrix[:,:,None,None]*W_minus_Q,axis=(0,1))]. *)
Definition block_C1 (match_sub_matrix : matrix) (Qt_dot_W : list (list mat4)) : mat4 :=
  mat4_scale (Fin (-2)) (weighted_sum match_sub_matrix Qt_dot_W).

Definition block_C2 (match_sub_matrix : matrix) : fl :=
  matrix_sum match_sub_matrix.

Definition block_C3 (match_sub_matrix : matrix) (W_minus_Q : list (list mat4)) : mat4 :=
  mat4_scale (Fin 2) (weighted_sum match_sub_matrix W_minus_Q).

Definition block_A (match_sub_matrix : matrix)
           (Qt_dot_W W_minus_Q : list (list mat4)) : mat4 :=
  make_A (block_C1 match_sub_matrix Qt_dot_W) (block_C2 match_sub_matrix)
         (block_C3 match_sub_matrix W_minus_Q).

(** The fit of one sub-block, from [C1] to the block of squared distances
    (of shape [(len(X), len(Y))]). *)
Definition analytical_fit (X Y : list vec3) (match_sub_matrix : matrix)
           (Qt_dot_W W_minus_Q : list (list mat4)) : result matrix :=
  let C2 := block_C2 match_sub_matrix in
  let C3 := block_C3 match_sub_matrix W_minus_Q in
  let A := block_A match_sub_matrix Qt_dot_W W_minus_Q in
  let* _ := py_assert (allclose44 A (mat4_T A)) in
  let* eigen := eigh A in
  let r := last_column (snd eigen) in
  let* _ := py_assert (allclose4 (mat4_dot_vec A r)
                                 (vec4_map (fl_mul (last4 (fst eigen))) r)) in
  let s := vec4_map (fun x => - x / (Fin 2 * C2))%fl (mat4_dot_vec C3 r) in
  let '(rot, trans) := transform r s in
  Ok (sqdist_matrix rot trans X Y).

(** The body of the double loop of [analytical_solver] up to the
    assignment. *)
Definition analytical_block (self : Rotation) (match_ : matrix)
           (reactant_indices product_indices : list nat) : result matrix :=
  let* X := take (self_X self) product_indices in
  let* Y := take (self_Y self) reactant_indices in
  let* match_sub_matrix := take_ix match_ reactant_indices product_indices in
  let* Qt_dot_W := take_ix (self_Qt_dot_W self) reactant_indices product_indices in
  let* W_minus_Q := take_ix (self_W_minus_Q self) reactant_indices product_indices in
  analytical_fit X Y match_sub_matrix Qt_dot_W W_minus_Q.

(** The loop body with its assignment to
    [self.squared_distances[sub_matrix_indices]]. *)
Definition analytical_step (match_ : matrix)
           (reactant_indices product_indices : list nat)
           (self : Rotation) : result unit * Rotation :=
  match analytical_block self match_ reactant_indices product_indices with
  | Raise e => (Raise e, self)
  | Ok V =>
      match setitem_ix (self_squared_distances self)
              reactant_indices product_indices V
              (length product_indices, length reactant_indices) with
      | Raise e => (Raise e, self)
      | Ok d => (Ok tt, set_squared_distances self d)
      end
  end.

Definition analytical_solver (self : Rotation) (match_ : matrix)
  : result matrix * Rotation :=
  match getitem (reactant_subset_indices (self_M self)) 0 with
  | Raise e => (Raise e, self)
  | Ok ref_indices =>
      match take (self_Y self) ref_indices with
      | Raise e => (Raise e, self)
      | Ok Y0 =>
          match for_each (reactant_subset_indices (self_M self))
                  (fun reactant_indices =>
                     for_each (product_subset_indices (self_M self))
                       (fun product_indices =>
                          analytical_step match_ reactant_indices product_indices))
                  self with
          | (Ok _, self') => (Ok (self_squared_distances self'), self')
          | (Raise e, self') => (Raise e, self')
          end
      end
  end.

End Analytical.

(** [for k in ks: rot[k], trans[k] = self.transform(q[k, 1], q[k, 0])] *)
Fixpoint fill_transforms (q : list dualquat) (ks : list Z)
         (rot : list mat3) (trans : list vec3)
  : result (list mat3 * list vec3) :=
  match ks with
  | [] => Ok (rot, trans)
  | k :: ks' =>
      let* qk1 := getitemZ q k in
      let* qk0 := getitemZ q k in
      let '(rt, tr) := transform (snd qk1) (fst qk0) in
      let* rot' := setitemZ rot k rt in
      let* trans' := setitemZ trans k tr in
      fill_transforms q ks' rot' trans'
  end.

(** [rot.dot(Y.T).T] *)
Definition rot_dot_T (rot : mat3) (Y : picked) : picked :=
  match Y with
  | Row v => Row (mat3_dot_vec rot v)
  | Rows l => Rows (map (mat3_dot_vec rot) l)
  end.

(** One entry of
    [np.sum((trans[M+i][None,None,:] + (rot[M+i].dot(Y.T).T)[None,:,:]
             - trans[j][None,None,:] - (rot[j].dot(X.T).T)[:,None,:])**2, axis=2)]. *)
Definition sqdist2 (trans_i : vec3) (rot_j : mat3) (trans_j : vec3)
           (x roty : vec3) : fl :=
  let '(d1, d2, d3) :=
    vec3_sub (vec3_sub (vec3_add trans_i roty) trans_j) (mat3_dot_vec rot_j x) in
  np_sum [fl_sq d1; fl_sq d2; fl_sq d3].

(** The body of the loop over the remaining reactant groups,
    [for i, reactant_indices in self.M.reactant_subset_indices[1:]]. *)
Definition objective_inner (num_products : Z) (rot : list mat3) (trans : list vec3)
           (j : nat) (X : list vec3) (product_indices : list nat)
           (g : list nat) (self : Rotation) : result unit * Rotation :=
  let r :=
    let* (i, reactant_indices) := unpack_pair g in
    let* Y := pick (self_X self) (Int reactant_indices) in
    let* trans_i := getitemZ trans (num_products + Z.of_nat i) in
    let* rot_i := getitemZ rot (num_products + Z.of_nat i) in
    let* rotY := index_None_slice_slice (rot_dot_T rot_i Y) in
    let* trans_j := getitem trans j in
    let* rot_j := getitem rot j in
    let V := map (fun x => map (sqdist2 trans_i rot_j trans_j x) rotY) X in
    let* (rows, cols) := np_ix_ (Int reactant_indices) (Seq product_indices) in
    setitem_ix (self_squared_distances self) rows cols V (length X, length rotY) in
  match r with
  | Raise e => (Raise e, self)
  | Ok d => (Ok tt, set_squared_distances self d)
  end.

(** The body of the loop over the product groups. *)
Definition objective_outer (num_products : Z) (rot : list mat3) (trans : list vec3)
           (ref_indices : list nat) (Y0 : list vec3)
           (jp : nat * list nat) (self : Rotation) : result unit * Rotation :=
  let '(j, product_indices) := jp in
  match take (self_X self) product_indices with
  | Raise e => (Raise e, self)
  | Ok X =>
      let r :=
        let* trans_j := getitem trans j in
        let* rot_j := getitem rot j in
        setitem_ix (self_squared_distances self) ref_indices product_indices
          (sqdist_matrix rot_j trans_j X Y0) (length X, length Y0) in
      match r with
      | Raise e => (Raise e, self)
      | Ok d =>
          for_each (tl (reactant_subset_indices (self_M self)))
            (objective_inner num_products rot trans j X product_indices)
            (set_squared_distances self d)
      end
  end.

(** [objective(flat_q, match, self)], the function handed to the
    optimizer. *)
Definition objective (flat_q : list fl) (match_ : matrix) (self : Rotation)
  : result fl * Rotation :=
  let N := num_reactants (self_M self) in
  let M := num_products (self_M self) in
  let pre :=
    let* q := reshape_q (N + M - 1) flat_q in
    let* trans := zeros_n (N + M - 1) vec3_zero in
    let* rot := zeros_n (N + M - 1) mat3_zero in
    let* (rot, trans) := fill_transforms q (map Z.of_nat (range M)) rot trans in
    let* (rot, trans) :=
      fill_transforms q (map (fun i => M + Z.of_nat i)%Z (range (N - 1))) rot trans in
    let* ref_indices := getitem (reactant_subset_indices (self_M self)) 0 in
    let* Y0 := take (self_Y self) ref_indices in
    Ok (rot, trans, ref_indices, Y0) in
  match pre with
  | Raise e => (Raise e, self)
  | Ok (rot, trans, ref_indices, Y0) =>
      match for_each (enumerate (product_subset_indices (self_M self)))
              (objective_outer M rot trans ref_indices Y0) self with
      | (Raise e, self') => (Raise e, self')
      | (Ok _, self') =>
          (* return np.sum(self.match_matrix*self.squared_distances) *)
          match getattr self' "match_matrix" with
          | Ok (attr_matrix m) =>
              (Ok (np_sum (map (fun '(a, b) => a * b)%fl
                             (combine (concat m)
                                (concat (self_squared_distances self'))))),
               self')
          | Ok _ => (Raise TypeError, self')
          | Raise e => (Raise e, self')
          end
      end
  end.

(** [a*b] on one-dimensional arrays, with numpy's broadcasting. *)
Definition array_mul (a b : list fl) : result (list fl) :=
  if (length a =? length b)%nat
  then Ok (map (fun '(u, v) => u * v)%fl (combine a b))
  else match a, b with
       | [u], _ => Ok (map (fl_mul u) b)
       | _, [v] => Ok (map (fun u => u * v)%fl a)
       | _, _ => Raise ValueError
       end.

Definition rr_constraint_jacobian (x : list fl) (j : nat) (N M : Z)
  : result (list fl) :=
  let* jac := zeros_n (8 * (M + N - 1)) f0 in
  setslice jac (8 * j + 4) (8 * j + 8)
           (map (fl_mul (Fin 2)) (slice x (8 * j + 4) (8 * j + 8))).

(** Calling one of the lambdas while the scope of [numerical_solver] is
    [sc]: the free variable [j] is read from [sc]. *)
Definition call_lambda (sc : scope) (f : lambda) (x : list fl) : result pyval :=
  match sc_j sc with
  | None => Raise NameError
  | Some j =>
      match f with
      | lambda_rr =>
          let* p := array_mul (slice x (8 * j + 4) (8 * j + 8))
                              (slice x (8 * j + 4) (8 * j + 8)) in
          Ok (Scalar (np_sum p - f1)%fl)
      | lambda_rs =>
          let* p := array_mul (slice x (8 * j + 4) (8 * j + 8))
                              (slice x (8 * j) (8 * j + 4)) in
          Ok (Scalar (np_sum p))
      | lambda_rr_jac =>
          let* a := rr_constraint_jacobian x j (sc_N sc) (sc_M sc) in Ok (Array a)
      | lambda_rs_jac =>
          let* a := rs_constraint_jacobian x j (sc_N sc) (sc_M sc) in Ok (Array a)
      end
  end.

(** The values of all constraint functions at [x], as the optimizer
    obtains them by calling [c["fun"](x)] for each [c] in [cons]. *)
Definition eval_constraints (sc : scope) (cons : list (option constraint))
           (x : list fl) : result (list fl) :=
  mapM (fun c =>
          match c with
          | None => Raise TypeError
          | Some d =>
              let* v := call_lambda sc (con_fun d) x in
              match v with
              | Scalar y => Ok y
              | Array _ => Raise ValueError
              end
          end) cons.

Section Numerical.

(** One iteration of scipy's SLSQP, as a black box: from the current
    point, the objective value, the constraint values and the bounds it
    proposes the next point, or stops. *)
Variable slsqp_step :
  list fl -> fl -> list fl -> list bound -> option (list fl).

(** [scipy.optimize.minimize(objective, x0, constraints=cons,
    method="SLSQP", options={"maxiter": ...}, args=(match, self),
    bounds=bounds)]: the constraint functions are evaluated at the
    current point, then the objective; an exception raised by either
    propagates to the caller. *)
Fixpoint minimize (maxiter : nat) (sc : scope)
         (cons : list (option constraint)) (bounds : list bound)
         (match_ : matrix) (x : list fl) (self : Rotation)
  : result (list fl) * Rotation :=
  match eval_constraints sc cons x with
  | Raise e => (Raise e, self)
  | Ok cv =>
      match objective x match_ self with
      | (Raise e, self') => (Raise e, self')
      | (Ok fx, self') =>
          match maxiter with
          | O => (Ok x, self')
          | S maxiter' =>
              match slsqp_step x fx cv bounds with
              | None => (Ok x, self')
              | Some x' => minimize maxiter' sc cons bounds match_ x' self'
              end
          end
      end
  end.

Definition numerical_solver (self : Rotation) (match_ : matrix)
  : result matrix * Rotation :=
  let N := num_reactants (self_M self) in
  let M := num_products (self_M self) in
  match solver_setup N M with
  | Raise e => (Raise e, self)
  | Ok (sc2, cons1, bounds) =>
    match minimize 500 sc2 cons1 bounds match_ (flatten_q (self_q self)) self with
      | (Raise e, self') => (Raise e, self')
      | (Ok opt_x, self') =>
          (* self.update_quaternions(opt.x.reshape((N+M-1),2,4)) *)
          match getattr self' "update_quaternions" with
          | Raise e => (Raise e, self')
          | Ok (attr_method name) =>
              match reshape_q (N + M - 1) opt_x with
              | Raise e => (Raise e, self')
              | Ok q =>
                  if String.eqb name "update_quarternions"
                  then let self'' := update_quarternions self' q in
                       (Ok (self_squared_distances self''), self'')
                  else (Raise TypeError, self')
              end
          | Ok _ => (Raise TypeError, self')
          end
      end
  end.

End Numerical.

Definition Score (eigh : mat4 -> result (vec4 * mat4))
           (slsqp_step : list fl -> fl -> list fl -> list bound -> option (list fl))
           (self : Rotation) (match_ : matrix) : result matrix * Rotation :=
  match self_score self with
  | analytical => analytical_solver eigh self match_
  | numerical => numerical_solver slsqp_step self match_
  end.

Definition rotation_of (M : Ordering) : Rotation :=
  match Rotation_init M with
  | Ok self => self
  | Raise _ => mkRotation M [] [] (set_solver M) [] [] [] [] [] []
  end.




End Binary64.

(** * Predicates, specification-side definitions and example inputs *)

(** [x] is the finite number [q]. *)
Definition fl_is (x : fl) (q : Q) : Prop :=
  exists q', x = Fin q' /\ q' == q.

Definition is_identity3 (m : mat3) : Prop :=
  let '((a11, a12, a13), (a21, a22, a23), (a31, a32, a33)) := m in
  fl_is a11 1 /\ fl_is a12 0 /\ fl_is a13 0 /\
  fl_is a21 0 /\ fl_is a22 1 /\ fl_is a23 0 /\
  fl_is a31 0 /\ fl_is a32 0 /\ fl_is a33 1.

(** A proper rotation: orthogonal, with determinant [+1]. *)
Definition proper_rotation (m : mat3) : Prop :=
  is_identity3 (mat3_dot (mat3_T m) m) /\
  is_identity3 (mat3_dot m (mat3_T m)) /\
  fl_is (det3 m) 1.

Definition quat (r1 r2 r3 r4 : Q) : vec4 := (Fin r1, Fin r2, Fin r3, Fin r4).

(** Every attribute but [squared_distances] is the same in [self']. *)
Definition only_distances_changed (self self' : Rotation) : Prop :=
  self' = set_squared_distances self (self_squared_distances self').

(** The residual of the unit-norm constraint of transform [k] as the
    specification states it, [|r_k|^2 - 1], and of its orthogonality
    constraint, [r_k . s_k], on the flat state [x]. *)
Definition spec_unit_norm_residual (x : list fl) (k : nat) : result pyval :=
  let* p := array_mul (slice x (8 * k + 4) (8 * k + 8))
                      (slice x (8 * k + 4) (8 * k + 8)) in
  Ok (Scalar (np_sum p - f1)%fl).

Definition spec_orthogonality_residual (x : list fl) (k : nat) : result pyval :=
  let* p := array_mul (slice x (8 * k + 4) (8 * k + 8))
                      (slice x (8 * k) (8 * k + 4)) in
  Ok (Scalar (np_sum p)).

(** The two constraint dictionaries that one round of the loop stores. *)
Definition con_rr : option constraint :=
  Some (mkConstraint "eq" lambda_rr (Some lambda_rr_jac)).
Definition con_rs : option constraint :=
  Some (mkConstraint "eq" lambda_rs (Some lambda_rs_jac)).

(** The eight bounds that one round of the second loop appends. *)
Definition bound_block : list bound :=
  repeat (None, None) 4 ++ repeat (Some (-1)%Z, Some 1%Z) 4.

(** What the specification says of the bounds: the dual slots of every
    transform are boxed, the rotation slots are free. *)
Definition spec_bounds_dual_boxed_rotation_free (bounds : list bound) (n : nat) : Prop :=
  forall k i, (k < n)%nat -> (i < 4)%nat ->
    (exists lo hi, nth_error bounds (8 * k + i) = Some (Some lo, Some hi)) /\
    nth_error bounds (8 * k + 4 + i) = Some (None, None).

Definition finite (x : fl) : Prop := exists q, x = Fin q.

(** A finite number that is not negative. *)
Definition nonneg (x : fl) : Prop := exists q, x = Fin q /\ 0 <= q.

(** A value that is zero or NaN: what a zero weight makes of any number. *)
Definition zero_or_nan (x : fl) : Prop := x = NaN \/ fl_is x 0.

Definition vec3_Forall (P : fl -> Prop) (v : vec3) : Prop :=
  let '(a, b, c) := v in P a /\ P b /\ P c.

Definition vec4_Forall (P : fl -> Prop) (v : vec4) : Prop :=
  let '(a, b, c, d) := v in P a /\ P b /\ P c /\ P d.

Definition mat3_Forall (P : fl -> Prop) (m : mat3) : Prop :=
  let '(r1, r2, r3) := m in
  vec3_Forall P r1 /\ vec3_Forall P r2 /\ vec3_Forall P r3.

Definition mat4_Forall (P : fl -> Prop) (m : mat4) : Prop :=
  let '(r1, r2, r3, r4) := m in
  vec4_Forall P r1 /\ vec4_Forall P r2 /\ vec4_Forall P r3 /\ vec4_Forall P r4.

Definition matrix_Forall (P : fl -> Prop) (m : matrix) : Prop :=
  Forall (Forall P) m.

(** [m[0][0]] *)
Definition mat4_00 (m : mat4) : fl :=
  let '((a, _, _, _), _, _, _) := m in a.

(** Two finite numbers that are equal. *)
Definition fl_eq (x y : fl) : Prop :=
  exists a b, x = Fin a /\ y = Fin b /\ a == b.

Definition vec4_Forall2 (R : fl -> fl -> Prop) (u v : vec4) : Prop :=
  let '(a1, a2, a3, a4) := u in
  let '(b1, b2, b3, b4) := v in
  R a1 b1 /\ R a2 b2 /\ R a3 b3 /\ R a4 b4.

Definition mat4_Forall2 (R : fl -> fl -> Prop) (m n : mat4) : Prop :=
  let '(r1, r2, r3, r4) := m in
  let '(s1, s2, s3, s4) := n in
  vec4_Forall2 R r1 s1 /\ vec4_Forall2 R r2 s2 /\
  vec4_Forall2 R r3 s3 /\ vec4_Forall2 R r4 s4.

(** [A] equals its transpose, entry by entry. *)
Definition mat4_symmetric (A : mat4) : Prop := mat4_Forall2 fl_eq A (mat4_T A).

(** The length of every row of a two-dimensional array. *)
Definition dims (a : matrix) : list nat := map (@length fl) a.

(** The data of a scorer that the match matrix does not touch is finite:
    the coordinates and the precomputed 4x4 matrices. *)
Definition finite_data (self : Rotation) : Prop :=
  Forall (vec3_Forall finite) (self_X self) /\
  Forall (vec3_Forall finite) (self_Y self) /\
  Forall (Forall (mat4_Forall finite)) (self_Qt_dot_W self) /\
  Forall (Forall (mat4_Forall finite)) (self_W_minus_Q self).

(** What [numpy.linalg.eigh] is assumed to do: on a finite matrix its
    eigenvalues and eigenvectors, when it returns them, are finite. *)
Definition eigh_keeps_finite (eigh : mat4 -> result (vec4 * mat4)) : Prop :=
  forall A vals vecs,
    mat4_Forall finite A -> eigh A = Ok (vals, vecs) ->
    vec4_Forall finite vals /\ mat4_Forall finite vecs.

(** [a[i][j]], when it exists. *)
Definition get2 (a : matrix) (i j : nat) : option fl :=
  match nth_error a i with
  | Some row => nth_error row j
  | None => None
  end.

(** Whether the cell [(i, j)] exists in an array with these row lengths. *)
Definition cell_in_dims (d : list nat) (i j : nat) : bool :=
  match nth_error d i with
  | Some n => (j <? n)%nat
  | None => false
  end.

(** What a list of writes leaves in cell [(i, j)] when it held [old]. *)
Fixpoint writes_get (ws : list cell) (i j : nat) (old : option fl) : option fl :=
  match ws with
  | [] => old
  | (i', j', x) :: ws' =>
      writes_get ws' i j (if ((i =? i') && (j =? j'))%nat then Some x else old)
  end.

(** The cells that one round of the double loop of [analytical_solver]
    is going to write; they do not depend on the buffer. *)
Definition analytical_plan (eigh : mat4 -> result (vec4 * mat4)) (m : matrix)
           (rp : list nat * list nat) (self : Rotation) : result (list cell) :=
  let '(ri, pi) := rp in
  let* V := analytical_block eigh self m ri pi in
  if broadcastable (length pi, length ri) (length ri, length pi)
  then Ok (cell_writes ri pi V (length pi, length ri))
  else Raise ValueError.

Definition vec3_Forall2 (R : fl -> fl -> Prop) (u v : vec3) : Prop :=
  let '(a1, a2, a3) := u in
  let '(b1, b2, b3) := v in
  R a1 b1 /\ R a2 b2 /\ R a3 b3.

Definition mat3_Forall2 (R : fl -> fl -> Prop) (m n : mat3) : Prop :=
  let '(r1, r2, r3) := m in
  let '(s1, s2, s3) := n in
  vec3_Forall2 R r1 s1 /\ vec3_Forall2 R r2 s2 /\ vec3_Forall2 R r3 s3.

(** [c * np.eye(4)] *)
Definition mat4_scalar (c : fl) : mat4 :=
  ((c, f0, f0, f0), (f0, c, f0, f0), (f0, f0, c, f0), (f0, f0, f0, c)).

(** The cells outside every block: [(i, j)] is not in the product of a
    reactant group and a product group. *)
Definition outside_blocks (M : Ordering) (i j : nat) : Prop :=
  forall ri pi,
    In ri (reactant_subset_indices M) -> In pi (product_subset_indices M) ->
    ~ (In i ri /\ In j pi).

(** No key occurs twice. *)
Fixpoint unique_keys {V : Type} (d : list (key * V)) : bool :=
  match d with
  | [] => true
  | (k, _) :: d' =>
      match dict_get d' k with Some _ => false | None => unique_keys d' end
  end.

(** No entry has the entry of its reversed key beside it, unless the key
    is its own reverse. *)
Definition one_way {V : Type} (d : list (key * V)) : bool :=
  forallb (fun '(k, _) =>
             key_eqb (reversed k) k ||
             match dict_get d (reversed k) with Some _ => false | None => true end)
          d.

(** The four limits are finite and in ascending order. *)
Definition ascending (l : limits) : Prop :=
  let '(a, b, c, e) := l in
  exists qa qb qc qe,
    a = Fin qa /\ b = Fin qb /\ c = Fin qc /\ e = Fin qe /\
    0 < qa /\ qa <= qb /\ qb <= qc /\ qc <= qe.

Definition ascendingb (l : limits) : bool :=
  match l with
  | (Fin qa, Fin qb, Fin qc, Fin qe) =>
      negb (Qle_bool qa 0) && Qle_bool qa qb && Qle_bool qb qc && Qle_bool qc qe
  | _ => false
  end.

(** [A.T] equals [-A], entry by entry. *)
Definition mat4_antisymmetric (A : mat4) : Prop :=
  mat4_Forall2 fl_eq (mat4_T A) (mat4_map fl_opp A).




(** ** Example inputs *)

Definition coord (a b c : Q) : vec3 := (Fin a, Fin b, Fin c).

Definition zero_matrix (rows cols : nat) : matrix := zeros (rows, cols).

(** One rigid group on each side, two atoms each, and product = reactant. *)
Definition example_single : Ordering :=
  mkOrdering [coord 0 0 0; coord 1 0 0] [coord 0 0 0; coord 1 0 0]
             1 1 [[0; 1]%nat] [[0; 1]%nat] (zero_matrix 2 2).

(** Two rigid groups on each side, two atoms each. *)
Definition example_multi : Ordering :=
  mkOrdering [coord 0 0 0; coord 1 0 0; coord 5 0 0; coord 6 0 0]
             [coord 0 0 0; coord 1 0 0; coord 5 0 0; coord 6 0 0]
             2 2 [[0; 1]; [2; 3]]%nat [[0; 1]; [2; 3]]%nat (zero_matrix 4 4).

(** An eigen-solver for the matrices whose last basis vector is an
    eigenvector of the largest eigenvalue. *)
Definition eigh_last_axis (A : mat4) : result (vec4 * mat4) :=
  let '(_, _, _, (_, _, _, a44)) := A in
  Ok ((f0, f0, f0, a44),
      ((f1, f0, f0, f0), (f0, f1, f0, f0), (f0, f0, f1, f0), (f0, f0, f0, f1))).

(** An optimizer step that stops at once. *)
Definition slsqp_stop : list fl -> fl -> list fl -> list bound -> option (list fl) :=
  fun _ _ _ _ => None.

Definition rotation_of (M : Ordering) : Rotation :=
  match Rotation_init M with
  | Ok self => self
  | Raise _ => mkRotation M [] [] (set_solver M) [] [] [] [] [] []
  end.

(** A state of three transforms in which the rotation part of transform 0
    is the zero quaternion (squared norm 0, not 1) and the other two
    transforms are the identity. *)
Definition state_bad_first_rotation : list fl :=
  flatten_q [((f0, f0, f0, f0), (f0, f0, f0, f0));
             identity_dualquat; identity_dualquat].

(** The identity correspondence of two atoms. *)
Definition match_identity2 : matrix := [[f1; f0]; [f0; f1]].

(** A match matrix of ones for four atoms on each side. *)
Definition match_ones4 : matrix := repeat (repeat f1 4) 4.

(** Two atoms on each side; one reactant group of one atom and one product
    group of two atoms. *)
Definition example_uneven : Ordering :=
  mkOrdering [coord 0 0 0; coord 1 0 0] [coord 0 0 0; coord 1 0 0]
             1 1 [[0%nat]] [[0; 1]%nat] (zero_matrix 2 2).

Definition match_first_pair : matrix := [[f1; f0]; [f0; f0]].

(** One rigid group of reactants and no product group. *)
Definition example_no_products : Ordering :=
  mkOrdering [coord 0 0 0; coord 1 0 0] [coord 0 0 0; coord 1 0 0]
             1 0 [[0; 1]%nat] [] (zero_matrix 2 2).

(** Two atoms per side: the first pair agrees in both types, the second
    atom of the products is an oxygen where the reactants have a carbon. *)
Definition example_types : AtomTypes :=
  mkAtomTypes ["C.3"; "C.2"]%string ["C.3"; "O.2"]%string
              ["C"; "C"]%string ["C"; "O"]%string.

(** One atom on each side, far from the origin on opposite sides. *)
Definition example_overflow : Ordering :=
  mkOrdering [coord 1e154 0 0] [coord (-1e154) 0 0]
             1 1 [[0%nat]] [[0%nat]] (zero_matrix 1 1).




(** * Properties *)

Lemma fl_is_Fin (a q : Q) : a == q -> fl_is (Fin a) q.
Proof. intros H. exists a. split; [reflexivity | exact H]. Qed.

(** C4: for a unit quaternion [r], the rotation block that [transform]
    returns, [makeW(r).T.dot(makeQ(r))[:3,:3]], is a proper rotation matrix:
    orthogonal (both products with its transpose are the identity) and of
    determinant [+1]. *)
Theorem transform_unit_quaternion_proper_rotation
  (r1 r2 r3 r4 : Q) (s : vec4)
  (Hunit : r1 * r1 + r2 * r2 + r3 * r3 + r4 * r4 == 1) :
  proper_rotation (fst (transform (quat r1 r2 r3 r4) s)).
Proof.
  unfold proper_rotation, transform, quat. cbn.
  repeat split; apply fl_is_Fin; nsatz.
Qed.

(** ** What a call may change *)

Lemma odc_refl (self : Rotation) : only_distances_changed self self.
Proof. destruct self; reflexivity. Qed.

Lemma odc_set (self : Rotation) (d : matrix) :
  only_distances_changed self (set_squared_distances self d).
Proof. destruct self; reflexivity. Qed.

Lemma odc_trans (a b c : Rotation) :
  only_distances_changed a b -> only_distances_changed b c ->
  only_distances_changed a c.
Proof.
  unfold only_distances_changed. intros Hab Hbc.
  rewrite Hbc, Hab. destruct a; reflexivity.
Qed.

Lemma odc_q (a b : Rotation) : only_distances_changed a b -> self_q b = self_q a.
Proof. intros H. rewrite H. destruct a; reflexivity. Qed.

Lemma odc_score (a b : Rotation) :
  only_distances_changed a b -> self_score b = self_score a.
Proof. intros H. rewrite H. destruct a; reflexivity. Qed.

Lemma odc_M (a b : Rotation) : only_distances_changed a b -> self_M b = self_M a.
Proof. intros H. rewrite H. destruct a; reflexivity. Qed.

Lemma for_each_odc {A : Type} (body : A -> Rotation -> result unit * Rotation)
  (Hbody : forall a s, only_distances_changed s (snd (body a s)))
  (l : list A) :
  forall s, only_distances_changed s (snd (for_each l body s)).
Proof.
  induction l as [|a l IH]; intros s; cbn [for_each].
  - apply odc_refl.
  - specialize (Hbody a s). destruct (body a s) as [[u|e] s']; cbn [snd] in *.
    + eapply odc_trans; [exact Hbody | apply IH].
    + exact Hbody.
Qed.

Lemma analytical_step_odc eigh m ri pi self :
  only_distances_changed self (snd (analytical_step eigh m ri pi self)).
Proof.
  unfold analytical_step.
  destruct (analytical_block eigh self m ri pi) as [V|e]; cbn [snd].
  - destruct (setitem_ix _ _ _ _ _); cbn [snd]; [apply odc_set | apply odc_refl].
  - apply odc_refl.
Qed.

Lemma analytical_solver_odc eigh self m :
  only_distances_changed self (snd (analytical_solver eigh self m)).
Proof.
  unfold analytical_solver.
  destruct (getitem _ 0); cbn [snd]; [|apply odc_refl].
  destruct (take _ _); cbn [snd]; [|apply odc_refl].
  match goal with |- context [for_each ?l ?b ?s] =>
    pose proof (for_each_odc b) as H; specialize (fun Hb => H Hb l s);
    destruct (for_each l b s) as [[u|e] s'] end; cbn [snd] in *;
  apply H; intros ? ?; apply for_each_odc; intros; apply analytical_step_odc.
Qed.

Lemma objective_inner_odc M rot trans j X pi g self :
  only_distances_changed self (snd (objective_inner M rot trans j X pi g self)).
Proof.
  unfold objective_inner.
  match goal with |- context [match ?r with Ok _ => _ | Raise _ => _ end] =>
    destruct r end; cbn [snd]; [apply odc_set | apply odc_refl].
Qed.

Lemma objective_outer_odc M rot trans ref Y0 jp self :
  only_distances_changed self (snd (objective_outer M rot trans ref Y0 jp self)).
Proof.
  unfold objective_outer. destruct jp as [j pi].
  destruct (take (self_X self) pi) as [X|e]; cbn [snd]; [|apply odc_refl].
  match goal with |- context [match ?r with Ok _ => _ | Raise _ => _ end] =>
    destruct r as [d|e] end; cbn [snd]; [|apply odc_refl].
  eapply odc_trans; [apply odc_set|].
  assert (HM : self_M (set_squared_distances self d) = self_M self)
    by (destruct self; reflexivity).
  rewrite <- HM.
  apply for_each_odc. intros; apply objective_inner_odc.
Qed.

Lemma objective_odc x m self :
  only_distances_changed self (snd (objective x m self)).
Proof.
  unfold objective.
  match goal with |- context [match ?r with Ok _ => _ | Raise _ => _ end] =>
    destruct r as [[[[rot trans] ref] Y0]|e] end; cbn [snd]; [|apply odc_refl].
  match goal with |- context [for_each ?l ?b ?s] =>
    pose proof (for_each_odc b (fun a s => objective_outer_odc _ _ _ _ _ a s) l s) as H;
    destruct (for_each l b s) as [[u|e] s'] end; cbn [snd] in *; [|exact H].
  destruct (getattr s' "match_matrix") as [[]|]; cbn [snd]; exact H.
Qed.

Lemma minimize_odc step maxiter sc cons bounds m :
  forall x self,
    only_distances_changed self
      (snd (minimize step maxiter sc cons bounds m x self)).
Proof.
  induction maxiter as [|n IH]; intros x self; cbn [minimize];
    (destruct (eval_constraints sc cons x); cbn [snd]; [|apply odc_refl]);
    pose proof (objective_odc x m self) as H;
    (destruct (objective x m self) as [[fx|e] s']; cbn [snd] in *; [|exact H]).
  - exact H.
  - destruct (step x fx a bounds); cbn [snd]; [|exact H].
    eapply odc_trans; [exact H | apply IH].
Qed.

Lemma getattr_update_quaternions (self : Rotation) :
  getattr self "update_quaternions" = Raise AttributeError.
Proof. reflexivity. Qed.

Lemma getattr_update_quarternions (self : Rotation) :
  getattr self "update_quarternions" = Ok (attr_method "update_quarternions").
Proof. reflexivity. Qed.

Lemma getattr_match_matrix (self : Rotation) :
  getattr self "match_matrix" = Raise AttributeError.
Proof. reflexivity. Qed.

(** [numerical_solver] never returns: whatever the optimizer does, the call
    ends in an exception, and only the distance buffer may have changed. *)
Lemma numerical_solver_raises step self m :
  exists e self',
    numerical_solver step self m = (Raise e, self') /\
    only_distances_changed self self'.
Proof.
  unfold numerical_solver.
  match goal with |- context [match ?r with Ok _ => _ | Raise _ => _ end] =>
    destruct r as [[[sc cons] bounds]|e] end.
  2:{ exists e, self. split; [reflexivity | apply odc_refl]. }
  match goal with |- context [minimize ?s ?n ?c ?k ?b ?mm ?x ?slf] =>
    pose proof (minimize_odc s n c k b mm x slf) as H;
    destruct (minimize s n c k b mm x slf) as [[ox|e] s'] end; cbn [snd] in H.
  - rewrite getattr_update_quaternions. exists AttributeError, s'. split; auto.
  - exists e, s'. split; auto.
Qed.

Lemma numerical_solver_odc step self m :
  only_distances_changed self (snd (numerical_solver step self m)).
Proof.
  destruct (numerical_solver_raises step self m) as (e & s' & Heq & H).
  rewrite Heq. exact H.
Qed.

Lemma Score_odc eigh step self m :
  only_distances_changed self (snd (Score eigh step self m)).
Proof.
  unfold Score. destruct (self_score self);
    [apply analytical_solver_odc | apply numerical_solver_odc].
Qed.

(** C9: a scorer built by [__init__] dispatches to the single-body
    analytical solver if and only if the reactant side or the product side
    has exactly one rigid group ([num_reactants == 1 or num_products == 1]),
    and to the multi-body numerical solver otherwise; the choice is made at
    construction and a call of [Score] does not change it. *)
Theorem Score_dispatch_by_group_count
  (eigh : mat4 -> result (vec4 * mat4))
  (step : list fl -> fl -> list fl -> list bound -> option (list fl))
  (M : Ordering) (self : Rotation) (m : matrix)
  (Hinit : Rotation_init M = Ok self) :
  (self_score self = analytical <->
     (num_reactants M = 1 \/ num_products M = 1)%Z) /\
  (self_score self = numerical <->
     ~ (num_reactants M = 1 \/ num_products M = 1)%Z) /\
  (self_score self = analytical ->
     Score eigh step self m = analytical_solver eigh self m) /\
  (self_score self = numerical ->
     Score eigh step self m = numerical_solver step self m) /\
  self_score (snd (Score eigh step self m)) = self_score self.
Proof.
  assert (Hs : self_score self = set_solver M).
  { unfold Rotation_init in Hinit.
    destruct (initialize_quaternions M) as [q|e]; cbn [bind] in Hinit; [|discriminate].
    injection Hinit as <-. reflexivity. }
  assert (Hset : set_solver M = analytical <->
                 (num_reactants M = 1 \/ num_products M = 1)%Z).
  { unfold set_solver.
    destruct (num_reactants M =? 1)%Z eqn:HN; destruct (num_products M =? 1)%Z eqn:HP;
      cbn [orb]; rewrite ?Z.eqb_eq, ?Z.eqb_neq in *; split; intros H;
      try reflexivity; try discriminate; try lia. }
  repeat split.
  - rewrite Hs. apply Hset.
  - rewrite Hs. apply Hset.
  - rewrite Hs. intros Hnum Hor. apply Hset in Hor. congruence.
  - rewrite Hs. intros Hnot. destruct (set_solver M); [|reflexivity].
    exfalso. apply Hnot, Hset. reflexivity.
  - intros Ha. unfold Score. rewrite Ha. reflexivity.
  - intros Hn. unfold Score. rewrite Hn. reflexivity.
  - apply odc_score, Score_odc.
Qed.

Lemma Score_dispatch_by_group_count_witness :
  exists self,
    Rotation_init example_single = Ok self /\
    Score eigh_last_axis slsqp_stop self (zero_matrix 2 2)
    = analytical_solver eigh_last_axis self (zero_matrix 2 2).
Proof.
  eexists. split; [reflexivity|].
  refine (proj1 (proj2 (proj2
    (Score_dispatch_by_group_count eigh_last_axis slsqp_stop example_single _
       (zero_matrix 2 2) eq_refl))) _).
  reflexivity.
Defined.

(** C10: for [N] reactant groups and [M] product groups (with
    [N + M - 1 >= 0]) the scorer is built with exactly [N + M - 1]
    dual-quaternion transforms, each the identity: dual part
    [s = (0,0,0,0)] and rotation part [r = (0,0,0,1)]. *)
Theorem initial_transforms_identity (M : Ordering)
  (Hgroups : (0 <= num_reactants M + num_products M - 1)%Z) :
  exists self,
    Rotation_init M = Ok self /\
    Z.of_nat (length (self_q self)) = (num_reactants M + num_products M - 1)%Z /\
    Forall (fun d => d = ((Fin 0, Fin 0, Fin 0, Fin 0), (Fin 0, Fin 0, Fin 0, Fin 1)))
           (self_q self).
Proof.
  unfold Rotation_init, initialize_quaternions.
  destruct (num_reactants M + num_products M - 1 <? 0)%Z eqn:Hneg;
    [apply Z.ltb_lt in Hneg; lia|].
  cbn [bind interaction_arrays]. eexists. split; [reflexivity|].
  cbn [self_q]. split.
  - rewrite repeat_length. lia.
  - apply Forall_forall. intros d Hd. apply repeat_spec in Hd. exact Hd.
Qed.

Lemma initial_transforms_identity_witness :
  (0 <= num_reactants example_multi + num_products example_multi - 1)%Z /\
  exists self,
    Rotation_init example_multi = Ok self /\
    Z.of_nat (length (self_q self)) = 3%Z /\
    Forall (fun d => d = ((Fin 0, Fin 0, Fin 0, Fin 0), (Fin 0, Fin 0, Fin 0, Fin 1)))
           (self_q self).
Proof.
  split; [cbn; lia|].
  apply (initial_transforms_identity example_multi). cbn; lia.
Defined.

Lemma getitem_raise {A : Type} (l : list A) (i : nat) (e : exn) :
  getitem l i = Raise e -> e = IndexError.
Proof. unfold getitem. destruct (nth_error l i); congruence. Qed.

Lemma getitemZ_raise {A : Type} (l : list A) (k : Z) (e : exn) :
  getitemZ l k = Raise e -> e = IndexError.
Proof.
  unfold getitemZ, norm_index.
  repeat match goal with |- context [if ?c then _ else _] => destruct c end;
    cbn [bind]; try congruence; apply getitem_raise.
Qed.

Lemma objective_inner_raises M rot trans j X pi g self :
  exists e,
    objective_inner M rot trans j X pi g self = (Raise e, self) /\
    (length g <> 2%nat -> e = ValueError) /\
    (length g = 2%nat -> e = IndexError).
Proof.
  unfold objective_inner.
  destruct g as [|a [|b [|c g]]]; cbn [unpack_pair bind];
    try (exists ValueError; repeat split; cbn; intros; congruence || lia).
  exists IndexError. split; [|split; [cbn; intros; congruence | reflexivity]].
  unfold pick.
  destruct (getitem (self_X self) b) as [v|e] eqn:Hv; cbn [bind];
    [|apply getitem_raise in Hv; subst; reflexivity].
  destruct (getitemZ trans _) as [t|e] eqn:Ht; cbn [bind];
    [|apply getitemZ_raise in Ht; subst; reflexivity].
  destruct (getitemZ rot _) as [r|e] eqn:Hr; cbn [bind];
    [|apply getitemZ_raise in Hr; subst; reflexivity].
  reflexivity.
Qed.

Lemma objective_outer_raises M rot trans ref Y0 jp self :
  tl (reactant_subset_indices (self_M self)) <> [] ->
  exists e self', objective_outer M rot trans ref Y0 jp self = (Raise e, self').
Proof.
  intros Hne. unfold objective_outer. destruct jp as [j pi].
  destruct (take (self_X self) pi) as [X|e]; [|eauto].
  match goal with |- context [match ?r with Ok _ => _ | Raise _ => _ end] =>
    destruct r as [d|e] end; [|eauto].
  assert (HM : self_M (set_squared_distances self d) = self_M self)
    by (destruct self; reflexivity).
  destruct (tl (reactant_subset_indices (self_M self))) as [|g gs]; [congruence|].
  cbn [for_each].
  destruct (objective_inner_raises M rot trans j X pi g (set_squared_distances self d))
    as (e & -> & _). eauto.
Qed.

Lemma objective_raises x m self :
  (2 <= length (reactant_subset_indices (self_M self)))%nat ->
  (1 <= length (product_subset_indices (self_M self)))%nat ->
  exists e self', objective x m self = (Raise e, self').
Proof.
  intros Hr Hp. unfold objective.
  match goal with |- context [match ?r with Ok _ => _ | Raise _ => _ end] =>
    destruct r as [[[[rot trans] ref] Y0]|e] end; [|eauto].
  destruct (product_subset_indices (self_M self)) as [|p ps]; [cbn in Hp; lia|].
  unfold enumerate. cbn [length seq combine for_each].
  destruct (objective_outer_raises (num_products (self_M self)) rot trans ref Y0
              (0%nat, p) self) as (e & s' & ->); [|eauto].
  destruct (reactant_subset_indices (self_M self)) as [|g [|g' gs]];
    cbn in Hr; try lia. cbn. discriminate.
Qed.

(** C3: whenever both sides have more than one rigid group,
    [numerical_solver] raises before it returns a matrix or stores a new
    transform estimate ([self.q] is unchanged): the objective raises at
    every point, because the loop over [reactant_subset_indices[1:]] raises
    on every element (it unpacks the element as a pair); the attribute
    [match_matrix] that the return statement of the objective reads does
    not exist on a [Rotation]; and [update_quaternions] does not exist
    either, the method being [update_quarternions]. *)
Theorem numerical_solver_never_returns
  (step : list fl -> fl -> list fl -> list bound -> option (list fl))
  (self : Rotation) (m : matrix)
  (Hreactants : (2 <= length (reactant_subset_indices (self_M self)))%nat)
  (Hproducts : (2 <= length (product_subset_indices (self_M self)))%nat) :
  (exists e self',
      numerical_solver step self m = (Raise e, self') /\
      self_q self' = self_q self) /\
  (forall flat_q, exists e self', objective flat_q m self = (Raise e, self')) /\
  (forall rot trans j X product_indices g,
      In g (tl (reactant_subset_indices (self_M self))) ->
      exists e,
        objective_inner (num_products (self_M self)) rot trans j X product_indices g self
        = (Raise e, self)) /\
  getattr self "match_matrix" = Raise AttributeError /\
  getattr self "update_quaternions" = Raise AttributeError /\
  getattr self "update_quarternions" = Ok (attr_method "update_quarternions").
Proof.
  split; [|split; [|split; [|repeat split]]].
  - destruct (numerical_solver_raises step self m) as (e & s' & Heq & Hodc).
    exists e, s'. split; [exact Heq | apply odc_q; exact Hodc].
  - intros x. apply objective_raises; lia.
  - intros rot trans j X pi g _.
    destruct (objective_inner_raises (num_products (self_M self)) rot trans j X pi g self)
      as (e & He & _). eauto.
Qed.

Lemma set_nth_app {A : Type} (l1 l2 : list A) (y x : A) :
  set_nth (l1 ++ y :: l2) (length l1) x = Ok (l1 ++ x :: l2).
Proof.
  induction l1 as [|a l1 IH]; cbn [set_nth app length]; [reflexivity|].
  rewrite IH. reflexivity.
Qed.

Lemma getitem_app {A : Type} (l1 l2 : list A) (y : A) :
  getitem (l1 ++ y :: l2) (length l1) = Ok y.
Proof.
  unfold getitem. rewrite nth_error_app2, Nat.sub_diag by lia. reflexivity.
Qed.

Lemma set_nth_app1 {A : Type} (l1 l2 : list A) (y0 y x : A) :
  set_nth (l1 ++ y0 :: y :: l2) (length l1 + 1) x = Ok (l1 ++ y0 :: x :: l2).
Proof.
  induction l1 as [|a l1 IH]; cbn [set_nth app length Nat.add]; [reflexivity|].
  rewrite IH. reflexivity.
Qed.

Lemma getitem_app1 {A : Type} (l1 l2 : list A) (y0 y : A) :
  getitem (l1 ++ y0 :: y :: l2) (length l1 + 1) = Ok y.
Proof.
  unfold getitem. rewrite nth_error_app2 by lia.
  replace (length l1 + 1 - length l1)%nat with 1%nat by lia. reflexivity.
Qed.

Lemma constraints_loop_spec (len : nat) :
  forall (a : nat) (sc : scope) (done : list (option constraint)),
    length done = (2 * a)%nat ->
    constraints_loop (seq a len) sc (done ++ repeat None (2 * len))
    = Ok (fold_left bind_j (seq a len) sc,
          done ++ flat_map (fun _ => [con_rr; con_rs]) (seq a len)).
Proof.
  induction len as [|len IH]; intros a sc done Hdone.
  - cbn. rewrite !app_nil_r. reflexivity.
  - replace (2 * S len)%nat with (S (S (2 * len))) by lia.
    cbn [seq constraints_loop repeat fold_left flat_map].
    rewrite <- Hdone.
    rewrite set_nth_app. cbn [bind].
    rewrite set_nth_app1. cbn [bind].
    unfold set_jac.
    rewrite getitem_app. cbn [bind con_type con_fun].
    rewrite set_nth_app. cbn [bind].
    rewrite getitem_app1. cbn [bind con_type con_fun].
    rewrite set_nth_app1. cbn [bind].
    specialize (IH (S a) (bind_j sc a) (done ++ [con_rr; con_rs])).
    rewrite <- app_assoc in IH. cbn [app] in IH.
    unfold con_rr, con_rs in *. rewrite IH.
    + rewrite <- app_assoc. reflexivity.
    + rewrite length_app. cbn. lia.
Qed.

Lemma bounds_loop_spec (js : list nat) :
  forall (sc : scope) (acc : list bound),
    bounds_loop js sc acc
    = (fold_left bind_j js sc, acc ++ flat_map (fun _ => bound_block) js).
Proof.
  induction js as [|j js IH]; intros sc acc; cbn [bounds_loop fold_left flat_map].
  - rewrite app_nil_r. reflexivity.
  - rewrite IH. unfold bound_block. rewrite <- !app_assoc. reflexivity.
Qed.

Lemma bind_j_last (len a : nat) (sc : scope) :
  fold_left bind_j (seq a (S len)) sc
  = mkScope (sc_N sc) (sc_M sc) (Some (a + len)%nat).
Proof.
  revert a sc. induction len as [|len IH]; intros a sc.
  - cbn. unfold bind_j. rewrite Nat.add_0_r. reflexivity.
  - change (seq a (S (S len))) with (a :: seq (S a) (S len)).
    cbn [fold_left]. rewrite IH. cbn. f_equal. f_equal. lia.
Qed.

(** The element at offset [i] of block [k] of a list made of blocks of
    equal length. *)
Lemma nth_error_flat_map_block {A B : Type} (f : A -> list B) (n : nat)
  (Hlen : forall a, length (f a) = n) (l : list A) :
  forall (k i : nat) (a : A),
    nth_error l k = Some a -> (i < n)%nat ->
    nth_error (flat_map f l) (n * k + i) = nth_error (f a) i.
Proof.
  induction l as [|b l IH]; intros k i a Hk Hi.
  - destruct k; discriminate.
  - cbn [flat_map]. destruct k as [|k]; cbn [nth_error] in Hk.
    + injection Hk as ->. rewrite Nat.mul_0_r, Nat.add_0_l.
      apply nth_error_app1. rewrite Hlen. exact Hi.
    + rewrite nth_error_app2 by (rewrite Hlen; lia).
      rewrite Hlen. replace (n * S k + i - n)%nat with (n * k + i)%nat by lia.
      apply IH; assumption.
Qed.

Lemma length_flat_map_block {A B : Type} (f : A -> list B) (n : nat)
  (Hlen : forall a, length (f a) = n) (l : list A) :
  length (flat_map f l) = (n * length l)%nat.
Proof.
  induction l as [|b l IH]; cbn [flat_map length]; [lia|].
  rewrite length_app, Hlen, IH. lia.
Qed.

Lemma dualquat_list_length (d : dualquat) : length (dualquat_list d) = 8%nat.
Proof. destruct d as [[[[a b] c] e] [[[f g] h] i]]. reflexivity. Qed.

Lemma vec4_list_length (v : vec4) : length (vec4_list v) = 4%nat.
Proof. destruct v as [[[a b] c] d]. reflexivity. Qed.

(** What [solver_setup] returns when there is at least one transform. *)
Lemma solver_setup_spec (N M : Z) (n : nat) :
  Z.to_nat (M + N - 1) = S n ->
  solver_setup N M
  = Ok (mkScope N M (Some n),
        flat_map (fun _ => [con_rr; con_rs]) (seq 0 (S n)),
        flat_map (fun _ => bound_block) (seq 0 (S n))).
Proof.
  intros Hn. unfold solver_setup, zeros_n, range.
  destruct (2 * (N + M - 1) <? 0)%Z eqn:Hneg; [apply Z.ltb_lt in Hneg; lia|].
  cbn [bind]. rewrite Hn.
  replace (Z.to_nat (2 * (N + M - 1))) with (2 * S n)%nat by lia.
  pose proof (constraints_loop_spec (S n) 0 (mkScope N M None) [] eq_refl) as Hc.
  cbn [app] in Hc. rewrite Hc. cbn [bind].
  rewrite bounds_loop_spec. cbn [app].
  rewrite !bind_j_last. reflexivity.
Qed.

(** Every constraint function of the finished [cons], whatever its
    position, reads the last transform: position [2k] computes the
    unit-norm residual of transform [n] and position [2k+1] its
    orthogonality residual, for each of the [n+1] transforms [k]. *)
Lemma constraints_close_over_last_j (N M : Z) (n : nat)
  (Hn : Z.to_nat (M + N - 1) = S n) :
  exists sc cons bounds,
    solver_setup N M = Ok (sc, cons, bounds) /\
    length cons = (2 * S n)%nat /\
    forall k, (k <= n)%nat ->
      exists c_rr c_rs,
        nth_error cons (2 * k) = Some (Some c_rr) /\
        nth_error cons (2 * k + 1) = Some (Some c_rs) /\
        forall x,
          call_lambda sc (con_fun c_rr) x = spec_unit_norm_residual x n /\
          call_lambda sc (con_fun c_rs) x = spec_orthogonality_residual x n.
Proof.
  rewrite (solver_setup_spec N M n Hn).
  eexists _, _, _. split; [reflexivity|]. split.
  - rewrite (length_flat_map_block (fun _ : nat => [con_rr; con_rs]) 2 (fun _ => eq_refl)). rewrite length_seq. reflexivity.
  - intros k Hk. eexists _, _. split; [|split].
    + rewrite <- (Nat.add_0_r (2 * k)).
      rewrite (nth_error_flat_map_block (fun _ : nat => [con_rr; con_rs]) 2 (fun _ => eq_refl) _ k 0 k); [reflexivity| |lia].
      rewrite nth_error_seq. destruct (Nat.ltb_spec k (S n)); [reflexivity|lia].
    + rewrite (nth_error_flat_map_block (fun _ : nat => [con_rr; con_rs]) 2 (fun _ => eq_refl) _ k 1 k); [reflexivity| |lia].
      rewrite nth_error_seq. destruct (Nat.ltb_spec k (S n)); [reflexivity|lia].
    + intros x. split; reflexivity.
Qed.

(** C5 as stated fails: for two groups on each side the bound of slot 0,
    a dual component of transform 0, is [(None, None)], so the dual
    components are not boxed. *)
Lemma bounds_dual_boxed_rotation_free_fails :
  exists sc cons bounds,
    solver_setup 2 2 = Ok (sc, cons, bounds) /\
    ~ spec_bounds_dual_boxed_rotation_free bounds 3.
Proof.
  eexists _, _, _. split; [reflexivity|].
  intros H. destruct (H 0%nat 0%nat) as [[lo [hi Hlo]] _]; [lia | lia |].
  cbn in Hlo. discriminate.
Qed.

(** C5, amended: the bounds handed to the optimizer box the rotation
    components [r_k] of every transform in [[-1, 1]] and leave its dual
    components [s_k] unbounded.  Slot [8k+i] of the flat state holds
    component [i] of [s_k] and its bound is [(None, None)]; slot [8k+4+i]
    holds component [i] of [r_k] and its bound is [(-1, 1)]; there are as
    many bounds as state variables. *)
Theorem bounds_box_rotation_not_dual (N M : Z) (q : list dualquat)
  (k i : nat) (s r : vec4)
  (Hlen : length q = Z.to_nat (N + M - 1))
  (Hk : nth_error q k = Some (s, r))
  (Hi : (i < 4)%nat) :
  exists sc cons bounds,
    solver_setup N M = Ok (sc, cons, bounds) /\
    length bounds = length (flatten_q q) /\
    nth_error (flatten_q q) (8 * k + i) = nth_error (vec4_list s) i /\
    nth_error bounds (8 * k + i) = Some (None, None) /\
    nth_error (flatten_q q) (8 * k + 4 + i) = nth_error (vec4_list r) i /\
    nth_error bounds (8 * k + 4 + i) = Some (Some (-1)%Z, Some 1%Z).
Proof.
  assert (Hkl : (k < length q)%nat) by (apply nth_error_Some; congruence).
  destruct (Z.to_nat (M + N - 1)) as [|n] eqn:Hn;
    [replace (M + N - 1)%Z with (N + M - 1)%Z in Hn by lia; lia|].
  assert (Hq : length q = S n)
    by (replace (M + N - 1)%Z with (N + M - 1)%Z in Hn by lia; lia).
  rewrite (solver_setup_spec N M n Hn).
  eexists _, _, _. split; [reflexivity|].
  assert (Hseq : nth_error (seq 0 (S n)) k = Some k).
  { rewrite nth_error_seq. destruct (Nat.ltb_spec k (S n)); [reflexivity|lia]. }
  assert (Hb : forall o, (o < 8)%nat ->
            nth_error (flat_map (fun _ : nat => bound_block) (seq 0 (S n))) (8 * k + o)
            = nth_error bound_block o).
  { intros o Ho.
    apply (nth_error_flat_map_block (fun _ : nat => bound_block) 8 (fun _ => eq_refl)
             _ k o k Hseq Ho). }
  assert (Hx : forall o, (o < 8)%nat ->
            nth_error (flatten_q q) (8 * k + o) = nth_error (dualquat_list (s, r)) o).
  { intros o Ho.
    apply (nth_error_flat_map_block dualquat_list 8 dualquat_list_length q k o _ Hk Ho). }
  pose proof (vec4_list_length s) as Hs.
  repeat split.
  - rewrite (length_flat_map_block (fun _ : nat => bound_block) 8 (fun _ => eq_refl)).
    unfold flatten_q.
    rewrite (length_flat_map_block dualquat_list 8 dualquat_list_length).
    rewrite length_seq. lia.
  - rewrite Hx by lia. unfold dualquat_list. cbn [fst snd].
    apply nth_error_app1. lia.
  - rewrite Hb by lia.
    do 4 (destruct i as [|i]; [reflexivity|]). lia.
  - rewrite <- Nat.add_assoc, Hx by lia. unfold dualquat_list. cbn [fst snd].
    rewrite nth_error_app2 by lia. f_equal. lia.
  - rewrite <- Nat.add_assoc, Hb by lia.
    do 4 (destruct i as [|i]; [reflexivity|]). lia.
Qed.

Lemma bounds_box_rotation_not_dual_witness :
  exists sc cons bounds,
    solver_setup 2 2 = Ok (sc, cons, bounds) /\
    length bounds = length (flatten_q (self_q (rotation_of example_multi))) /\
    nth_error (flatten_q (self_q (rotation_of example_multi))) (8 * 1 + 3)
    = Some (Fin 0) /\
    nth_error bounds (8 * 1 + 3) = Some (None, None) /\
    nth_error (flatten_q (self_q (rotation_of example_multi))) (8 * 1 + 4 + 3)
    = Some (Fin 1) /\
    nth_error bounds (8 * 1 + 4 + 3) = Some (Some (-1)%Z, Some 1%Z).
Proof.
  exact (bounds_box_rotation_not_dual 2 2 (self_q (rotation_of example_multi))
           1 3 (f0, f0, f0, f0) (f0, f0, f0, f1) eq_refl eq_refl
           (Nat.lt_succ_diag_r 3)).
Defined.

(** C2: the code at the failing input.  With two groups on each side
    there are 2(N+M-1) = 6 constraints, but all of them read the last
    transform: on a state whose transform 0 has the zero quaternion as
    rotation part, every constraint function evaluates to 0 (satisfied),
    although the unit-norm residual of transform 0 is -1. *)
Theorem constraints_read_last_transform_only :
  exists sc cons bounds,
    solver_setup 2 2 = Ok (sc, cons, bounds) /\
    length cons = 6%nat /\
    eval_constraints sc cons state_bad_first_rotation
    = Ok [Fin 0; Fin 0; Fin 0; Fin 0; Fin 0; Fin 0] /\
    spec_unit_norm_residual state_bad_first_rotation 0 = Ok (Scalar (Fin (-1))) /\
    spec_unit_norm_residual state_bad_first_rotation 2 = Ok (Scalar (Fin 0)).
Proof.
  eexists _, _, _. split; [reflexivity|].
  repeat split.
Qed.

Lemma numerical_solver_never_returns_witness :
  (2 <= length (reactant_subset_indices (self_M (rotation_of example_multi))))%nat /\
  (2 <= length (product_subset_indices (self_M (rotation_of example_multi))))%nat /\
  exists e self',
    numerical_solver slsqp_stop (rotation_of example_multi) (zero_matrix 4 4)
    = (Raise e, self') /\
    self_q self' = self_q (rotation_of example_multi).
Proof.
  split; [cbn; lia|]. split; [cbn; lia|].
  refine (proj1 (numerical_solver_never_returns slsqp_stop
                   (rotation_of example_multi) (zero_matrix 4 4) _ _)); cbn; lia.
Defined.

Ltac destruct_vec4 v :=
  let a := fresh "a" in let b := fresh "b" in
  let c := fresh "c" in let d := fresh "d" in
  destruct v as [[[a b] c] d].

Ltac destruct_mat4 m :=
  let r1 := fresh "r" in let r2 := fresh "r" in
  let r3 := fresh "r" in let r4 := fresh "r" in
  destruct m as [[[r1 r2] r3] r4];
  destruct_vec4 r1; destruct_vec4 r2; destruct_vec4 r3; destruct_vec4 r4.

Lemma finite_f0 : finite f0.
Proof. exists 0. reflexivity. Qed.

Lemma finite_add (x y : fl) : finite x -> finite y -> finite (x + y)%fl.
Proof. intros [a ->] [b ->]. eexists; reflexivity. Qed.

Lemma finite_opp (x : fl) : finite x -> finite (- x)%fl.
Proof. intros [a ->]. eexists; reflexivity. Qed.

Lemma finite_sub (x y : fl) : finite x -> finite y -> finite (x - y)%fl.
Proof. intros Hx Hy. apply finite_add; [exact Hx | apply finite_opp, Hy]. Qed.

Lemma finite_mul (x y : fl) : finite x -> finite y -> finite (x * y)%fl.
Proof. intros [a ->] [b ->]. eexists; reflexivity. Qed.

Lemma Qzero_bool_false (q : Q) : ~ q == 0 -> Qzero_bool q = false.
Proof.
  intros H. unfold Qzero_bool. destruct (Qeq_bool q 0) eqn:E; [|reflexivity].
  apply Qeq_bool_eq in E. contradiction.
Qed.

Lemma Qzero_bool_true (q : Q) : q == 0 -> Qzero_bool q = true.
Proof. intros H. unfold Qzero_bool. apply Qeq_eq_bool. exact H. Qed.

Lemma finite_div (x : fl) (b : Q) : finite x -> ~ b == 0 -> finite (x / Fin b)%fl.
Proof.
  intros [a ->] Hb. cbn [fl_div]. rewrite (Qzero_bool_false b Hb).
  eexists; reflexivity.
Qed.

Lemma zero_or_nan_f0 : zero_or_nan f0.
Proof. right. exists 0. split; reflexivity. Qed.

Lemma zero_or_nan_add (x y : fl) :
  zero_or_nan x -> zero_or_nan y -> zero_or_nan (x + y)%fl.
Proof.
  intros [-> | (a & -> & Ha)] [-> | (b & -> & Hb)]; cbn [fl_add];
    try (left; reflexivity).
  right. eexists. split; [reflexivity|]. rewrite Ha, Hb. reflexivity.
Qed.

Lemma zero_or_nan_mul (x y : fl) :
  zero_or_nan x -> zero_or_nan y -> zero_or_nan (x * y)%fl.
Proof.
  intros [-> | (a & -> & Ha)] [-> | (b & -> & Hb)]; cbn [fl_mul];
    try (left; reflexivity).
  right. eexists. split; [reflexivity|]. rewrite Ha. ring.
Qed.

(** A zero weight times anything is zero or NaN. *)
Lemma zero_weight_mul (w x : fl) : fl_is w 0 -> zero_or_nan (w * x)%fl.
Proof.
  intros (a & -> & Ha). destruct x as [b|s|]; cbn [fl_mul].
  - right. eexists. split; [reflexivity|]. rewrite Ha. ring.
  - rewrite (Qzero_bool_true a Ha). left; reflexivity.
  - left; reflexivity.
Qed.

Lemma finite_scale_zero_or_nan (c : Q) (x : fl) :
  zero_or_nan x -> zero_or_nan (Fin c * x)%fl.
Proof.
  intros [-> | (a & -> & Ha)]; cbn [fl_mul]; [left; reflexivity|].
  right. eexists. split; [reflexivity|]. rewrite Ha. ring.
Qed.

(** Dividing zero or NaN by zero gives NaN. *)
Lemma zero_or_nan_div_zero (x d : fl) :
  zero_or_nan x -> fl_is d 0 -> (x / d)%fl = NaN.
Proof.
  intros [-> | (a & -> & Ha)] (b & -> & Hb); cbn [fl_div]; [reflexivity|].
  rewrite (Qzero_bool_true b Hb), (Qzero_bool_true a Ha). reflexivity.
Qed.

Section Closure.

Variable P : fl -> Prop.
Hypothesis P_add : forall x y, P x -> P y -> P (x + y)%fl.
Hypothesis P_mul : forall x y, P x -> P y -> P (x * y)%fl.

Lemma dot4_closed (a b : vec4) :
  vec4_Forall P a -> vec4_Forall P b -> P (dot4 a b).
Proof.
  destruct_vec4 a. destruct_vec4 b. cbn. intros (?&?&?&?) (?&?&?&?).
  auto 10.
Qed.

Lemma dot3_closed (a b : vec3) :
  vec3_Forall P a -> vec3_Forall P b -> P (dot3 a b).
Proof.
  destruct a as [[? ?] ?]. destruct b as [[? ?] ?]. cbn. intros (?&?&?) (?&?&?).
  auto 10.
Qed.

Lemma mat4_T_Forall (m : mat4) : mat4_Forall P m -> mat4_Forall P (mat4_T m).
Proof. destruct_mat4 m. cbn. tauto. Qed.

Lemma mat4_dot_vec_closed (m : mat4) (v : vec4) :
  mat4_Forall P m -> vec4_Forall P v -> vec4_Forall P (mat4_dot_vec m v).
Proof.
  destruct m as [[[r1 r2] r3] r4]. cbn [mat4_Forall mat4_dot_vec vec4_Forall].
  intros (?&?&?&?) Hv. repeat split; apply dot4_closed; assumption.
Qed.

Lemma mat4_dot_closed (m n : mat4) :
  mat4_Forall P m -> mat4_Forall P n -> mat4_Forall P (mat4_dot m n).
Proof.
  intros Hm Hn. apply mat4_T_Forall in Hn. unfold mat4_dot.
  destruct (mat4_T n) as [[[c1 c2] c3] c4]. destruct m as [[[r1 r2] r3] r4].
  cbn [mat4_Forall vec4_Forall] in *.
  destruct Hm as (?&?&?&?), Hn as (?&?&?&?).
  repeat split; apply dot4_closed; assumption.
Qed.

Lemma mat3_dot_vec_closed (m : mat3) (v : vec3) :
  mat3_Forall P m -> vec3_Forall P v -> vec3_Forall P (mat3_dot_vec m v).
Proof.
  destruct m as [[r1 r2] r3]. cbn [mat3_Forall mat3_dot_vec vec3_Forall].
  intros (?&?&?) Hv. repeat split; apply dot3_closed; assumption.
Qed.

End Closure.

Lemma vec4_map_Forall (P R : fl -> Prop) (f : fl -> fl) (v : vec4) :
  (forall x, P x -> R (f x)) -> vec4_Forall P v -> vec4_Forall R (vec4_map f v).
Proof. destruct_vec4 v. cbn. intros Hf (?&?&?&?). auto. Qed.

Lemma mat4_map_Forall (P R : fl -> Prop) (f : fl -> fl) (m : mat4) :
  (forall x, P x -> R (f x)) -> mat4_Forall P m -> mat4_Forall R (mat4_map f m).
Proof.
  destruct m as [[[r1 r2] r3] r4]. cbn [mat4_Forall mat4_map].
  intros Hf (?&?&?&?). repeat split; apply (vec4_map_Forall P); assumption.
Qed.

Lemma vec4_map2_Forall (P1 P2 R : fl -> Prop) (f : fl -> fl -> fl) (u v : vec4) :
  (forall x y, P1 x -> P2 y -> R (f x y)) ->
  vec4_Forall P1 u -> vec4_Forall P2 v -> vec4_Forall R (vec4_map2 f u v).
Proof. destruct_vec4 u. destruct_vec4 v. cbn. intros Hf (?&?&?&?) (?&?&?&?). auto. Qed.

Lemma mat4_map2_Forall (P1 P2 R : fl -> Prop) (f : fl -> fl -> fl) (m n : mat4) :
  (forall x y, P1 x -> P2 y -> R (f x y)) ->
  mat4_Forall P1 m -> mat4_Forall P2 n -> mat4_Forall R (mat4_map2 f m n).
Proof.
  destruct m as [[[r1 r2] r3] r4]. destruct n as [[[s1 s2] s3] s4].
  cbn [mat4_Forall mat4_map2].
  intros Hf (?&?&?&?) (?&?&?&?).
  repeat split; apply (vec4_map2_Forall P1 P2); assumption.
Qed.

Lemma mat4_zero_Forall (P : fl -> Prop) : P f0 -> mat4_Forall P mat4_zero.
Proof. intros H. cbn. tauto. Qed.

(** The weighted sum of a block stays in [P] when every weighted term is
    in [P] and [P] is closed under addition. *)
Lemma weighted_sum_Forall (Pw Pt P : fl -> Prop)
  (P0 : P f0)
  (P_add : forall x y, P x -> P y -> P (x + y)%fl)
  (P_term : forall w x, Pw w -> Pt x -> P (w * x)%fl)
  (m : matrix) (t : list (list mat4)) :
  matrix_Forall Pw m -> Forall (Forall (mat4_Forall Pt)) t ->
  mat4_Forall P (weighted_sum m t).
Proof.
  unfold weighted_sum. generalize (mat4_zero_Forall P P0).
  generalize mat4_zero as acc. revert t.
  induction m as [|mrow m IH]; intros t acc Hacc Hm Ht; [exact Hacc|].
  destruct t as [|trow t]; [exact Hacc|].
  cbn [combine fold_left]. inversion Hm as [|? ? Hmrow Hm']; subst.
  inversion Ht as [|? ? Htrow Ht']; subst.
  apply IH; [|assumption|assumption].
  clear IH Hm Ht Hm' Ht'. revert trow acc Hacc Htrow.
  induction mrow as [|w mrow IHr]; intros trow acc Hacc Htrow; [exact Hacc|].
  destruct trow as [|a trow]; [exact Hacc|].
  cbn [combine fold_left]. inversion Hmrow as [|? ? Hw Hmrow']; subst.
  inversion Htrow as [|? ? Ha Htrow']; subst.
  apply IHr; [assumption| |assumption].
  unfold mat4_add, mat4_scale.
  apply (mat4_map2_Forall P P); [exact P_add | exact Hacc|].
  apply (mat4_map_Forall Pt); [|exact Ha]. intros x Hx. apply P_term; assumption.
Qed.

Lemma mat4_00_map (f : fl -> fl) (m : mat4) :
  mat4_00 (mat4_map f m) = f (mat4_00 m).
Proof. destruct_mat4 m. reflexivity. Qed.

Lemma mat4_00_map2 (f : fl -> fl -> fl) (m n : mat4) :
  mat4_00 (mat4_map2 f m n) = f (mat4_00 m) (mat4_00 n).
Proof. destruct_mat4 m. destruct_mat4 n. reflexivity. Qed.

Lemma mat4_00_Forall (P : fl -> Prop) (m : mat4) : mat4_Forall P m -> P (mat4_00 m).
Proof. destruct_mat4 m. cbn. tauto. Qed.

Lemma allclose44_00 (a b : mat4) :
  allclose44 a b = true -> isclose (mat4_00 a) (mat4_00 b) = true.
Proof.
  destruct_mat4 a. destruct_mat4 b. unfold allclose44. cbn.
  intros H. repeat (apply andb_prop in H; destruct H as [H ?]). exact H.
Qed.

Lemma fl_add_NaN_l (x : fl) : (NaN + x)%fl = NaN.
Proof. reflexivity. Qed.

Lemma fl_mul_NaN_r (x : fl) : (x * NaN)%fl = NaN.
Proof. destruct x; reflexivity. Qed.

(** With zero weights everywhere and a zero total weight, the top-left
    entry of [A] is NaN. *)
Lemma make_A_zero_weight (C1 C3 : mat4) (C2 : fl) :
  mat4_Forall zero_or_nan C3 -> fl_is C2 0 ->
  mat4_00 (make_A C1 C2 C3) = NaN.
Proof.
  intros H3 H2. unfold make_A, mat4_scale, mat4_sub.
  rewrite mat4_00_map, !mat4_00_map2, mat4_00_map.
  assert (Hp : zero_or_nan (mat4_00 (mat4_dot (mat4_T C3) C3))).
  { apply mat4_00_Forall.
    apply mat4_dot_closed;
      [exact zero_or_nan_add | exact zero_or_nan_mul | | exact H3].
    apply mat4_T_Forall. exact H3. }
  assert (Hd : fl_is (Fin 2 * C2)%fl 0).
  { destruct H2 as (c & -> & Hc). cbn [fl_mul]. eexists. split; [reflexivity|].
    rewrite Hc. ring. }
  rewrite (zero_or_nan_div_zero _ _ Hp Hd).
  unfold fl_sub. rewrite !fl_add_NaN_l. apply fl_mul_NaN_r.
Qed.

Lemma matrix_Forall_concat (P : fl -> Prop) (m : matrix) :
  matrix_Forall P m -> Forall P (concat m).
Proof.
  intros H. apply Forall_concat. exact H.
Qed.

Lemma np_sum_zero_acc (l : list fl) :
  forall acc, fl_is acc 0 -> Forall (fun w => fl_is w 0) l ->
              fl_is (fold_left fl_add l acc) 0.
Proof.
  induction l as [|w l IH]; intros acc Hacc Hl; [exact Hacc|].
  inversion Hl as [|? ? Hw Hl']; subst. cbn [fold_left]. apply IH; [|exact Hl'].
  destruct Hacc as (a & -> & Ha), Hw as (b & -> & Hb).
  eexists. split; [reflexivity|]. rewrite Ha, Hb. reflexivity.
Qed.

Lemma matrix_sum_zero (m : matrix) :
  matrix_Forall (fun w => fl_is w 0) m -> fl_is (matrix_sum m) 0.
Proof.
  intros H. unfold matrix_sum, np_sum. apply np_sum_zero_acc.
  - exists 0. split; reflexivity.
  - apply matrix_Forall_concat. exact H.
Qed.

Lemma isclose_NaN_l (x : fl) : isclose NaN x = false.
Proof. reflexivity. Qed.

Lemma mat4_Forall_True (m : mat4) : mat4_Forall (fun _ => True) m.
Proof. destruct_mat4 m. cbn. tauto. Qed.

Lemma Forall2d_True (t : list (list mat4)) :
  Forall (Forall (mat4_Forall (fun _ => True))) t.
Proof.
  apply Forall_forall. intros row _. apply Forall_forall. intros a _.
  apply mat4_Forall_True.
Qed.

Lemma fl_is_double_zero (C2 : fl) : fl_is C2 0 -> fl_is (Fin 2 * C2)%fl 0.
Proof.
  intros (c & -> & Hc). cbn [fl_mul]. eexists. split; [reflexivity|].
  rewrite Hc. ring.
Qed.

(** On a sub-block whose weights are all zero the fit divides by
    [2*C2 = 0]; [A] is NaN and the symmetry assertion fails. *)
Lemma analytical_fit_zero_weight eigh X Y msub QtW WmQ :
  matrix_Forall (fun w => fl_is w 0) msub ->
  fl_is (Fin 2 * block_C2 msub)%fl 0 /\
  mat4_00 (block_A msub QtW WmQ) = NaN /\
  analytical_fit eigh X Y msub QtW WmQ = Raise AssertionError.
Proof.
  intros Hm.
  assert (H2 : fl_is (block_C2 msub) 0) by (apply matrix_sum_zero; exact Hm).
  assert (HA : mat4_00 (block_A msub QtW WmQ) = NaN).
  { unfold block_A. apply make_A_zero_weight; [|exact H2].
    unfold block_C3, mat4_scale.
    apply (mat4_map_Forall zero_or_nan);
      [intros x Hx; apply finite_scale_zero_or_nan; exact Hx|].
    apply (weighted_sum_Forall (fun w => fl_is w 0) (fun _ => True));
      [exact zero_or_nan_f0 | exact zero_or_nan_add
       | intros w x Hw _; apply zero_weight_mul; exact Hw | exact Hm
       | apply Forall2d_True]. }
  split; [apply fl_is_double_zero; exact H2|]. split; [exact HA|].
  unfold analytical_fit.
  destruct (allclose44 _ _) eqn:Hc; [|reflexivity].
  apply allclose44_00 in Hc. rewrite HA in Hc. discriminate.
Qed.

(** *** Lookups *)

Lemma mapM_Forall {A B : Type} (f : A -> result B) (R : B -> Prop)
  (Hf : forall a b, f a = Ok b -> R b) (l : list A) :
  forall bs, mapM f l = Ok bs -> Forall R bs.
Proof.
  induction l as [|a l IH]; intros bs H; cbn [mapM] in H.
  - injection H as <-. constructor.
  - destruct (f a) as [b|e] eqn:Hb; cbn [bind] in H; [|discriminate].
    destruct (mapM f l) as [bs'|e]; cbn [bind] in H; [|discriminate].
    injection H as <-. constructor; [eapply Hf; eassumption | apply IH; reflexivity].
Qed.

Lemma mapM_length {A B : Type} (f : A -> result B) (l : list A) :
  forall bs, mapM f l = Ok bs -> length bs = length l.
Proof.
  induction l as [|a l IH]; intros bs H; cbn [mapM] in H.
  - injection H as <-. reflexivity.
  - destruct (f a) as [b|e]; cbn [bind] in H; [|discriminate].
    destruct (mapM f l) as [bs'|e]; cbn [bind] in H; [|discriminate].
    injection H as <-. cbn. f_equal. apply IH. reflexivity.
Qed.

Lemma mapM_raise {A B : Type} (f : A -> result B)
  (Hf : forall a e, f a = Raise e -> e = IndexError) (l : list A) :
  forall e, mapM f l = Raise e -> e = IndexError.
Proof.
  induction l as [|a l IH]; intros e H; cbn [mapM] in H; [discriminate|].
  destruct (f a) as [b|e'] eqn:Hb; cbn [bind] in H.
  - destruct (mapM f l) as [bs'|e'']; cbn [bind] in H; [discriminate|].
    injection H as <-. apply IH. reflexivity.
  - injection H as <-. eapply Hf. eassumption.
Qed.

Lemma getitem_In {A : Type} (l : list A) (i : nat) (a : A) :
  getitem l i = Ok a -> In a l.
Proof.
  unfold getitem. destruct (nth_error l i) eqn:E; [|discriminate].
  intros H. injection H as <-. eapply nth_error_In. eassumption.
Qed.

Lemma take_Forall {A : Type} (P : A -> Prop) (a : list A) (idx : list nat) (l : list A) :
  Forall P a -> take a idx = Ok l -> Forall P l.
Proof.
  intros Ha. apply mapM_Forall. intros i b Hb.
  apply getitem_In in Hb. rewrite Forall_forall in Ha. auto.
Qed.

Lemma take_length {A : Type} (a : list A) (idx : list nat) (l : list A) :
  take a idx = Ok l -> length l = length idx.
Proof. apply mapM_length. Qed.

Lemma take_raise {A : Type} (a : list A) (idx : list nat) (e : exn) :
  take a idx = Raise e -> e = IndexError.
Proof. apply mapM_raise. intros i e'. apply getitem_raise. Qed.

Lemma take_ix_Forall {A : Type} (P : A -> Prop) (a : list (list A))
  (rows cols : list nat) (l : list (list A)) :
  Forall (Forall P) a -> take_ix a rows cols = Ok l -> Forall (Forall P) l.
Proof.
  intros Ha. apply mapM_Forall. intros r b Hb.
  destruct (getitem a r) as [row|e] eqn:Hr; cbn [bind] in Hb; [|discriminate].
  apply getitem_In in Hr. rewrite Forall_forall in Ha.
  eapply take_Forall; [apply Ha; exact Hr | exact Hb].
Qed.

Lemma take_ix_raise {A : Type} (a : list (list A)) (rows cols : list nat) (e : exn) :
  take_ix a rows cols = Raise e -> e = IndexError.
Proof.
  apply mapM_raise. intros r e' H.
  destruct (getitem a r) as [row|e''] eqn:Hr; cbn [bind] in H.
  - eapply take_raise. eassumption.
  - injection H as <-. eapply getitem_raise. eassumption.
Qed.

Lemma analytical_block_zero_match eigh self m ri pi :
  matrix_Forall (fun w => fl_is w 0) m ->
  exists e,
    analytical_block eigh self m ri pi = Raise e /\
    (e = AssertionError \/ e = IndexError).
Proof.
  intros Hm. unfold analytical_block.
  destruct (take (self_X self) pi) as [X|e] eqn:HX; cbn [bind];
    [|exists e; split; [reflexivity | right; eapply take_raise; eassumption]].
  destruct (take (self_Y self) ri) as [Y|e] eqn:HY; cbn [bind];
    [|exists e; split; [reflexivity | right; eapply take_raise; eassumption]].
  destruct (take_ix m ri pi) as [msub|e] eqn:Hs; cbn [bind];
    [|exists e; split; [reflexivity | right; eapply take_ix_raise; eassumption]].
  destruct (take_ix (self_Qt_dot_W self) ri pi) as [QtW|e] eqn:H1; cbn [bind];
    [|exists e; split; [reflexivity | right; eapply take_ix_raise; eassumption]].
  destruct (take_ix (self_W_minus_Q self) ri pi) as [WmQ|e] eqn:H3; cbn [bind];
    [|exists e; split; [reflexivity | right; eapply take_ix_raise; eassumption]].
  exists AssertionError. split; [|left; reflexivity].
  apply analytical_fit_zero_weight.
  eapply take_ix_Forall; eassumption.
Qed.

(** The zero-weight failure in general: with an all-zero match matrix
    (and at least one product group) the analytical solver never returns
    a matrix.  It raises at the first sub-block, leaving the state
    unchanged, with [AssertionError] (or [IndexError] when an index of
    that sub-block is out of range).  On any sub-block whose weights are
    all zero the divisor [2*C2] is zero, the entry [A[0][0]] is NaN and the
    fit fails on the symmetry assertion.  Nothing special-cases the
    sub-block. *)
Theorem analytical_solver_zero_match_raises
  (eigh : mat4 -> result (vec4 * mat4)) (self : Rotation) (m : matrix)
  (Hzero : matrix_Forall (fun w => fl_is w 0) m)
  (Hproducts : product_subset_indices (self_M self) <> []) :
  (exists e,
      analytical_solver eigh self m = (Raise e, self) /\
      (e = AssertionError \/ e = IndexError)) /\
  (forall X Y match_sub_matrix Qt_dot_W W_minus_Q,
      matrix_Forall (fun w => fl_is w 0) match_sub_matrix ->
      fl_is (Fin 2 * block_C2 match_sub_matrix)%fl 0 /\
      mat4_00 (block_A match_sub_matrix Qt_dot_W W_minus_Q) = NaN /\
      analytical_fit eigh X Y match_sub_matrix Qt_dot_W W_minus_Q
      = Raise AssertionError).
Proof.
  split; [|intros; apply analytical_fit_zero_weight; assumption].
  unfold analytical_solver.
  destruct (reactant_subset_indices (self_M self)) as [|ri rest] eqn:Hr;
    [exists IndexError; split; [reflexivity | right; reflexivity]|].
  cbn [getitem nth_error].
  destruct (take (self_Y self) ri) as [Y0|e] eqn:HY;
    [|exists e; split; [reflexivity | right; eapply take_raise; eassumption]].
  destruct (product_subset_indices (self_M self)) as [|pi rest']; [congruence|].
  cbn [for_each]. unfold analytical_step at 1.
  destruct (analytical_block_zero_match eigh self m ri pi Hzero) as (e & -> & He).
  exists e. split; [reflexivity | exact He].
Qed.

(** C1: the code at the failing input.  On one rigid group per side and
    an all-zero match matrix the analytical solver raises
    [AssertionError]: the divisor [2*C2] is zero, the unguarded division
    [0 / (2*C2)] yields NaN, and the assertion on the symmetry of [A]
    fails. *)
Lemma analytical_solver_zero_match_crashes :
  fst (analytical_solver eigh_last_axis (rotation_of example_single)
         (zero_matrix 2 2))
  = Raise AssertionError /\
  (Fin 2 * block_C2 (zero_matrix 2 2))%fl = Fin 0 /\
  (Fin 0 / (Fin 2 * block_C2 (zero_matrix 2 2)))%fl = NaN.
Proof. vm_compute. repeat split. Qed.

Lemma isclose_fl_eq (x y : fl) : fl_eq x y -> isclose x y = true.
Proof.
  intros (a & b & -> & -> & Hab). cbn [isclose].
  apply Qle_bool_iff. rewrite Hab.
  setoid_replace (b - b) with 0 by ring.
  change (Qabs 0) with 0.
  pose proof (Qabs_nonneg b). unfold atol, rtol. 
  assert (0 <= (1 # 100000) * Qabs b) by (apply Qmult_le_0_compat; [discriminate | assumption]).
  assert (0 < 1 # 100000000) by reflexivity. lra.
Qed.

Lemma allclose44_Forall2 (A B : mat4) :
  mat4_Forall2 fl_eq A B -> allclose44 A B = true.
Proof.
  destruct_mat4 A. destruct_mat4 B. unfold allclose44.
  cbn [mat4_Forall2 vec4_Forall2 mat4_all2 vec4_all2].
  intros H. decompose [and] H. clear H.
  repeat match goal with H : fl_eq _ _ |- _ => apply isclose_fl_eq in H; rewrite H; clear H end.
  reflexivity.
Qed.

Ltac destruct_finite_mat4 m H :=
  destruct_mat4 m; cbn [mat4_Forall vec4_Forall] in H; decompose [and] H; clear H;
  repeat match goal with Hf : finite _ |- _ => destruct Hf as [? ->] end.

(** [A] is finite and symmetric when [C1] and [C3] are finite and
    [C2] is a finite number other than zero. *)
Lemma make_A_symmetric (C1 C3 : mat4) (c2 : Q) :
  mat4_Forall finite C1 -> mat4_Forall finite C3 -> ~ c2 == 0 ->
  mat4_Forall finite (make_A C1 (Fin c2) C3) /\
  mat4_symmetric (make_A C1 (Fin c2) C3).
Proof.
  intros H1 H3 Hc.
  assert (Hd : ~ 2 * c2 == 0) by (intros E; apply Hc; lra).
  destruct_finite_mat4 C1 H1. destruct_finite_mat4 C3 H3.
  unfold mat4_symmetric, make_A, mat4_scale, mat4_sub.
  cbn [mat4_T mat4_dot mat4_map mat4_map2 vec4_map vec4_map2 dot4
       fl_mul fl_add fl_sub fl_opp fl_div mat4_Forall vec4_Forall
       mat4_Forall2 vec4_Forall2].
  rewrite !(Qzero_bool_false _ Hd).
  cbn [fl_mul fl_add fl_sub fl_opp].
  split.
  - repeat split; eexists; reflexivity.
  - repeat split; (do 2 eexists; split; [reflexivity|split; [reflexivity|]]);
      field; exact Hc.
Qed.

Lemma np_sum_finite_acc (l : list fl) :
  forall acc, finite acc -> Forall finite l -> finite (fold_left fl_add l acc).
Proof.
  induction l as [|w l IH]; intros acc Hacc Hl; [exact Hacc|].
  inversion Hl; subst. cbn [fold_left]. apply IH; [apply finite_add|]; assumption.
Qed.

Lemma matrix_sum_finite (m : matrix) :
  matrix_Forall finite m -> finite (matrix_sum m).
Proof.
  intros H. apply np_sum_finite_acc; [apply finite_f0 | apply matrix_Forall_concat, H].
Qed.

Lemma block_C1_finite msub QtW :
  matrix_Forall finite msub -> Forall (Forall (mat4_Forall finite)) QtW ->
  mat4_Forall finite (block_C1 msub QtW).
Proof.
  intros Hm Ht. unfold block_C1, mat4_scale.
  apply (mat4_map_Forall finite);
    [intros x Hx; apply finite_mul; [eexists; reflexivity | exact Hx]|].
  apply (weighted_sum_Forall finite finite);
    [exact finite_f0 | exact finite_add | exact finite_mul | exact Hm | exact Ht].
Qed.

Lemma block_C3_finite msub WmQ :
  matrix_Forall finite msub -> Forall (Forall (mat4_Forall finite)) WmQ ->
  mat4_Forall finite (block_C3 msub WmQ).
Proof.
  intros Hm Ht. unfold block_C3, mat4_scale.
  apply (mat4_map_Forall finite);
    [intros x Hx; apply finite_mul; [eexists; reflexivity | exact Hx]|].
  apply (weighted_sum_Forall finite finite);
    [exact finite_f0 | exact finite_add | exact finite_mul | exact Hm | exact Ht].
Qed.

(** The matrix [A] of a sub-block with finite data and a total weight
    other than zero. *)
Lemma block_A_symmetric msub QtW WmQ :
  matrix_Forall finite msub ->
  Forall (Forall (mat4_Forall finite)) QtW ->
  Forall (Forall (mat4_Forall finite)) WmQ ->
  ~ fl_is (block_C2 msub) 0 ->
  mat4_Forall finite (block_A msub QtW WmQ) /\
  mat4_symmetric (block_A msub QtW WmQ).
Proof.
  intros Hm HQ HW H2. unfold block_A.
  destruct (matrix_sum_finite msub Hm) as [c Hc]. unfold block_C2 in *.
  rewrite Hc in *.
  apply make_A_symmetric;
    [apply block_C1_finite | apply block_C3_finite |]; try assumption.
  intros E. apply H2. exists c. split; [reflexivity | exact E].
Qed.

(** In exact arithmetic [A] is symmetric by construction: for a sub-block
    with finite match weights, finite precomputed matrices and a total
    weight [C2] other than zero, the matrix
    [A = 0.5*(C3.T.dot(C3)/(2*C2) - C1 - C1.T)] equals its transpose, so
    [assert(np.allclose(A, A.T))] passes; and whenever that check is false,
    on any sub-block, the fit raises [AssertionError] instead of going
    on.  Overflow is what breaks it, see
    [symmetry_assertion_fails_on_overflow]. *)
Theorem symmetry_assertion_never_fails
  (eigh : mat4 -> result (vec4 * mat4)) (X Y : list vec3)
  (match_sub_matrix : matrix) (Qt_dot_W W_minus_Q : list (list mat4))
  (Hweights : matrix_Forall finite match_sub_matrix)
  (HQtW : Forall (Forall (mat4_Forall finite)) Qt_dot_W)
  (HWmQ : Forall (Forall (mat4_Forall finite)) W_minus_Q)
  (HC2 : ~ fl_is (block_C2 match_sub_matrix) 0) :
  let A := block_A match_sub_matrix Qt_dot_W W_minus_Q in
  mat4_symmetric A /\
  py_assert (allclose44 A (mat4_T A)) = Ok tt /\
  (forall X' Y' match_sub_matrix' Qt_dot_W' W_minus_Q',
      let A' := block_A match_sub_matrix' Qt_dot_W' W_minus_Q' in
      allclose44 A' (mat4_T A') = false ->
      analytical_fit eigh X' Y' match_sub_matrix' Qt_dot_W' W_minus_Q'
      = Raise AssertionError).
Proof.
  intros A.
  destruct (block_A_symmetric match_sub_matrix Qt_dot_W W_minus_Q
              Hweights HQtW HWmQ HC2) as [_ Hsym].
  split; [exact Hsym|]. split.
  - unfold A. rewrite (allclose44_Forall2 _ _ Hsym). reflexivity.
  - intros X' Y' m' Q' W' A' HA'. unfold analytical_fit.
    fold A'. rewrite HA'. reflexivity.
Qed.

(** *** Writing cells *)

Lemma set_nth_Forall {A : Type} (P : A -> Prop) (l : list A) :
  forall i x l', set_nth l i x = Ok l' -> Forall P l -> P x -> Forall P l'.
Proof.
  induction l as [|h t IH]; intros i x l' H Hl Hx; cbn [set_nth] in H; [discriminate|].
  inversion Hl; subst. destruct i as [|i].
  - injection H as <-. constructor; assumption.
  - destruct (set_nth t i x) as [t'|e] eqn:E; cbn [bind] in H; [|discriminate].
    injection H as <-. constructor; [assumption | eapply IH; eassumption].
Qed.

Lemma set_nth_map {A B : Type} (f : A -> B) (l : list A) :
  forall i x y l',
    set_nth l i x = Ok l' -> getitem l i = Ok y -> f x = f y ->
    map f l' = map f l.
Proof.
  induction l as [|h t IH]; intros i x y l' H Hy Hf; cbn [set_nth] in H; [discriminate|].
  destruct i as [|i].
  - injection H as <-. cbn in Hy. injection Hy as ->. cbn. f_equal. exact Hf.
  - destruct (set_nth t i x) as [t'|e] eqn:E; cbn [bind] in H; [|discriminate].
    injection H as <-. cbn. f_equal. eapply IH; eassumption.
Qed.

Lemma set_nth_length {A : Type} (l : list A) :
  forall i x l', set_nth l i x = Ok l' -> length l' = length l.
Proof.
  induction l as [|h t IH]; intros i x l' H; cbn [set_nth] in H; [discriminate|].
  destruct i as [|i].
  - injection H as <-. reflexivity.
  - destruct (set_nth t i x) as [t'|e] eqn:E; cbn [bind] in H; [|discriminate].
    injection H as <-. cbn. f_equal. eapply IH; eassumption.
Qed.

Lemma set2_inv (P : fl -> Prop) (a a' : matrix) (i j : nat) (x : fl) :
  set2 a i j x = Ok a' -> matrix_Forall P a -> P x ->
  matrix_Forall P a' /\ dims a' = dims a.
Proof.
  unfold set2. intros H Ha Hx.
  destruct (getitem a i) as [row|e] eqn:Hrow; cbn [bind] in H; [|discriminate].
  destruct (set_nth row j x) as [row'|e] eqn:Hrow'; cbn [bind] in H; [|discriminate].
  split.
  - eapply set_nth_Forall; [exact H | exact Ha |].
    eapply set_nth_Forall; [exact Hrow' | | exact Hx].
    apply getitem_In in Hrow. unfold matrix_Forall in Ha.
    rewrite Forall_forall in Ha. auto.
  - unfold dims. eapply set_nth_map; [exact H | exact Hrow |].
    eapply set_nth_length; eassumption.
Qed.

Lemma apply_writes_inv (P : fl -> Prop) (ws : list cell) :
  forall a a',
    apply_writes ws a = Ok a' -> matrix_Forall P a ->
    Forall (fun c => P (snd c)) ws ->
    matrix_Forall P a' /\ dims a' = dims a.
Proof.
  induction ws as [|[[i j] x] ws IH]; intros a a' H Ha Hws; cbn [apply_writes] in H.
  - injection H as <-. split; [exact Ha | reflexivity].
  - inversion Hws as [|? ? Hx Hws']; subst. cbn [snd] in Hx.
    destruct (set2 a i j x) as [a1|e] eqn:E; cbn [bind] in H; [|discriminate].
    destruct (set2_inv P a a1 i j x E Ha Hx) as [Ha1 Hd1].
    destruct (IH a1 a' H Ha1 Hws') as [Ha' Hd']. split; [exact Ha' | congruence].
Qed.

Lemma enumerate_lt {A : Type} (l : list A) (i : nat) (a : A) :
  In (i, a) (enumerate l) -> (i < length l)%nat.
Proof.
  unfold enumerate. intros H. apply in_combine_l in H. apply in_seq in H. lia.
Qed.

(** A value read with broadcasting from a block of the declared shape. *)
Lemma bcast_get_Forall (P : fl -> Prop) (V : matrix) (vr vc tr tc i j : nat) :
  matrix_Forall P V -> length V = vr -> Forall (fun row => length row = vc) V ->
  broadcastable (vr, vc) (tr, tc) = true -> (i < tr)%nat -> (j < tc)%nat ->
  P (bcast_get V (vr, vc) i j).
Proof.
  intros HV Hlen Hrows Hb Hi Hj. unfold bcast_get, broadcastable in *. cbn [fst snd].
  apply andb_prop in Hb. destruct Hb as [Hb1 Hb2].
  rewrite orb_true_iff, !Nat.eqb_eq in Hb1, Hb2.
  set (i' := if (vr =? 1)%nat then 0%nat else i).
  set (j' := if (vc =? 1)%nat then 0%nat else j).
  assert (Hi' : (i' < vr)%nat)
    by (unfold i'; destruct (Nat.eqb_spec vr 1); lia).
  assert (Hj' : (j' < vc)%nat)
    by (unfold j'; destruct (Nat.eqb_spec vc 1); lia).
  assert (Hrow : In (nth i' V []) V) by (apply nth_In; lia).
  unfold matrix_Forall in HV. rewrite Forall_forall in HV, Hrows.
  specialize (HV _ Hrow). specialize (Hrows _ Hrow).
  rewrite Forall_forall in HV. apply HV. apply nth_In. lia.
Qed.

Lemma cell_writes_Forall (P : fl -> Prop) (rows cols : list nat) (V : matrix)
  (vr vc : nat) :
  matrix_Forall P V -> length V = vr -> Forall (fun row => length row = vc) V ->
  broadcastable (vr, vc) (length rows, length cols) = true ->
  Forall (fun c => P (snd c)) (cell_writes rows cols V (vr, vc)).
Proof.
  intros HV Hlen Hrows Hb. unfold cell_writes. apply Forall_forall.
  intros [[r c] x] Hin. apply in_flat_map in Hin.
  destruct Hin as ([i r'] & Hi & Hin). apply in_map_iff in Hin.
  destruct Hin as ([j c'] & Heq & Hj). injection Heq as _ _ <-. cbn [snd].
  apply enumerate_lt in Hi, Hj.
  eapply bcast_get_Forall; eassumption.
Qed.

Lemma setitem_ix_inv (P : fl -> Prop) (a a' : matrix) (rows cols : list nat)
  (V : matrix) (vr vc : nat) :
  setitem_ix a rows cols V (vr, vc) = Ok a' ->
  matrix_Forall P a -> matrix_Forall P V ->
  length V = vr -> Forall (fun row => length row = vc) V ->
  matrix_Forall P a' /\ dims a' = dims a.
Proof.
  unfold setitem_ix. intros H Ha HV Hlen Hrows.
  destruct (broadcastable (vr, vc) (length rows, length cols)) eqn:Hb; [|discriminate].
  eapply apply_writes_inv; [exact H | exact Ha |].
  apply cell_writes_Forall; assumption.
Qed.

(** *** Loops *)

Lemma for_each_inv {A S : Type} (I : S -> Prop)
  (body : A -> S -> result unit * S)
  (Hbody : forall a s u s', I s -> body a s = (Ok u, s') -> I s')
  (l : list A) :
  forall s u s', I s -> for_each l body s = (Ok u, s') -> I s'.
Proof.
  induction l as [|a l IH]; intros s u s' Hs H; cbn [for_each] in H.
  - injection H as _ <-. exact Hs.
  - destruct (body a s) as [[u1|e] s1] eqn:E; [|discriminate].
    eapply IH; [|exact H]. eapply Hbody; eassumption.
Qed.

Lemma nonneg_finite (x : fl) : nonneg x -> finite x.
Proof. intros (q & -> & _). eexists; reflexivity. Qed.

Lemma matrix_Forall_impl (P R : fl -> Prop) (m : matrix) :
  (forall x, P x -> R x) -> matrix_Forall P m -> matrix_Forall R m.
Proof.
  intros H Hm. unfold matrix_Forall in *.
  eapply Forall_impl; [|exact Hm]. intros row Hrow.
  eapply Forall_impl; [|exact Hrow]. exact H.
Qed.

Lemma np_sum_nonneg_acc (l : list fl) :
  forall a, 0 <= a -> Forall nonneg l ->
    exists c, fold_left fl_add l (Fin a) = Fin c /\ a <= c /\
              (c == 0 -> Forall (fun w => fl_is w 0) l).
Proof.
  induction l as [|w l IH]; intros a Ha Hl; cbn [fold_left].
  - exists a. split; [reflexivity|]. split; [lra | constructor].
  - inversion Hl as [|? ? (b & -> & Hb) Hl']; subst. cbn [fl_add].
    destruct (IH (a + b)) as (c & Hc & Hle & Hz); [lra | exact Hl' |].
    exists c. split; [exact Hc|]. split; [lra|].
    intros E. constructor; [|apply Hz; exact E].
    exists b. split; [reflexivity | lra].
Qed.

(** The total weight of a block of non-negative weights is a non-negative
    number, and it is zero only when every weight is. *)
Lemma matrix_sum_nonneg (m : matrix) :
  matrix_Forall nonneg m ->
  exists c, matrix_sum m = Fin c /\ 0 <= c /\
            (c == 0 -> matrix_Forall (fun w => fl_is w 0) m).
Proof.
  intros Hm. unfold matrix_sum, np_sum, f0.
  destruct (np_sum_nonneg_acc (concat m) 0) as (c & Hc & Hle & Hz);
    [lra | apply matrix_Forall_concat; exact Hm |].
  exists c. split; [exact Hc|]. split; [exact Hle|].
  intros E. specialize (Hz E). unfold matrix_Forall.
  rewrite Forall_forall in Hz. apply Forall_forall. intros row Hrow.
  apply Forall_forall. intros w Hw. apply Hz. apply in_concat. eauto.
Qed.

Lemma transform_finite (r s : vec4) :
  vec4_Forall finite r -> vec4_Forall finite s ->
  mat3_Forall finite (fst (transform r s)) /\
  vec3_Forall finite (snd (transform r s)).
Proof.
  destruct_vec4 r. destruct_vec4 s. cbn [vec4_Forall].
  intros (Ha & Hb & Hc & Hd) (Ha0 & Hb0 & Hc0 & Hd0).
  destruct Ha as [? ->], Hb as [? ->], Hc as [? ->], Hd as [? ->],
           Ha0 as [? ->], Hb0 as [? ->], Hc0 as [? ->], Hd0 as [? ->].
  cbn. repeat split; eexists; reflexivity.
Qed.

Lemma Qsquare_nonneg (a : Q) : 0 <= a * a.
Proof. nra. Qed.

(** A squared distance between finite points under a finite transform is a
    non-negative number: a sum of three squares. *)
Lemma sqdist_nonneg (rot : mat3) (trans x y : vec3) :
  mat3_Forall finite rot -> vec3_Forall finite trans ->
  vec3_Forall finite x -> vec3_Forall finite y ->
  exists d1 d2 d3,
    sqdist rot trans x y = Fin (0 + d1 * d1 + d2 * d2 + d3 * d3) /\
    nonneg (sqdist rot trans x y).
Proof.
  destruct rot as [[[[r11 r12] r13] [[r21 r22] r23]] [[r31 r32] r33]].
  destruct trans as [[t1 t2] t3]. destruct x as [[x1 x2] x3]. destruct y as [[y1 y2] y3].
  cbn [mat3_Forall vec3_Forall]. intros H1 H2 H3 H4.
  decompose [and] H1. decompose [and] H2. decompose [and] H3. decompose [and] H4.
  repeat match goal with H : finite _ |- _ => destruct H as [? ->] end.
  unfold sqdist, np_sum, fl_sq, f0. cbn.
  eexists _, _, _. split; [reflexivity|].
  eexists. split; [reflexivity|].
  match goal with |- 0 <= 0 + ?a * ?a + ?b * ?b + ?c * ?c =>
    pose proof (Qsquare_nonneg a); pose proof (Qsquare_nonneg b);
    pose proof (Qsquare_nonneg c) end. lra.
Qed.

Lemma sqdist_matrix_nonneg (rot : mat3) (trans : vec3) (X Y : list vec3) :
  mat3_Forall finite rot -> vec3_Forall finite trans ->
  Forall (vec3_Forall finite) X -> Forall (vec3_Forall finite) Y ->
  matrix_Forall nonneg (sqdist_matrix rot trans X Y) /\
  length (sqdist_matrix rot trans X Y) = length X /\
  Forall (fun row => length row = length Y) (sqdist_matrix rot trans X Y).
Proof.
  intros Hr Ht HX HY. unfold sqdist_matrix, matrix_Forall.
  rewrite Forall_forall in HX, HY. split; [|split].
  - apply Forall_forall. intros row Hrow. apply in_map_iff in Hrow.
    destruct Hrow as (x & <- & Hx). apply Forall_forall. intros v Hv.
    apply in_map_iff in Hv. destruct Hv as (y & <- & Hy).
    destruct (sqdist_nonneg rot trans x y) as (? & ? & ? & _ & H); auto.
  - apply length_map.
  - apply Forall_forall. intros row Hrow. apply in_map_iff in Hrow.
    destruct Hrow as (x & <- & Hx). apply length_map.
Qed.

Lemma last_column_finite (m : mat4) :
  mat4_Forall finite m -> vec4_Forall finite (last_column m).
Proof. destruct_mat4 m. cbn. tauto. Qed.

Section FiniteEigh.

Variable eigh : mat4 -> result (vec4 * mat4).
Hypothesis eigh_finite : eigh_keeps_finite eigh.

(** When the fit of a sub-block returns, every entry of the block is a
    non-negative number. *)
Lemma analytical_fit_nonneg X Y msub QtW WmQ V :
  Forall (vec3_Forall finite) X -> Forall (vec3_Forall finite) Y ->
  matrix_Forall nonneg msub ->
  Forall (Forall (mat4_Forall finite)) QtW ->
  Forall (Forall (mat4_Forall finite)) WmQ ->
  analytical_fit eigh X Y msub QtW WmQ = Ok V ->
  matrix_Forall nonneg V /\ length V = length X /\
  Forall (fun row => length row = length Y) V.
Proof.
  intros HX HY Hm HQ HW Hfit.
  assert (Hmf : matrix_Forall finite msub)
    by (eapply matrix_Forall_impl; [exact nonneg_finite | exact Hm]).
  destruct (matrix_sum_nonneg msub Hm) as (c & Hc & Hc0 & Hz).
  destruct (Qeq_dec c 0) as [E|E].
  { destruct (analytical_fit_zero_weight eigh X Y msub QtW WmQ (Hz E)) as (_ & _ & Hr).
    congruence. }
  assert (H2 : ~ fl_is (block_C2 msub) 0).
  { unfold block_C2. rewrite Hc. intros (c' & Hc' & E'). injection Hc' as <-. auto. }
  destruct (block_A_symmetric msub QtW WmQ Hmf HQ HW H2) as [HA _].
  unfold analytical_fit in Hfit.
  destruct (py_assert _) as [[]|]; cbn [bind] in Hfit; [|discriminate].
  destruct (eigh _) as [[vals vecs]|] eqn:He; cbn [bind] in Hfit; [|discriminate].
  destruct (eigh_finite _ _ _ HA He) as [Hvals Hvecs].
  destruct (py_assert _) as [[]|]; cbn [bind] in Hfit; [|discriminate].
  cbn [fst snd] in Hfit.
  match type of Hfit with context [transform ?r ?s] =>
    assert (Hr : vec4_Forall finite r) by (apply last_column_finite; exact Hvecs);
    assert (Hs : vec4_Forall finite s) end.
  { apply (vec4_map_Forall finite).
    - intros x Hx. unfold block_C2. rewrite Hc. cbn [fl_mul].
      apply finite_div; [apply finite_opp; exact Hx | intros E'; apply E; lra].
    - apply mat4_dot_vec_closed;
        [exact finite_add | exact finite_mul
         | apply block_C3_finite; assumption | exact Hr]. }
  match type of Hfit with context [transform ?r ?s] =>
    destruct (transform_finite r s Hr Hs) as [Hrot Htrans];
    destruct (transform r s) as [rot trans] end.
  cbn [fst snd] in *. injection Hfit as <-.
  apply sqdist_matrix_nonneg; assumption.
Qed.

Lemma analytical_step_nonneg m ri pi self u self' :
  finite_data self -> matrix_Forall nonneg m ->
  matrix_Forall nonneg (self_squared_distances self) ->
  analytical_step eigh m ri pi self = (Ok u, self') ->
  matrix_Forall nonneg (self_squared_distances self') /\
  dims (self_squared_distances self') = dims (self_squared_distances self).
Proof.
  intros (HX & HY & HQ & HW) Hm Hbuf Hstep. unfold analytical_step in Hstep.
  destruct (analytical_block eigh self m ri pi) as [V|e] eqn:Hblock; [|discriminate].
  destruct (setitem_ix _ _ _ _ _) as [d|e] eqn:Hset; [|discriminate].
  injection Hstep as _ <-.
  unfold analytical_block in Hblock.
  destruct (take (self_X self) pi) as [X|] eqn:EX; cbn [bind] in Hblock; [|discriminate].
  destruct (take (self_Y self) ri) as [Y|] eqn:EY; cbn [bind] in Hblock; [|discriminate].
  destruct (take_ix m ri pi) as [msub|] eqn:Em; cbn [bind] in Hblock; [|discriminate].
  destruct (take_ix (self_Qt_dot_W self) ri pi) as [QtW|] eqn:EQ;
    cbn [bind] in Hblock; [|discriminate].
  destruct (take_ix (self_W_minus_Q self) ri pi) as [WmQ|] eqn:EW;
    cbn [bind] in Hblock; [|discriminate].
  destruct (analytical_fit_nonneg X Y msub QtW WmQ V
              (take_Forall _ _ _ _ HX EX) (take_Forall _ _ _ _ HY EY)
              (take_ix_Forall _ _ _ _ _ Hm Em) (take_ix_Forall _ _ _ _ _ HQ EQ)
              (take_ix_Forall _ _ _ _ _ HW EW) Hblock) as (HV & HlenV & HrowsV).
  cbn [self_squared_distances set_squared_distances].
  eapply (setitem_ix_inv nonneg); [exact Hset | exact Hbuf | exact HV | |].
  - rewrite HlenV. eapply take_length; eassumption.
  - erewrite <- (take_length _ _ _ EY). exact HrowsV.
Qed.

End FiniteEigh.

Lemma odc_finite_data (a b : Rotation) :
  only_distances_changed a b -> finite_data a -> finite_data b.
Proof. intros H. rewrite H. destruct a. exact (fun x => x). Qed.

Lemma makeW_finite (x : vec3) :
  vec3_Forall finite x -> mat4_Forall finite (makeW (quat_of_coord x)).
Proof.
  destruct x as [[a b] c]. cbn [vec3_Forall]. intros ([? ->] & [? ->] & [? ->]).
  cbn. repeat split; eexists; reflexivity.
Qed.

Lemma makeQ_finite (x : vec3) :
  vec3_Forall finite x -> mat4_Forall finite (makeQ (quat_of_coord x)).
Proof.
  destruct x as [[a b] c]. cbn [vec3_Forall]. intros ([? ->] & [? ->] & [? ->]).
  cbn. repeat split; eexists; reflexivity.
Qed.

Lemma zeros_nonneg (sh : nat * nat) : matrix_Forall nonneg (zeros sh).
Proof.
  unfold zeros, matrix_Forall. apply Forall_forall. intros row Hrow.
  apply repeat_spec in Hrow. subst. apply Forall_forall. intros x Hx.
  apply repeat_spec in Hx. subst. exists 0. split; [reflexivity | lra].
Qed.

(** A scorer built on finite coordinates holds finite data and a buffer of
    zeros of the shape of [M.match_matrix]. *)
Lemma Rotation_init_finite (M : Ordering) (self : Rotation) :
  Rotation_init M = Ok self ->
  Forall (vec3_Forall finite) (products_coordinates M) ->
  Forall (vec3_Forall finite) (reactants_coordinates M) ->
  finite_data self /\
  self_squared_distances self = zeros (shape (match_matrix M)) /\
  matrix_Forall nonneg (self_squared_distances self).
Proof.
  unfold Rotation_init. intros H HX HY.
  destruct (initialize_quaternions M) as [q|e]; cbn [bind] in H; [|discriminate].
  cbn [interaction_arrays] in H. injection H as <-.
  cbn [self_squared_distances]. split; [|split; [reflexivity | apply zeros_nonneg]].
  unfold finite_data. cbn [self_X self_Y self_Qt_dot_W self_W_minus_Q].
  split; [exact HX|]. split; [exact HY|].
  rewrite Forall_forall in HX, HY.
  split; apply Forall_forall; intros row Hrow; apply in_map_iff in Hrow;
    destruct Hrow as (w & <- & Hw); apply in_map_iff in Hw;
    destruct Hw as (x & <- & Hx); apply Forall_forall; intros a Ha;
    apply in_map_iff in Ha; destruct Ha as (qm & <- & Hq);
    apply in_map_iff in Hq; destruct Hq as (y & <- & Hy).
  - apply mat4_dot_closed; [exact finite_add | exact finite_mul | |].
    + apply mat4_T_Forall. apply makeQ_finite. auto.
    + apply makeW_finite. auto.
  - unfold mat4_sub. apply (mat4_map2_Forall finite finite);
      [exact finite_sub | apply makeW_finite; auto | apply makeQ_finite; auto].
Qed.

Lemma eigh_last_axis_finite : eigh_keeps_finite eigh_last_axis.
Proof.
  intros A vals vecs HA H. destruct_mat4 A. cbn in H. injection H as <- <-.
  cbn in HA. decompose [and] HA.
  cbn. repeat split; try (eexists; reflexivity). assumption.
Qed.

(** In exact arithmetic, where nothing overflows: with finite
    coordinates, finite non-negative match weights and a buffer of the
    shape of the match matrix holding non-negative numbers, whenever
    [Score] returns, every entry of the returned matrix is a finite number
    that is not negative; it is the buffer of the scorer, whose data stays
    finite.  [numpy.linalg.eigh] is assumed to return finite values on a
    finite matrix.  The statement in the range of binary64 is
    [Score_returns_squared_distances]. *)
Theorem Score_returns_finite_nonneg
  (eigh : mat4 -> result (vec4 * mat4))
  (step : list fl -> fl -> list fl -> list bound -> option (list fl))
  (self self' : Rotation) (m out : matrix)
  (Heigh : eigh_keeps_finite eigh)
  (Hdata : finite_data self)
  (Hbuf : matrix_Forall nonneg (self_squared_distances self))
  (Hshape : dims (self_squared_distances self) = dims m)
  (Hm : matrix_Forall nonneg m)
  (Hret : Score eigh step self m = (Ok out, self')) :
  dims out = dims m /\
  matrix_Forall nonneg out /\
  out = self_squared_distances self' /\
  finite_data self'.
Proof.
  assert (Hodc : only_distances_changed self self').
  { pose proof (Score_odc eigh step self m) as H. rewrite Hret in H. exact H. }
  unfold Score in Hret. destruct (self_score self).
  2:{ destruct (numerical_solver_raises step self m) as (e & s' & Heq & _).
      congruence. }
  unfold analytical_solver in Hret.
  destruct (getitem _ 0) as [ref|]; [|discriminate].
  destruct (take _ ref) as [Y0|]; [|discriminate].
  match type of Hret with context [for_each ?l ?b ?s] =>
    destruct (for_each l b s) as [[u|e] s1] eqn:Hloop end; [|discriminate].
  injection Hret as <- <-.
  set (I := fun s : Rotation =>
              finite_data s /\ matrix_Forall nonneg (self_squared_distances s) /\
              dims (self_squared_distances s) = dims m).
  assert (HI : I s1).
  { eapply (for_each_inv I); [| |exact Hloop]; [|unfold I; auto].
    intros ri s u1 s2 Hs Hin.
    eapply (for_each_inv I); [| exact Hs | exact Hin].
    intros pi s3 u3 s4 (Hd3 & Hb3 & Hs3) Hstep.
    destruct (analytical_step_nonneg eigh Heigh m ri pi s3 u3 s4 Hd3 Hm Hb3 Hstep)
      as [Hb4 Hd4].
    split; [|split; [exact Hb4 | congruence]].
    eapply odc_finite_data; [|exact Hd3].
    pose proof (analytical_step_odc eigh m ri pi s3) as H. rewrite Hstep in H. exact H. }
  destruct HI as (Hd1 & Hb1 & Hs1). auto.
Qed.

Lemma matrix_Forall_True (a : matrix) : matrix_Forall (fun _ => True) a.
Proof.
  apply Forall_forall. intros row _. apply Forall_forall. intros x _. exact I.
Qed.

Lemma nth_error_set_nth {A : Type} (l : list A) :
  forall i x l' k,
    set_nth l i x = Ok l' ->
    nth_error l' k = if (k =? i)%nat then Some x else nth_error l k.
Proof.
  induction l as [|h t IH]; intros i x l' k H; cbn [set_nth] in H; [discriminate|].
  destruct i as [|i].
  - injection H as <-. destruct k; reflexivity.
  - destruct (set_nth t i x) as [t'|e] eqn:E; cbn [bind] in H; [|discriminate].
    injection H as <-. destruct k as [|k]; [reflexivity|].
    cbn [nth_error]. rewrite (IH i x t' k E). reflexivity.
Qed.

Lemma set_nth_total {A : Type} (l : list A) :
  forall i x,
    ((i < length l)%nat -> exists l', set_nth l i x = Ok l') /\
    ((length l <= i)%nat -> set_nth l i x = Raise IndexError).
Proof.
  induction l as [|h t IH]; intros i x; cbn [set_nth length].
  - split; [lia | reflexivity].
  - destruct i as [|i].
    + split; [eauto | lia].
    + destruct (IH i x) as [Hok Hbad]. split; intros Hi.
      * destruct Hok as [t' ->]; [lia|]. cbn [bind]. eauto.
      * rewrite Hbad by lia. reflexivity.
Qed.

Lemma set2_total (a : matrix) (i j : nat) (x : fl) :
  (cell_in_dims (dims a) i j = true -> exists a', set2 a i j x = Ok a') /\
  (cell_in_dims (dims a) i j = false -> set2 a i j x = Raise IndexError).
Proof.
  unfold cell_in_dims, dims, set2, getitem. rewrite nth_error_map.
  destruct (nth_error a i) as [row|] eqn:Hrow; cbn [option_map bind].
  - destruct (set_nth_total row j x) as [Hok Hbad].
    destruct (Nat.ltb_spec j (length row)) as [Hj|Hj]; split; intros H; try discriminate.
    + destruct (Hok Hj) as [row' ->]. cbn [bind].
      apply set_nth_total. apply nth_error_Some. congruence.
    + rewrite (Hbad Hj). reflexivity.
  - split; [discriminate | reflexivity].
Qed.

Lemma set2_dims (a a' : matrix) (i j : nat) (x : fl) :
  set2 a i j x = Ok a' -> dims a' = dims a.
Proof.
  intros H. eapply (set2_inv (fun _ => True)); [exact H | apply matrix_Forall_True | exact I].
Qed.

Lemma apply_writes_dims (ws : list cell) (a a' : matrix) :
  apply_writes ws a = Ok a' -> dims a' = dims a.
Proof.
  intros H. eapply (apply_writes_inv (fun _ => True));
    [exact H | apply matrix_Forall_True |].
  apply Forall_forall. intros; exact I.
Qed.

(** Whether a list of writes succeeds depends on the row lengths of the
    array only. *)
Lemma apply_writes_same_dims (ws : list cell) :
  forall a b,
    dims b = dims a ->
    match apply_writes ws a with
    | Ok _ => exists b', apply_writes ws b = Ok b'
    | Raise e => apply_writes ws b = Raise e
    end.
Proof.
  induction ws as [|[[i j] x] ws IH]; intros a b Hd; cbn [apply_writes]; [eauto|].
  destruct (set2_total a i j x) as [Hoka Hbada].
  destruct (set2_total b i j x) as [Hokb Hbadb]. rewrite Hd in Hokb, Hbadb.
  destruct (cell_in_dims (dims a) i j).
  - destruct (Hoka eq_refl) as [a1 Ha1]. destruct (Hokb eq_refl) as [b1 Hb1].
    rewrite Ha1, Hb1. cbn [bind]. apply IH.
    rewrite (set2_dims _ _ _ _ _ Ha1), (set2_dims _ _ _ _ _ Hb1). exact Hd.
  - rewrite (Hbada eq_refl), (Hbadb eq_refl). reflexivity.
Qed.

Lemma get2_set2 (a a' : matrix) (i j : nat) (x : fl) (i' j' : nat) :
  set2 a i j x = Ok a' ->
  get2 a' i' j' = if ((i' =? i) && (j' =? j))%nat then Some x else get2 a i' j'.
Proof.
  unfold set2, get2, getitem. intros H.
  destruct (nth_error a i) as [row|] eqn:Hrow; cbn [bind] in H; [|discriminate].
  destruct (set_nth row j x) as [row'|e] eqn:Hrow'; cbn [bind] in H; [|discriminate].
  rewrite (nth_error_set_nth a i row' a' i' H).
  destruct (Nat.eqb_spec i' i) as [->|Hi]; cbn [andb]; [|reflexivity].
  rewrite (nth_error_set_nth row j x row' j' Hrow'), Hrow.
  destruct (j' =? j)%nat; reflexivity.
Qed.

Lemma apply_writes_get2 (ws : list cell) :
  forall a a' i j,
    apply_writes ws a = Ok a' ->
    get2 a' i j = writes_get ws i j (get2 a i j).
Proof.
  induction ws as [|[[i0 j0] x] ws IH]; intros a a' i j H; cbn [apply_writes] in H.
  - injection H as <-. reflexivity.
  - destruct (set2 a i0 j0 x) as [a1|e] eqn:E; cbn [bind] in H; [|discriminate].
    rewrite (IH a1 a' i j H), (get2_set2 a a1 i0 j0 x i j E). reflexivity.
Qed.

Lemma writes_get_default (ws : list cell) (i j : nat) :
  forall old,
    writes_get ws i j old
    = match writes_get ws i j None with Some v => Some v | None => old end.
Proof.
  induction ws as [|[[i0 j0] x] ws IH]; intros old; cbn [writes_get]; [reflexivity|].
  destruct ((i =? i0) && (j =? j0))%nat.
  - rewrite (IH (Some x)). destruct (writes_get ws i j None); reflexivity.
  - apply IH.
Qed.

Lemma writes_get_twice (ws : list cell) (i j : nat) (old : option fl) :
  writes_get ws i j (writes_get ws i j old) = writes_get ws i j old.
Proof.
  rewrite (writes_get_default ws i j (writes_get ws i j old)).
  rewrite (writes_get_default ws i j old).
  destruct (writes_get ws i j None); reflexivity.
Qed.

(** Two arrays with the same row lengths and the same cells are equal. *)
Lemma matrix_ext (a b : matrix) :
  dims a = dims b -> (forall i j, get2 a i j = get2 b i j) -> a = b.
Proof.
  intros Hd Hg. apply nth_error_ext. intros i.
  assert (Hi : nth_error (dims a) i = nth_error (dims b) i) by congruence.
  unfold dims in Hi. rewrite !nth_error_map in Hi.
  specialize (Hg i). unfold get2 in Hg.
  destruct (nth_error a i) as [ra|], (nth_error b i) as [rb|];
    cbn [option_map] in Hi; try discriminate; [|reflexivity].
  f_equal. apply nth_error_ext. exact Hg.
Qed.

(** Writing the same cells again changes nothing. *)
Lemma apply_writes_idempotent (ws : list cell) (a a1 : matrix) :
  apply_writes ws a = Ok a1 -> apply_writes ws a1 = Ok a1.
Proof.
  intros H.
  pose proof (apply_writes_same_dims ws a a1 (apply_writes_dims ws a a1 H)) as H1.
  rewrite H in H1. destruct H1 as [a2 H2]. rewrite H2. f_equal.
  apply matrix_ext.
  - apply (apply_writes_dims ws a1 a2 H2).
  - intros i j. rewrite (apply_writes_get2 ws a1 a2 i j H2).
    rewrite (apply_writes_get2 ws a a1 i j H). apply writes_get_twice.
Qed.

Lemma apply_writes_app (ws1 ws2 : list cell) (a : matrix) :
  apply_writes (ws1 ++ ws2) a
  = let* a1 := apply_writes ws1 a in apply_writes ws2 a1.
Proof.
  revert a. induction ws1 as [|[[i j] x] ws1 IH]; intros a; cbn [app apply_writes bind].
  - reflexivity.
  - destruct (set2 a i j x); cbn [bind]; [apply IH | reflexivity].
Qed.

Lemma set_squared_distances_same (s : Rotation) :
  set_squared_distances s (self_squared_distances s) = s.
Proof. destruct s; reflexivity. Qed.

Lemma set_squared_distances_twice (s : Rotation) (d d' : matrix) :
  set_squared_distances (set_squared_distances s d) d' = set_squared_distances s d'.
Proof. destruct s; reflexivity. Qed.

Lemma apply_writes_raise (ws : list cell) (a : matrix) (e : exn) :
  apply_writes ws a = Raise e -> e = IndexError.
Proof.
  revert a. induction ws as [|[[i j] x] ws IH]; intros a H; cbn [apply_writes] in H;
    [discriminate|].
  destruct (set2_total a i j x) as [Hok Hbad].
  destruct (cell_in_dims (dims a) i j).
  - destruct (Hok eq_refl) as [a1 Ha1]. rewrite Ha1 in H. eapply IH. exact H.
  - rewrite (Hbad eq_refl) in H. cbn in H. congruence.
Qed.

Section Plan.

Variable A : Type.
Variable plan : A -> Rotation -> result (list cell).
Variable body : A -> Rotation -> result unit * Rotation.

Hypothesis body_plan : forall a s,
  body a s =
  match plan a s with
  | Raise e => (Raise e, s)
  | Ok ws =>
      match apply_writes ws (self_squared_distances s) with
      | Raise e => (Raise e, s)
      | Ok d => (Ok tt, set_squared_distances s d)
      end
  end.

Hypothesis plan_odc : forall a s t,
  only_distances_changed s t -> plan a t = plan a s.

(** A run of the loop is a fixed list of writes and a fixed outcome: from
    any other buffer of the same row lengths it writes the same cells and
    ends the same way. *)
Lemma for_each_plan (l : list A) :
  forall s r s',
    for_each l body s = (r, s') ->
    exists ws,
      apply_writes ws (self_squared_distances s) = Ok (self_squared_distances s') /\
      only_distances_changed s s' /\
      forall t,
        only_distances_changed s t ->
        dims (self_squared_distances t) = dims (self_squared_distances s) ->
        exists d,
          apply_writes ws (self_squared_distances t) = Ok d /\
          for_each l body t = (r, set_squared_distances t d).
Proof.
  induction l as [|a l IH]; intros s r s' H; cbn [for_each] in H.
  - injection H as <- <-. exists []. split; [reflexivity|]. split; [apply odc_refl|].
    intros t _ _. exists (self_squared_distances t). split; [reflexivity|].
    cbn [for_each]. rewrite set_squared_distances_same. reflexivity.
  - rewrite body_plan in H.
    destruct (plan a s) as [w|e] eqn:Hplan.
    2:{ injection H as <- <-. exists []. split; [reflexivity|]. split; [apply odc_refl|].
        intros t Ht _. exists (self_squared_distances t). split; [reflexivity|].
        cbn [for_each]. rewrite body_plan, (plan_odc a s t Ht), Hplan.
        rewrite set_squared_distances_same. reflexivity. }
    destruct (apply_writes w (self_squared_distances s)) as [d1|e] eqn:Hw.
    2:{ injection H as <- <-. exists []. split; [reflexivity|]. split; [apply odc_refl|].
        intros t Ht Hd. exists (self_squared_distances t). split; [reflexivity|].
        cbn [for_each]. rewrite body_plan, (plan_odc a s t Ht), Hplan.
        pose proof (apply_writes_same_dims w _ _ Hd) as Hs. rewrite Hw in Hs.
        rewrite Hs, set_squared_distances_same. reflexivity. }
    destruct (IH _ _ _ H) as (ws1 & Hws1 & Hodc1 & Hrun1).
    cbn [self_squared_distances set_squared_distances] in Hws1.
    exists (w ++ ws1). split; [|split].
    + rewrite apply_writes_app, Hw. cbn [bind].
      replace (self_squared_distances (set_squared_distances s d1)) with d1 in Hws1
        by (destruct s; reflexivity).
      exact Hws1.
    + eapply odc_trans; [apply odc_set | exact Hodc1].
    + intros t Ht Hd.
      pose proof (apply_writes_same_dims w _ _ Hd) as Hs. rewrite Hw in Hs.
      destruct Hs as [d1' Hd1'].
      destruct (Hrun1 (set_squared_distances t d1')) as (d & Hd2 & Hrun2).
      * rewrite Ht. rewrite !set_squared_distances_twice.
        unfold only_distances_changed. rewrite set_squared_distances_twice.
        destruct s; reflexivity.
      * replace (self_squared_distances (set_squared_distances t d1')) with d1'
          by (destruct t; reflexivity).
        replace (self_squared_distances (set_squared_distances s d1)) with d1
          by (destruct s; reflexivity).
        rewrite (apply_writes_dims _ _ _ Hd1'), (apply_writes_dims _ _ _ Hw). exact Hd.
      * replace (self_squared_distances (set_squared_distances t d1')) with d1' in Hd2
          by (destruct t; reflexivity).
        exists d. split.
        -- rewrite apply_writes_app, Hd1'. exact Hd2.
        -- cbn [for_each]. rewrite body_plan, (plan_odc a s t Ht), Hplan, Hd1'.
           rewrite Hrun2, set_squared_distances_twice. reflexivity.
Qed.

(** Running the loop again from the state it reached ends the same way
    and leaves that state as it is. *)
Lemma for_each_plan_twice (l : list A) (s s' : Rotation) (r : result unit) :
  for_each l body s = (r, s') -> for_each l body s' = (r, s').
Proof.
  intros H. destruct (for_each_plan l s r s' H) as (ws & Hws & Hodc & Hrun).
  destruct (Hrun s' Hodc (apply_writes_dims _ _ _ Hws)) as (d & Hd & Hrun').
  rewrite (apply_writes_idempotent ws _ _ Hws) in Hd. injection Hd as <-.
  rewrite set_squared_distances_same in Hrun'. exact Hrun'.
Qed.

End Plan.

Lemma for_each_app {A S : Type} (body : A -> S -> result unit * S) (l1 l2 : list A) :
  forall s,
    for_each (l1 ++ l2) body s =
    match for_each l1 body s with
    | (Ok _, s') => for_each l2 body s'
    | (Raise e, s') => (Raise e, s')
    end.
Proof.
  induction l1 as [|a l1 IH]; intros s; cbn [app for_each]; [reflexivity|].
  destruct (body a s) as [[u|e] s1]; [apply IH | reflexivity].
Qed.

Lemma for_each_map {A B S : Type} (f : A -> B) (body : B -> S -> result unit * S)
  (l : list A) :
  forall s, for_each (map f l) body s = for_each l (fun a => body (f a)) s.
Proof.
  induction l as [|a l IH]; intros s; cbn [map for_each]; [reflexivity|].
  destruct (body (f a) s) as [[u|e] s1]; [apply IH | reflexivity].
Qed.

(** The double loop visits the pairs of groups in the order of
    [list_prod]. *)
Lemma for_each_nested {A B S : Type} (body : A -> B -> S -> result unit * S)
  (l1 : list A) (l2 : list B) :
  forall s,
    for_each l1 (fun a => for_each l2 (body a)) s
    = for_each (list_prod l1 l2) (fun ab => body (fst ab) (snd ab)) s.
Proof.
  induction l1 as [|a l1 IH]; intros s; cbn [for_each list_prod]; [reflexivity|].
  rewrite for_each_app, for_each_map. cbn [fst snd].
  replace (for_each l2 (fun a0 : B => body a a0) s) with (for_each l2 (body a) s)
    by reflexivity.
  destruct (for_each l2 (body a) s) as [[u|e] s1]; [apply IH | reflexivity].
Qed.

Lemma analytical_step_plan eigh m rp s :
  analytical_step eigh m (fst rp) (snd rp) s =
  match analytical_plan eigh m rp s with
  | Raise e => (Raise e, s)
  | Ok ws =>
      match apply_writes ws (self_squared_distances s) with
      | Raise e => (Raise e, s)
      | Ok d => (Ok tt, set_squared_distances s d)
      end
  end.
Proof.
  destruct rp as [ri pi]. unfold analytical_step, analytical_plan, setitem_ix.
  cbn [fst snd].
  destruct (analytical_block eigh s m ri pi) as [V|e]; cbn [bind]; [|reflexivity].
  destruct (broadcastable _ _); reflexivity.
Qed.

Lemma analytical_plan_odc eigh m rp s t :
  only_distances_changed s t ->
  analytical_plan eigh m rp t = analytical_plan eigh m rp s.
Proof.
  intros H. rewrite H. destruct s. reflexivity.
Qed.

(** The analytical path, called again with the same match matrix from the
    state the first call left, ends the same way (the same matrix, or the
    same exception) and leaves the state as it is. *)
Lemma analytical_solver_idempotent eigh self m r self' :
  analytical_solver eigh self m = (r, self') ->
  analytical_solver eigh self' m = (r, self').
Proof.
  intros H.
  assert (Hodc : only_distances_changed self self').
  { pose proof (analytical_solver_odc eigh self m) as Ho. rewrite H in Ho. exact Ho. }
  assert (HM : self_M self' = self_M self) by (apply odc_M; exact Hodc).
  assert (HY : self_Y self' = self_Y self).
  { rewrite Hodc. destruct self; reflexivity. }
  unfold analytical_solver in *. rewrite HM, HY.
  destruct (getitem _ 0) as [ref|e]; [|injection H as <- <-; reflexivity].
  destruct (take _ ref) as [Y0|e]; [|injection H as <- <-; reflexivity].
  rewrite for_each_nested in H |- *.
  match type of H with context [for_each ?l ?b ?s] =>
    destruct (for_each l b s) as [ru s1] eqn:Hloop end.
  assert (Hs1 : s1 = self') by (destruct ru; injection H as _ <-; reflexivity).
  subst s1.
  match type of Hloop with for_each ?l ?b ?s = _ =>
    pose proof (for_each_plan_twice _ (analytical_plan eigh m) b
                  (fun a s0 => analytical_step_plan eigh m a s0)
                  (analytical_plan_odc eigh m) l s _ _ Hloop) as Htwice end.
  rewrite Htwice. exact H.
Qed.

(** X10: on the analytical path [Score] is repeatable: a second call with
    the same match matrix, from the state the first call left, ends the
    same way (the same matrix or the same exception) and leaves that state
    unchanged. *)
Lemma Score_analytical_idempotent eigh step self m r self' :
  self_score self = analytical ->
  Score eigh step self m = (r, self') ->
  Score eigh step self' m = (r, self').
Proof.
  intros Ha H.
  assert (Ha' : self_score self' = analytical).
  { pose proof (Score_odc eigh step self m) as Ho. rewrite H in Ho.
    cbn [snd] in Ho. rewrite (odc_score _ _ Ho). exact Ha. }
  unfold Score in *. rewrite Ha in H. rewrite Ha'.
  exact (analytical_solver_idempotent eigh self m r self' H).
Qed.

(** C6: the code at the failing input.  On two rigid groups per side
    [Score] takes the numerical path and raises on the first call and
    again on the second; no matrix is returned either time and the
    transform estimate stays the initial one. *)
Theorem numerical_Score_twice_never_returns :
  self_score (rotation_of example_multi) = numerical /\
  fst (Score eigh_last_axis slsqp_stop (rotation_of example_multi) match_ones4)
  = Raise IndexError /\
  fst (Score eigh_last_axis slsqp_stop
         (snd (Score eigh_last_axis slsqp_stop (rotation_of example_multi) match_ones4))
         match_ones4)
  = Raise IndexError /\
  self_q (snd (Score eigh_last_axis slsqp_stop (rotation_of example_multi) match_ones4))
  = self_q (rotation_of example_multi).
Proof. vm_compute. repeat split. Qed.

Lemma transform_unit_quaternion_proper_rotation_witness :
  0 * 0 + 0 * 0 + 0 * 0 + 1 * 1 == 1 /\
  proper_rotation (fst (transform (quat 0 0 0 1) (f0, f0, f0, f0))).
Proof.
  split; [reflexivity|].
  apply (transform_unit_quaternion_proper_rotation 0 0 0 1 (f0, f0, f0, f0)).
  reflexivity.
Defined.

(** ** Further properties of the code *)

Ltac fl_eq_ring :=
  repeat split; (do 2 eexists; split; [reflexivity | split; [reflexivity | ring]]).

(** X1: the matrices of [makeW] and [makeQ] commute: for any two
    quaternions [r] and [s] with finite components,
    [W.dot(Q)] equals [Q.dot(W)], for [W] built by [makeW] from
    [r] and [Q] built by [makeQ] from [s]. *)
Theorem makeW_makeQ_commute (r1 r2 r3 r4 s1 s2 s3 s4 : Q) :
  mat4_Forall2 fl_eq
    (mat4_dot (makeW (quat r1 r2 r3 r4)) (makeQ (quat s1 s2 s3 s4)))
    (mat4_dot (makeQ (quat s1 s2 s3 s4)) (makeW (quat r1 r2 r3 r4))).
Proof. unfold quat. cbn. fl_eq_ring. Qed.

(** X2: the columns of the matrices [W] and [Q] that [makeW] and [makeQ]
    build from a quaternion [r] are orthogonal and all of squared length
    [|r|^2]: [W.T.dot(W)] and [Q.T.dot(Q)] both equal
    [|r|^2] times the 4x4 identity. *)
Theorem makeW_makeQ_columns_orthogonal (r1 r2 r3 r4 : Q) :
  let n := Fin (r1 * r1 + r2 * r2 + r3 * r3 + r4 * r4) in
  mat4_Forall2 fl_eq
    (mat4_dot (mat4_T (makeW (quat r1 r2 r3 r4))) (makeW (quat r1 r2 r3 r4)))
    (mat4_scalar n) /\
  mat4_Forall2 fl_eq
    (mat4_dot (mat4_T (makeQ (quat r1 r2 r3 r4))) (makeQ (quat r1 r2 r3 r4)))
    (mat4_scalar n).
Proof. unfold quat, mat4_scalar, f0. cbn. split; fl_eq_ring. Qed.

(** X3: [transform] returns the same rotation matrix and the same
    translation for the dual quaternion [(-r, -s)] as for [(r, s)]. *)
Theorem transform_sign_invariant (r1 r2 r3 r4 s1 s2 s3 s4 : Q) :
  let r := quat r1 r2 r3 r4 in
  let s := quat s1 s2 s3 s4 in
  mat3_Forall2 fl_eq (fst (transform (vec4_map fl_opp r) (vec4_map fl_opp s)))
                     (fst (transform r s)) /\
  vec3_Forall2 fl_eq (snd (transform (vec4_map fl_opp r) (vec4_map fl_opp s)))
                     (snd (transform r s)).
Proof. unfold quat. cbn. split; fl_eq_ring. Qed.

(** X4: the component that [transform] drops from [Wt_r.dot(s)] when it
    keeps [[:3]] is the inner product of [r] and [s], the quantity the
    constraint [r.T*s = 0] sets to zero; the translation is the first three
    components. *)
Theorem transform_dropped_component (r1 r2 r3 r4 s1 s2 s3 s4 : Q) :
  let r := quat r1 r2 r3 r4 in
  let s := quat s1 s2 s3 s4 in
  fl_eq (last4 (mat4_dot_vec (mat4_T (makeW r)) s)) (dot4 r s) /\
  snd (transform r s) = vec4_head3 (mat4_dot_vec (mat4_T (makeW r)) s).
Proof. unfold quat. cbn. split; [|reflexivity]. fl_eq_ring. Qed.

(** X5: for the identity rotation [r = (0,0,0,1)], [transform(r, s)]
    returns the 3x3 identity matrix and the translation [(s1, s2, s3)]. *)
Theorem transform_identity_quaternion (s1 s2 s3 s4 : Q) :
  is_identity3 (fst (transform (quat 0 0 0 1) (quat s1 s2 s3 s4))) /\
  vec3_Forall2 fl_eq (snd (transform (quat 0 0 0 1) (quat s1 s2 s3 s4)))
                     (Fin s1, Fin s2, Fin s3).
Proof.
  unfold quat. cbn. split.
  - repeat split; (eexists; split; [reflexivity | ring]).
  - fl_eq_ring.
Qed.

Lemma broadcastable_transposed (p r : nat) :
  broadcastable (p, r) (r, p) = true <-> p = r.
Proof.
  unfold broadcastable. rewrite andb_true_iff, !orb_true_iff, !Nat.eqb_eq. lia.
Qed.

(** X6: one pass of the loop body of [analytical_solver] needs as many
    atoms in the reactant group as in the product group.  The fitted block
    has shape [(len(product_indices), len(reactant_indices))] and is
    assigned to a slot of shape [(len(reactant_indices),
    len(product_indices))]: whenever the fit itself succeeds and the two
    lengths differ, the assignment raises ValueError and the scorer is left
    unchanged. *)
Theorem analytical_step_needs_square_block
  (eigh : mat4 -> result (vec4 * mat4)) (m : matrix)
  (reactant_indices product_indices : list nat) (self : Rotation) (V : matrix)
  (Hfit : analytical_block eigh self m reactant_indices product_indices = Ok V)
  (Hsizes : length reactant_indices <> length product_indices) :
  analytical_step eigh m reactant_indices product_indices self
  = (Raise ValueError, self).
Proof.
  unfold analytical_step, setitem_ix. rewrite Hfit.
  destruct (broadcastable _ _) eqn:Hb; [|reflexivity].
  apply broadcastable_transposed in Hb. congruence.
Qed.

Lemma analytical_step_needs_square_block_witness :
  exists V,
    analytical_block eigh_last_axis (rotation_of example_uneven) match_first_pair
      [0%nat] [0; 1]%nat = Ok V /\
    analytical_solver eigh_last_axis (rotation_of example_uneven) match_first_pair
    = (Raise ValueError, rotation_of example_uneven).
Proof.
  eexists. split; [vm_compute; reflexivity|].
  unfold analytical_solver.
  assert (Hstep :
    analytical_step eigh_last_axis match_first_pair [0%nat] [0; 1]%nat
      (rotation_of example_uneven) = (Raise ValueError, rotation_of example_uneven)).
  { eapply analytical_step_needs_square_block; [vm_compute; reflexivity | cbn; lia]. }
  change (reactant_subset_indices (self_M (rotation_of example_uneven))) with [[0%nat]].
  change (product_subset_indices (self_M (rotation_of example_uneven))) with [[0; 1]%nat].
  cbn [getitem nth_error].
  change (take (self_Y (rotation_of example_uneven)) [0%nat]) with (Ok [coord 0 0 0]).
  cbn [for_each]. rewrite Hstep. reflexivity.
Defined.

(** *** Which cells a block assignment writes *)

Lemma writes_get_none (ws : list cell) (r c : nat) :
  forall old, (forall x, ~ In (r, c, x) ws) -> writes_get ws r c old = old.
Proof.
  induction ws as [|[[i j] x] ws IH]; intros old H; cbn [writes_get]; [reflexivity|].
  destruct (Nat.eqb_spec r i) as [->|Hr]; cbn [andb].
  - destruct (Nat.eqb_spec c j) as [->|Hc].
    + exfalso. apply (H x). left. reflexivity.
    + apply IH. intros y Hy. apply (H y). right. exact Hy.
  - apply IH. intros y Hy. apply (H y). right. exact Hy.
Qed.

Lemma writes_get_unique (ws : list cell) (r c : nat) (x : fl) :
  forall old,
    (forall y, In (r, c, y) ws -> y = x) ->
    writes_get ws r c old = Some x \/
    (writes_get ws r c old = old /\ forall y, ~ In (r, c, y) ws).
Proof.
  induction ws as [|[[i j] y] ws IH]; intros old Huniq; cbn [writes_get].
  - right. split; [reflexivity | intros y []].
  - assert (Huniq' : forall y0, In (r, c, y0) ws -> y0 = x)
      by (intros y0 Hy0; apply Huniq; right; exact Hy0).
    destruct (Nat.eqb_spec r i) as [->|Hr]; cbn [andb].
    + destruct (Nat.eqb_spec c j) as [->|Hc].
      * assert (y = x) by (apply Huniq; left; reflexivity). subst y.
        left. destruct (IH (Some x) Huniq') as [H|[H _]]; exact H.
      * destruct (IH old Huniq') as [H|[H Hn]]; [left; exact H|].
        right. split; [exact H|]. intros y0 [E|Hy0]; [congruence | exact (Hn y0 Hy0)].
    + destruct (IH old Huniq') as [H|[H Hn]]; [left; exact H|].
      right. split; [exact H|]. intros y0 [E|Hy0]; [congruence | exact (Hn y0 Hy0)].
Qed.

Lemma In_enumerate_from {A : Type} (l : list A) :
  forall start i a,
    In (i, a) (combine (seq start (length l)) l) <->
    (start <= i)%nat /\ nth_error l (i - start) = Some a.
Proof.
  induction l as [|h t IH]; intros start i a; cbn [length seq combine].
  - split; [intros [] | intros [_ H]; destruct (i - start)%nat; discriminate].
  - cbn [In]. rewrite IH. split.
    + intros [E | [Hle Hn]].
      * injection E as <- <-. rewrite Nat.sub_diag. split; [lia | reflexivity].
      * split; [lia|]. replace (i - start)%nat with (S (i - S start)) by lia. exact Hn.
    + intros [Hle Hn]. destruct (Nat.eq_dec i start) as [->|Hne].
      * rewrite Nat.sub_diag in Hn. cbn in Hn. injection Hn as ->. left. reflexivity.
      * right. split; [lia|].
        replace (i - start)%nat with (S (i - S start)) in Hn by lia. exact Hn.
Qed.

Lemma In_enumerate {A : Type} (l : list A) (i : nat) (a : A) :
  In (i, a) (enumerate l) <-> nth_error l i = Some a.
Proof.
  unfold enumerate. rewrite In_enumerate_from, Nat.sub_0_r.
  split; [intros [_ H]; exact H | intros H; split; [lia | exact H]].
Qed.

(** The cells of [a[np.ix_(rows, cols)] = V]. *)
Lemma In_cell_writes (rows cols : list nat) (V : matrix) (vs : nat * nat)
  (r c : nat) (x : fl) :
  In (r, c, x) (cell_writes rows cols V vs) <->
  exists i j, nth_error rows i = Some r /\ nth_error cols j = Some c /\
              x = bcast_get V vs i j.
Proof.
  unfold cell_writes. rewrite in_flat_map. split.
  - intros ([i r'] & Hi & Hin). apply in_map_iff in Hin.
    destruct Hin as ([j c'] & E & Hj). injection E as -> -> <-.
    apply In_enumerate in Hi, Hj. eauto.
  - intros (i & j & Hi & Hj & ->). exists (i, r). split; [apply In_enumerate; exact Hi|].
    apply in_map_iff. exists (j, c). split; [reflexivity | apply In_enumerate; exact Hj].
Qed.

Lemma NoDup_nth_error_eq {A : Type} (l : list A) (i j : nat) (a : A) :
  NoDup l -> nth_error l i = Some a -> nth_error l j = Some a -> i = j.
Proof.
  intros Hnd Hi Hj. apply (proj1 (NoDup_nth_error l) Hnd).
  - apply nth_error_Some. congruence.
  - congruence.
Qed.

Lemma nth_error_sqdist_matrix rot trans X Y a b x y :
  nth_error X a = Some x -> nth_error Y b = Some y ->
  nth b (nth a (sqdist_matrix rot trans X Y) []) NaN = sqdist rot trans x y.
Proof.
  intros Hx Hy. unfold sqdist_matrix.
  assert (Hrow : nth_error (map (fun x0 => map (fun y0 => sqdist rot trans x0 y0) Y) X) a
                 = Some (map (fun y0 => sqdist rot trans x y0) Y))
    by (rewrite nth_error_map, Hx; reflexivity).
  rewrite (nth_error_nth _ _ _ Hrow).
  apply nth_error_nth. rewrite nth_error_map, Hy. reflexivity.
Qed.

Lemma mapM_nth_error {A B : Type} (f : A -> result B) (l : list A) :
  forall bs i a,
    mapM f l = Ok bs -> nth_error l i = Some a ->
    exists b, nth_error bs i = Some b /\ f a = Ok b.
Proof.
  induction l as [|h t IH]; intros bs i a H Hi; [destruct i; discriminate|].
  cbn [mapM] in H.
  destruct (f h) as [b|e] eqn:Hb; cbn [bind] in H; [|discriminate].
  destruct (mapM f t) as [bs'|e] eqn:Ht; cbn [bind] in H; [|discriminate].
  injection H as <-. destruct i as [|i]; cbn [nth_error] in *.
  - injection Hi as <-. eauto.
  - eapply IH; [reflexivity | exact Hi].
Qed.

Lemma take_nth_error {A : Type} (a : list A) (idx : list nat) (l : list A) i k :
  take a idx = Ok l -> nth_error idx i = Some k ->
  exists x, nth_error l i = Some x /\ nth_error a k = Some x.
Proof.
  intros H Hi. destruct (mapM_nth_error _ _ _ _ _ H Hi) as (x & Hx & Hg).
  exists x. split; [exact Hx|]. unfold getitem in Hg.
  destruct (nth_error a k); congruence.
Qed.

Lemma analytical_fit_form eigh X Y msub QtW WmQ V :
  analytical_fit eigh X Y msub QtW WmQ = Ok V ->
  exists rot trans, V = sqdist_matrix rot trans X Y.
Proof.
  unfold analytical_fit. intros H.
  destruct (py_assert _); cbn [bind] in H; [|discriminate].
  destruct (eigh _) as [eigen|]; cbn [bind] in H; [|discriminate].
  destruct (py_assert _); cbn [bind] in H; [|discriminate].
  destruct (transform _ _) as [rot trans]. injection H as <-. eauto.
Qed.

(** X7: what one returning pass of the loop body of [analytical_solver]
    writes, for index lists without repetition: the two groups have the
    same size, and the cell [(reactant_indices[a], product_indices[b])] of
    [squared_distances] holds the squared distance between the transformed
    product atom [product_indices[a]] and the reactant atom
    [reactant_indices[b]]; the block is written transposed with respect to
    the pair of atoms its cell names. *)
Theorem analytical_step_writes_transposed
  (eigh : mat4 -> result (vec4 * mat4)) (m : matrix)
  (reactant_indices product_indices : list nat) (self self' : Rotation) (u : unit)
  (Hstep : analytical_step eigh m reactant_indices product_indices self = (Ok u, self'))
  (Hri : NoDup reactant_indices) (Hpi : NoDup product_indices) :
  length reactant_indices = length product_indices /\
  exists rot trans,
    forall a b row col,
      nth_error reactant_indices a = Some row ->
      nth_error product_indices b = Some col ->
      exists pa rb x y,
        nth_error product_indices a = Some pa /\
        nth_error reactant_indices b = Some rb /\
        nth_error (self_X self) pa = Some x /\
        nth_error (self_Y self) rb = Some y /\
        get2 (self_squared_distances self') row col = Some (sqdist rot trans x y).
Proof.
  unfold analytical_step in Hstep.
  destruct (analytical_block eigh self m reactant_indices product_indices)
    as [V|] eqn:Hblock; [|discriminate].
  destruct (setitem_ix _ _ _ _ _) as [d|] eqn:Hset; [|discriminate].
  injection Hstep as _ <-. cbn [self_squared_distances set_squared_distances].
  unfold setitem_ix in Hset.
  destruct (broadcastable _ _) eqn:Hb; [|discriminate].
  apply broadcastable_transposed in Hb. split; [symmetry; exact Hb|].
  unfold analytical_block in Hblock.
  destruct (take (self_X self) product_indices) as [X|] eqn:EX;
    cbn [bind] in Hblock; [|discriminate].
  destruct (take (self_Y self) reactant_indices) as [Y|] eqn:EY;
    cbn [bind] in Hblock; [|discriminate].
  destruct (take_ix m _ _) as [msub|]; cbn [bind] in Hblock; [|discriminate].
  destruct (take_ix (self_Qt_dot_W self) _ _) as [QtW|];
    cbn [bind] in Hblock; [|discriminate].
  destruct (take_ix (self_W_minus_Q self) _ _) as [WmQ|];
    cbn [bind] in Hblock; [|discriminate].
  destruct (analytical_fit_form _ _ _ _ _ _ _ Hblock) as (rot & trans & ->).
  exists rot, trans. intros a b row col Ha Hbcol.
  assert (Hla : (a < length reactant_indices)%nat)
    by (apply nth_error_Some; congruence).
  assert (Hlb : (b < length product_indices)%nat)
    by (apply nth_error_Some; congruence).
  destruct (nth_error product_indices a) as [pa|] eqn:Hpa;
    [|apply nth_error_None in Hpa; lia].
  destruct (nth_error reactant_indices b) as [rb|] eqn:Hrb;
    [|apply nth_error_None in Hrb; lia].
  destruct (take_nth_error _ _ _ _ _ EX Hpa) as (x & HXa & Hx).
  destruct (take_nth_error _ _ _ _ _ EY Hrb) as (y & HYb & Hy).
  exists pa, rb, x, y. repeat (split; [first [reflexivity | assumption]|]).
  rewrite (apply_writes_get2 _ _ _ row col Hset).
  set (vs := (length product_indices, length reactant_indices)).
  assert (Hval : bcast_get (sqdist_matrix rot trans X Y) vs a b = sqdist rot trans x y).
  { unfold bcast_get, vs. cbn [fst snd].
    destruct (Nat.eqb_spec (length product_indices) 1) as [E1|E1];
      destruct (Nat.eqb_spec (length reactant_indices) 1) as [E2|E2];
      try lia.
    - assert (a = 0%nat) by lia. assert (b = 0%nat) by lia. subst a b.
      apply nth_error_sqdist_matrix; assumption.
    - apply nth_error_sqdist_matrix; assumption. }
  destruct (writes_get_unique
              (cell_writes reactant_indices product_indices
                 (sqdist_matrix rot trans X Y) vs)
              row col (sqdist rot trans x y)
              (get2 (self_squared_distances self) row col)) as [H|[_ Hn]].
  - intros v Hv. apply In_cell_writes in Hv.
    destruct Hv as (i & j & Hi & Hj & ->).
    rewrite (NoDup_nth_error_eq _ _ _ _ Hri Hi Ha).
    rewrite (NoDup_nth_error_eq _ _ _ _ Hpi Hj Hbcol). exact Hval.
  - exact H.
  - exfalso. apply (Hn (sqdist rot trans x y)). apply In_cell_writes.
    exists a, b. auto.
Qed.

Lemma analytical_step_writes_transposed_witness :
  exists self',
    analytical_step eigh_last_axis match_identity2 [0; 1]%nat [0; 1]%nat
      (rotation_of example_single) = (Ok tt, self') /\
    NoDup [0; 1]%nat /\
    exists rot trans,
      forall a b row col,
        nth_error [0; 1]%nat a = Some row ->
        nth_error [0; 1]%nat b = Some col ->
        exists pa rb x y,
          nth_error [0; 1]%nat a = Some pa /\
          nth_error [0; 1]%nat b = Some rb /\
          nth_error (self_X (rotation_of example_single)) pa = Some x /\
          nth_error (self_Y (rotation_of example_single)) rb = Some y /\
          get2 (self_squared_distances self') row col = Some (sqdist rot trans x y).
Proof.
  assert (Hnd : NoDup [0; 1]%nat).
  { constructor; [intros [E|[]]; discriminate|]. constructor; [intros []|constructor]. }
  eexists. split; [vm_compute; reflexivity|]. split; [exact Hnd|].
  refine (proj2 (analytical_step_writes_transposed eigh_last_axis match_identity2
                   [0; 1]%nat [0; 1]%nat (rotation_of example_single) _ tt _ Hnd Hnd)).
  vm_compute. reflexivity.
Defined.

Lemma for_each_rel {A S : Type} (R : S -> S -> Prop)
  (Rrefl : forall s, R s s) (Rtrans : forall a b c, R a b -> R b c -> R a c)
  (body : A -> S -> result unit * S) (l : list A)
  (Hbody : forall a s, In a l -> R s (snd (body a s))) :
  forall s, R s (snd (for_each l body s)).
Proof.
  induction l as [|a l IH]; intros s; cbn [for_each]; [apply Rrefl|].
  pose proof (Hbody a s (or_introl eq_refl)) as Ha.
  destruct (body a s) as [[u|e] s1]; cbn [snd] in *; [|exact Ha].
  eapply Rtrans; [exact Ha|]. apply IH. intros b s0 Hb. apply Hbody. right. exact Hb.
Qed.

Lemma setitem_ix_outside (a a' : matrix) (rows cols : list nat) (V : matrix)
  (vs : nat * nat) (i j : nat) :
  setitem_ix a rows cols V vs = Ok a' -> ~ (In i rows /\ In j cols) ->
  get2 a' i j = get2 a i j.
Proof.
  unfold setitem_ix. intros H Hout.
  destruct (broadcastable _ _); [|discriminate].
  rewrite (apply_writes_get2 _ _ _ i j H). apply writes_get_none.
  intros x Hx. apply In_cell_writes in Hx. destruct Hx as (k & l & Hk & Hl & _).
  apply Hout. split; eapply nth_error_In; eassumption.
Qed.

Lemma analytical_step_outside eigh m ri pi self i j :
  ~ (In i ri /\ In j pi) ->
  get2 (self_squared_distances (snd (analytical_step eigh m ri pi self))) i j
  = get2 (self_squared_distances self) i j.
Proof.
  intros Hout. unfold analytical_step.
  destruct (analytical_block eigh self m ri pi) as [V|]; [|reflexivity].
  destruct (setitem_ix _ _ _ _ _) as [d|] eqn:Hset; [|reflexivity].
  cbn [snd self_squared_distances set_squared_distances].
  eapply setitem_ix_outside; eassumption.
Qed.

(** X8: [analytical_solver] writes only inside the blocks it fits: a
    cell [(i, j)] of [squared_distances] that is in no product of a
    reactant group and a product group holds after the call, returning or
    raising, what it held before. *)
Theorem analytical_solver_writes_only_blocks
  (eigh : mat4 -> result (vec4 * mat4)) (self : Rotation) (m : matrix) (i j : nat)
  (Hout : outside_blocks (self_M self) i j) :
  get2 (self_squared_distances (snd (analytical_solver eigh self m))) i j
  = get2 (self_squared_distances self) i j.
Proof.
  unfold analytical_solver.
  destruct (getitem _ 0); [|reflexivity].
  destruct (take _ _); [|reflexivity].
  set (R := fun s s' : Rotation =>
              get2 (self_squared_distances s') i j = get2 (self_squared_distances s) i j).
  assert (Hloop : forall s,
    R s (snd (for_each (reactant_subset_indices (self_M self))
                (fun ri => for_each (product_subset_indices (self_M self))
                             (fun pi => analytical_step eigh m ri pi)) s))).
  { apply (for_each_rel R); [reflexivity | unfold R; congruence |].
    intros ri s Hri.
    apply (for_each_rel R); [reflexivity | unfold R; congruence |].
    intros pi s0 Hpi. unfold R. apply analytical_step_outside.
    apply Hout; assumption. }
  specialize (Hloop self).
  destruct (for_each _ _ self) as [[u|e] s']; exact Hloop.
Qed.

Lemma analytical_solver_writes_only_blocks_witness :
  outside_blocks (self_M (rotation_of example_uneven)) 1 1 /\
  get2 (self_squared_distances
          (snd (analytical_solver eigh_last_axis (rotation_of example_uneven)
                  match_first_pair))) 1 1
  = get2 (self_squared_distances (rotation_of example_uneven)) 1 1.
Proof.
  assert (Hout : outside_blocks (self_M (rotation_of example_uneven)) 1 1).
  { intros ri pi Hri Hpi [Hi _]. cbn in Hri. destruct Hri as [<-|[]].
    cbn in Hi. destruct Hi as [E|[]]. discriminate. }
  split; [exact Hout|].
  apply (analytical_solver_writes_only_blocks eigh_last_axis
           (rotation_of example_uneven) match_first_pair 1 1 Hout).
Defined.

Lemma for_each_no_inner {A B S : Type} (body : A -> B -> S -> result unit * S)
  (l : list A) (s : S) :
  for_each l (fun a => for_each [] (body a)) s = (Ok tt, s).
Proof. induction l as [|a l IH]; cbn [for_each]; [reflexivity | exact IH]. Qed.

(** X9: with no product group (and a first reactant group whose indices
    are in range) [analytical_solver] fits nothing: it returns the
    [squared_distances] buffer as it is and leaves the scorer unchanged. *)
Theorem analytical_solver_no_product_groups
  (eigh : mat4 -> result (vec4 * mat4)) (self : Rotation) (m : matrix)
  (ref_indices : list nat) (Y0 : list vec3)
  (Hnone : product_subset_indices (self_M self) = [])
  (Href : getitem (reactant_subset_indices (self_M self)) 0 = Ok ref_indices)
  (HY0 : take (self_Y self) ref_indices = Ok Y0) :
  analytical_solver eigh self m = (Ok (self_squared_distances self), self).
Proof.
  unfold analytical_solver. rewrite Href, HY0, Hnone.
  rewrite for_each_no_inner. reflexivity.
Qed.

Lemma analytical_solver_no_product_groups_witness :
  analytical_solver eigh_last_axis (rotation_of example_no_products) match_identity2
  = (Ok (zero_matrix 2 2), rotation_of example_no_products).
Proof.
  exact (analytical_solver_no_product_groups eigh_last_axis
           (rotation_of example_no_products) match_identity2
           [0; 1]%nat [coord 0 0 0; coord 1 0 0] eq_refl eq_refl eq_refl).
Defined.

Lemma Score_analytical_idempotent_witness :
  exists out self',
    self_score (rotation_of example_single) = analytical /\
    Score eigh_last_axis slsqp_stop (rotation_of example_single) match_identity2
    = (Ok out, self') /\
    Score eigh_last_axis slsqp_stop self' match_identity2 = (Ok out, self').
Proof.
  eexists _, _. split; [reflexivity|]. split; [vm_compute; reflexivity|].
  apply (Score_analytical_idempotent eigh_last_axis slsqp_stop
           (rotation_of example_single) match_identity2 _ _ eq_refl).
  vm_compute. reflexivity.
Defined.

(** X11: a call of [Score] on a scorer built by [__init__], on either
    path and whether it returns or raises, stores no transform estimate:
    [self.q] stays the list of identity dual quaternions of [__init__], and
    the coordinates and the precomputed arrays are unchanged. *)
Theorem Score_never_stores_transforms
  (eigh : mat4 -> result (vec4 * mat4))
  (step : list fl -> fl -> list fl -> list bound -> option (list fl))
  (M : Ordering) (self : Rotation) (m : matrix)
  (Hinit : Rotation_init M = Ok self) :
  let self' := snd (Score eigh step self m) in
  self_q self' = self_q self /\
  Forall (fun d => d = identity_dualquat) (self_q self') /\
  self_X self' = self_X self /\ self_Y self' = self_Y self /\
  self_Qt_dot_W self' = self_Qt_dot_W self /\
  self_W_minus_Q self' = self_W_minus_Q self.
Proof.
  intros self'. pose proof (Score_odc eigh step self m) as Ho. fold self' in Ho.
  assert (Hq : self_q self' = self_q self) by (apply odc_q; exact Ho).
  split; [exact Hq|]. split.
  - rewrite Hq. unfold Rotation_init in Hinit.
    unfold initialize_quaternions in Hinit.
    destruct (_ <? 0)%Z; cbn [bind] in Hinit; [discriminate|].
    cbn [interaction_arrays] in Hinit. injection Hinit as <-. cbn [self_q].
    apply Forall_forall. intros d Hd. apply repeat_spec in Hd. exact Hd.
  - rewrite Ho. destruct self. cbn. auto.
Qed.

Lemma Score_never_stores_transforms_witness :
  Rotation_init example_single = Ok (rotation_of example_single) /\
  self_q (snd (Score eigh_last_axis slsqp_stop (rotation_of example_single)
                 match_identity2))
  = self_q (rotation_of example_single).
Proof.
  split; [reflexivity|].
  exact (proj1 (Score_never_stores_transforms eigh_last_axis slsqp_stop
                  example_single (rotation_of example_single) match_identity2
                  eq_refl)).
Defined.

Lemma setitem_ix_dims (a a' : matrix) rows cols V vs :
  setitem_ix a rows cols V vs = Ok a' -> dims a' = dims a.
Proof.
  unfold setitem_ix. destruct (broadcastable _ _); [|discriminate].
  apply apply_writes_dims.
Qed.

Lemma analytical_step_dims eigh m ri pi self :
  dims (self_squared_distances (snd (analytical_step eigh m ri pi self)))
  = dims (self_squared_distances self).
Proof.
  unfold analytical_step.
  destruct (analytical_block eigh self m ri pi) as [V|]; [|reflexivity].
  destruct (setitem_ix _ _ _ _ _) as [d|] eqn:Hset; [|reflexivity].
  cbn [snd self_squared_distances set_squared_distances].
  eapply setitem_ix_dims. eassumption.
Qed.

Lemma objective_outer_dims M rot trans ref Y0 jp self :
  dims (self_squared_distances (snd (objective_outer M rot trans ref Y0 jp self)))
  = dims (self_squared_distances self).
Proof.
  unfold objective_outer. destruct jp as [j pi].
  destruct (take (self_X self) pi) as [X|]; [|reflexivity].
  destruct (getitem trans j) as [tj|]; cbn [bind]; [|reflexivity].
  destruct (getitem rot j) as [rj|]; cbn [bind]; [|reflexivity].
  destruct (setitem_ix _ _ _ _ _) as [d|] eqn:Hset; [|reflexivity].
  apply setitem_ix_dims in Hset. rewrite <- Hset.
  set (R := fun s s' : Rotation =>
              dims (self_squared_distances s') = dims (self_squared_distances s)).
  change (R (set_squared_distances self d)
            (snd (for_each (tl (reactant_subset_indices (self_M self)))
                    (objective_inner M rot trans j X pi)
                    (set_squared_distances self d)))).
  apply (for_each_rel R); [reflexivity | unfold R; congruence |].
  intros g s _. unfold R.
  destruct (objective_inner_raises M rot trans j X pi g s) as (e & -> & _).
  reflexivity.
Qed.

Lemma objective_dims x m self :
  dims (self_squared_distances (snd (objective x m self)))
  = dims (self_squared_distances self).
Proof.
  unfold objective.
  match goal with |- context [match ?r with Ok _ => _ | Raise _ => _ end] =>
    destruct r as [[[[rot trans] ref] Y0]|e] end; [|reflexivity].
  set (R := fun s s' : Rotation =>
              dims (self_squared_distances s') = dims (self_squared_distances s)).
  assert (Hloop : forall l s,
            R s (snd (for_each l
                        (objective_outer (num_products (self_M self)) rot trans ref Y0)
                        s))).
  { intros l. apply (for_each_rel R); [reflexivity | unfold R; congruence |].
    intros jp s _. apply objective_outer_dims. }
  specialize (Hloop (enumerate (product_subset_indices (self_M self))) self).
  destruct (for_each _ _ self) as [[u|e] s']; cbn [snd] in *.
  - rewrite getattr_match_matrix. exact Hloop.
  - exact Hloop.
Qed.

Lemma minimize_dims step maxiter sc cons bounds m :
  forall x self,
    dims (self_squared_distances (snd (minimize step maxiter sc cons bounds m x self)))
    = dims (self_squared_distances self).
Proof.
  induction maxiter as [|n IH]; intros x self; cbn [minimize];
    (destruct (eval_constraints sc cons x) as [cv|]; [|reflexivity]);
    pose proof (objective_dims x m self) as H;
    (destruct (objective x m self) as [[fx|e] s']; cbn [snd] in *; [|exact H]).
  - exact H.
  - destruct (step x fx cv bounds); cbn [snd]; [|exact H].
    rewrite IH. exact H.
Qed.

(** X12: a call of [Score], on either path and whether it returns or
    raises, keeps the shape of the [squared_distances] buffer: the number
    of rows and the length of every row. *)
Theorem Score_keeps_buffer_shape
  (eigh : mat4 -> result (vec4 * mat4))
  (step : list fl -> fl -> list fl -> list bound -> option (list fl))
  (self : Rotation) (m : matrix) :
  dims (self_squared_distances (snd (Score eigh step self m)))
  = dims (self_squared_distances self).
Proof.
  unfold Score. destruct (self_score self).
  - unfold analytical_solver.
    destruct (getitem _ 0); [|reflexivity].
    destruct (take _ _); [|reflexivity].
    set (R := fun s s' : Rotation =>
                dims (self_squared_distances s') = dims (self_squared_distances s)).
    assert (Hloop : forall s,
      R s (snd (for_each (reactant_subset_indices (self_M self))
                  (fun ri => for_each (product_subset_indices (self_M self))
                               (fun pi => analytical_step eigh m ri pi)) s))).
    { apply (for_each_rel R); [reflexivity | unfold R; congruence |].
      intros ri s _.
      apply (for_each_rel R); [reflexivity | unfold R; congruence |].
      intros pi s0 _. apply analytical_step_dims. }
    specialize (Hloop self).
    destruct (for_each _ _ self) as [[u|e] s']; exact Hloop.
  - unfold numerical_solver.
    destruct (solver_setup _ _) as [[[sc cons] bounds]|]; [|reflexivity].
    match goal with |- context [minimize ?s ?n ?c ?k ?b ?mm ?x ?slf] =>
      pose proof (minimize_dims s n c k b mm x slf) as H;
      destruct (minimize s n c k b mm x slf) as [[ox|e] s'] end; cbn [snd] in H.
    + rewrite getattr_update_quaternions. exact H.
    + exact H.
Qed.

Lemma for_each_raise {A S : Type} (body : A -> S -> result unit * S) (l : list A) :
  forall s e s',
    for_each l body s = (Raise e, s') ->
    exists a s0 s1, In a l /\ body a s0 = (Raise e, s1).
Proof.
  induction l as [|a l IH]; intros s e s' H; cbn [for_each] in H; [discriminate|].
  destruct (body a s) as [[u|e1] s1] eqn:E.
  - destruct (IH _ _ _ H) as (b & s0 & s2 & Hb & Hr). exists b, s0, s2.
    split; [right; exact Hb | exact Hr].
  - injection H as <- <-. exists a, s, s1. split; [left; reflexivity | exact E].
Qed.

Lemma py_assert_raise (c : bool) (e : exn) :
  py_assert c = Raise e -> e = AssertionError.
Proof. unfold py_assert. destruct c; congruence. Qed.

Lemma analytical_fit_raise eigh X Y msub QtW WmQ e :
  analytical_fit eigh X Y msub QtW WmQ = Raise e ->
  e = AssertionError \/ exists A, eigh A = Raise e.
Proof.
  unfold analytical_fit. intros H.
  match type of H with context [bind (py_assert ?c) _] =>
    destruct (py_assert c) as [[]|e1] eqn:H1 end; cbn [bind] in H;
    [|injection H as <-; left; eapply py_assert_raise; eassumption].
  match type of H with context [bind (eigh ?A) _] =>
    destruct (eigh A) as [eigen|e2] eqn:H2 end; cbn [bind] in H;
    [|injection H as <-; right; eauto].
  match type of H with context [bind (py_assert ?c) _] =>
    destruct (py_assert c) as [[]|e3] eqn:H3 end; cbn [bind] in H;
    [|injection H as <-; left; eapply py_assert_raise; eassumption].
  destruct (transform _ _). discriminate.
Qed.

Lemma analytical_step_raise eigh m ri pi self e self' :
  analytical_step eigh m ri pi self = (Raise e, self') ->
  e = IndexError \/ e = ValueError \/ e = AssertionError \/
  exists A, eigh A = Raise e.
Proof.
  unfold analytical_step. intros H.
  destruct (analytical_block eigh self m ri pi) as [V|e1] eqn:Hblock.
  - unfold setitem_ix in H. destruct (broadcastable _ _).
    + destruct (apply_writes _ _) as [d|e2] eqn:Hw; [discriminate|].
      injection H as <- _. left. eapply apply_writes_raise. eassumption.
    + injection H as <- _. auto.
  - injection H as <- _. unfold analytical_block in Hblock.
    destruct (take (self_X self) pi) as [X|e0] eqn:E1; cbn [bind] in Hblock;
      [|injection Hblock as <-; left; eapply take_raise; eassumption].
    destruct (take (self_Y self) ri) as [Y|e0] eqn:E2; cbn [bind] in Hblock;
      [|injection Hblock as <-; left; eapply take_raise; eassumption].
    destruct (take_ix m ri pi) as [msub|e0] eqn:E3; cbn [bind] in Hblock;
      [|injection Hblock as <-; left; eapply take_ix_raise; eassumption].
    destruct (take_ix (self_Qt_dot_W self) ri pi) as [QtW|e0] eqn:E4;
      cbn [bind] in Hblock;
      [|injection Hblock as <-; left; eapply take_ix_raise; eassumption].
    destruct (take_ix (self_W_minus_Q self) ri pi) as [WmQ|e0] eqn:E5;
      cbn [bind] in Hblock;
      [|injection Hblock as <-; left; eapply take_ix_raise; eassumption].
    apply analytical_fit_raise in Hblock. tauto.
Qed.

(** X13: the exceptions of [analytical_solver]: when it raises, the
    exception is IndexError (an index out of range), ValueError (a block
    that does not fit its slot), AssertionError (one of the two assertions)
    or an exception that [numpy.linalg.eigh] raised. *)
Theorem analytical_solver_exceptions
  (eigh : mat4 -> result (vec4 * mat4)) (self self' : Rotation) (m : matrix)
  (e : exn)
  (Hraise : analytical_solver eigh self m = (Raise e, self')) :
  e = IndexError \/ e = ValueError \/ e = AssertionError \/
  exists A, eigh A = Raise e.
Proof.
  unfold analytical_solver in Hraise.
  destruct (getitem _ 0) as [ref|e0] eqn:E0;
    [|injection Hraise as <- _; left; eapply getitem_raise; eassumption].
  destruct (take _ ref) as [Y0|e0] eqn:E1;
    [|injection Hraise as <- _; left; eapply take_raise; eassumption].
  match type of Hraise with context [for_each ?l ?b ?s] =>
    destruct (for_each l b s) as [[u|e1] s1] eqn:Hloop end; [discriminate|].
  injection Hraise as <- _.
  apply for_each_raise in Hloop. destruct Hloop as (ri & s0 & s2 & _ & Hinner).
  apply for_each_raise in Hinner. destruct Hinner as (pi & s3 & s4 & _ & Hstep).
  eapply analytical_step_raise. eassumption.
Qed.

Lemma analytical_solver_exceptions_witness :
  analytical_solver eigh_last_axis (rotation_of example_single) (zero_matrix 2 2)
  = (Raise AssertionError, rotation_of example_single) /\
  (AssertionError = IndexError \/ AssertionError = ValueError \/
   AssertionError = AssertionError \/
   exists A, eigh_last_axis A = Raise AssertionError).
Proof.
  assert (H : analytical_solver eigh_last_axis (rotation_of example_single)
                (zero_matrix 2 2)
              = (Raise AssertionError, rotation_of example_single))
    by (vm_compute; reflexivity).
  split; [exact H|].
  exact (analytical_solver_exceptions eigh_last_axis _ _ _ _ H).
Defined.

(** X18: the objective handed to the optimizer never returns a value: at
    every state, for every match matrix and every scorer, it raises, and
    all it may have changed by then is the [squared_distances] buffer. *)
Theorem objective_never_returns (flat_q : list fl) (m : matrix) (self : Rotation) :
  exists e self',
    objective flat_q m self = (Raise e, self') /\
    only_distances_changed self self'.
Proof.
  pose proof (objective_odc flat_q m self) as Hodc.
  unfold objective in *.
  match goal with |- context [match ?r with Ok _ => _ | Raise _ => _ end] =>
    destruct r as [[[[rot trans] ref] Y0]|e] end; [|eauto].
  destruct (for_each _ _ self) as [[u|e] s']; [|eauto].
  rewrite getattr_match_matrix in *. eauto.
Qed.

Lemma flatten_q_cons (d : dualquat) (q : list dualquat) :
  flatten_q (d :: q) = dualquat_list d ++ flatten_q q.
Proof. reflexivity. Qed.

Lemma skipn_block {A : Type} (b rest : list A) (k : nat) :
  skipn (length b + k) (b ++ rest) = skipn k rest.
Proof.
  induction b as [|h t IH]; cbn [length app Nat.add skipn]; [reflexivity | exact IH].
Qed.

(** The slots of transform [j] in the flat state: [x[8j:8j+4]] is [s_j]
    and [x[8j+4:8j+8]] is [r_j]. *)
Lemma slice_flatten_q (q : list dualquat) :
  forall j s r,
    nth_error q j = Some (s, r) ->
    slice (flatten_q q) (8 * j) (8 * j + 4) = vec4_list s /\
    slice (flatten_q q) (8 * j + 4) (8 * j + 8) = vec4_list r.
Proof.
  induction q as [|d q IH]; intros j s r H; [destruct j; discriminate|].
  destruct j as [|j]; cbn [nth_error] in H.
  - injection H as ->. destruct s as [[[s1 s2] s3] s4], r as [[[r1 r2] r3] r4].
    split; reflexivity.
  - destruct (IH j s r H) as [Hs Hr]. rewrite flatten_q_cons.
    unfold slice in *.
    replace (8 * S j)%nat with (length (dualquat_list d) + 8 * j)%nat
      by (rewrite dualquat_list_length; lia).
    replace (length (dualquat_list d) + 8 * j + 4 - (length (dualquat_list d) + 8 * j))%nat
      with (8 * j + 4 - 8 * j)%nat by lia.
    replace (length (dualquat_list d) + 8 * j + 8
             - (length (dualquat_list d) + 8 * j + 4))%nat
      with (8 * j + 8 - (8 * j + 4))%nat by lia.
    rewrite <- Nat.add_assoc, !skipn_block. split; assumption.
Qed.

(** X15: what the two constraint functions compute when the loop
    variable [j] of [numerical_solver] holds the value [j]: on the
    flattened state, [r.T*r - 1] and [r.T*s] of transform [j], where [s]
    is stored in slots [8j..8j+3] and [r] in slots [8j+4..8j+7]. *)
Theorem constraint_functions_residuals
  (sc : scope) (q : list dualquat) (j : nat)
  (s1 s2 s3 s4 r1 r2 r3 r4 : Q)
  (Hj : sc_j sc = Some j)
  (Hq : nth_error q j = Some (quat s1 s2 s3 s4, quat r1 r2 r3 r4)) :
  exists v w,
    call_lambda sc lambda_rr (flatten_q q) = Ok (Scalar (Fin v)) /\
    v == r1 * r1 + r2 * r2 + r3 * r3 + r4 * r4 - 1 /\
    call_lambda sc lambda_rs (flatten_q q) = Ok (Scalar (Fin w)) /\
    w == r1 * s1 + r2 * s2 + r3 * s3 + r4 * s4.
Proof.
  destruct (slice_flatten_q q j _ _ Hq) as [Hs Hr].
  unfold call_lambda. rewrite Hj, Hs, Hr. unfold quat. cbn.
  eexists _, _. split; [reflexivity|]. split; [ring|].
  split; [reflexivity | ring].
Qed.

Lemma constraint_functions_residuals_witness :
  exists v w,
    call_lambda (mkScope 2 2 (Some 1%nat)) lambda_rr
      (flatten_q [identity_dualquat; identity_dualquat; identity_dualquat])
    = Ok (Scalar (Fin v)) /\
    v == 0 * 0 + 0 * 0 + 0 * 0 + 1 * 1 - 1 /\
    call_lambda (mkScope 2 2 (Some 1%nat)) lambda_rs
      (flatten_q [identity_dualquat; identity_dualquat; identity_dualquat])
    = Ok (Scalar (Fin w)) /\
    w == 0 * 0 + 0 * 0 + 0 * 0 + 1 * 0.
Proof.
  exact (constraint_functions_residuals (mkScope 2 2 (Some 1%nat))
           [identity_dualquat; identity_dualquat; identity_dualquat] 1
           0 0 0 0 0 0 0 1 eq_refl eq_refl).
Defined.

Lemma mapM_app {B C : Type} (f : B -> result C) (l1 l2 : list B) v1 v2 :
  mapM f l1 = Ok v1 -> mapM f l2 = Ok v2 -> mapM f (l1 ++ l2) = Ok (v1 ++ v2).
Proof.
  revert v1. induction l1 as [|h t IH]; intros v1 H1 H2; cbn [mapM app] in *.
  - injection H1 as <-. exact H2.
  - destruct (f h) as [c|]; cbn [bind] in *; [|discriminate].
    destruct (mapM f t) as [cs|]; cbn [bind] in *; [|discriminate].
    injection H1 as <-. rewrite (IH cs eq_refl H2). reflexivity.
Qed.

Lemma mapM_blocks {A B C : Type} (f : B -> result C) (b : list B) (vb : list C)
  (Hb : mapM f b = Ok vb) (l : list A) :
  mapM f (flat_map (fun _ => b) l) = Ok (flat_map (fun _ => vb) l).
Proof.
  induction l as [|a l IH]; cbn [flat_map]; [reflexivity|].
  apply mapM_app; assumption.
Qed.

Lemma flat_map_pair_repeat {A C : Type} (z : C) (l : list A) :
  flat_map (fun _ => [z; z]) l = repeat z (2 * length l).
Proof.
  induction l as [|a l IH]; [reflexivity|].
  cbn [flat_map length]. rewrite IH.
  replace (2 * S (length l))%nat with (S (S (2 * length l))) by lia. reflexivity.
Qed.

(** X16: the starting point of the optimizer is feasible: for a scorer
    built by [__init__] with at least one transform, every constraint
    function built by [numerical_solver] evaluates to [0] on the initial
    state [self.q]. *)
Theorem initial_state_satisfies_constraints (M : Ordering) (self : Rotation)
  (Hinit : Rotation_init M = Ok self)
  (Hsome : (1 <= num_reactants M + num_products M - 1)%Z) :
  exists sc cons bounds,
    solver_setup (num_reactants M) (num_products M) = Ok (sc, cons, bounds) /\
    eval_constraints sc cons (flatten_q (self_q self))
    = Ok (repeat (Fin 0) (2 * length (self_q self))).
Proof.
  assert (Hq : self_q self
               = repeat identity_dualquat
                   (Z.to_nat (num_reactants M + num_products M - 1))).
  { unfold Rotation_init, initialize_quaternions in Hinit.
    destruct (_ <? 0)%Z; cbn [bind] in Hinit; [discriminate|].
    cbn [interaction_arrays] in Hinit. injection Hinit as <-. reflexivity. }
  destruct (Z.to_nat (num_products M + num_reactants M - 1)) as [|n] eqn:Hn; [lia|].
  assert (Hn' : Z.to_nat (num_reactants M + num_products M - 1) = S n)
    by (rewrite <- Hn; f_equal; lia).
  rewrite (solver_setup_spec _ _ n Hn). eexists _, _, _. split; [reflexivity|].
  rewrite Hq, Hn', repeat_length. unfold eval_constraints.
  assert (Hlast : nth_error (repeat identity_dualquat (S n)) n = Some identity_dualquat).
  { rewrite nth_error_repeat by lia. reflexivity. }
  destruct (slice_flatten_q _ n _ _ Hlast) as [Hs Hr].
  rewrite (mapM_blocks _ [con_rr; con_rs] [Fin 0; Fin 0]).
  - rewrite flat_map_pair_repeat, length_seq. reflexivity.
  - cbn [mapM con_rr con_rs con_fun bind]. unfold call_lambda. cbn [sc_j].
    rewrite Hs, Hr. reflexivity.
Qed.

Lemma initial_state_satisfies_constraints_witness :
  Rotation_init example_multi = Ok (rotation_of example_multi) /\
  (1 <= num_reactants example_multi + num_products example_multi - 1)%Z /\
  exists sc cons bounds,
    solver_setup 2 2 = Ok (sc, cons, bounds) /\
    eval_constraints sc cons (flatten_q (self_q (rotation_of example_multi)))
    = Ok (repeat (Fin 0) 6).
Proof.
  split; [reflexivity|]. split; [cbn; lia|].
  apply (initial_state_satisfies_constraints example_multi
           (rotation_of example_multi) eq_refl). cbn. lia.
Defined.

Lemma firstn_exact {A : Type} (l1 l2 : list A) :
  firstn (length l1) (l1 ++ l2) = l1.
Proof.
  induction l1 as [|h t IH]; cbn; [destruct l2; reflexivity | now rewrite IH].
Qed.

Lemma skipn_exact {A : Type} (l1 l2 : list A) :
  skipn (length l1) (l1 ++ l2) = l2.
Proof. induction l1 as [|h t IH]; cbn; [reflexivity | exact IH]. Qed.

(** A slice assignment of as many values as the slice has slots, on an
    array cut in three at the slice. *)
Lemma setslice_middle (pre mid post v : list fl) (a b : nat)
  (Ha : a = length pre) (Hb : b = (a + length mid)%nat)
  (Hv : length v = length mid) :
  setslice (pre ++ mid ++ post) a b v = Ok (pre ++ v ++ post).
Proof.
  unfold setslice, slice. subst a b.
  replace (length pre + length mid - length pre)%nat with (length mid) by lia.
  rewrite skipn_exact, !firstn_exact, Hv, Nat.eqb_refl.
  replace (skipn (length pre + length mid) (pre ++ mid ++ post)) with post;
    [reflexivity|].
  rewrite (app_assoc pre mid post), <- length_app, skipn_exact. reflexivity.
Qed.

Lemma zeros_three (n j : nat) (Hj : (j < n)%nat) :
  repeat f0 (8 * n)
  = repeat f0 (8 * j) ++ repeat f0 4 ++ repeat f0 4
      ++ repeat f0 (8 * (n - j - 1)).
Proof.
  rewrite <- !repeat_app. f_equal. lia.
Qed.

(** X17: the two Jacobians at transform [j] of a state of [N+M-1]
    transforms: [rr_constraint_jacobian] is [2*r_j] in the slots of [r_j]
    and zero elsewhere; [rs_constraint_jacobian] is [r_j] in the slots of
    [s_j], [s_j] in the slots of [r_j] and zero elsewhere.  Both have one
    entry per state variable. *)
Theorem constraint_jacobians_form
  (q : list dualquat) (j : nat) (N M : Z) (s r : vec4)
  (Hlen : (M + N - 1)%Z = Z.of_nat (length q))
  (Hq : nth_error q j = Some (s, r)) :
  rr_constraint_jacobian (flatten_q q) j N M
  = Ok (repeat f0 (8 * j + 4) ++ map (fl_mul (Fin 2)) (vec4_list r)
          ++ repeat f0 (8 * (length q - j - 1))) /\
  rs_constraint_jacobian (flatten_q q) j N M
  = Ok (repeat f0 (8 * j) ++ vec4_list r ++ vec4_list s
          ++ repeat f0 (8 * (length q - j - 1))).
Proof.
  destruct (slice_flatten_q q j s r Hq) as [Hs Hr].
  assert (Hj : (j < length q)%nat) by (apply nth_error_Some; congruence).
  assert (Hz : zeros_n (8 * (M + N - 1)) f0 = Ok (repeat f0 (8 * length q))).
  { unfold zeros_n. rewrite Hlen.
    destruct (_ <? 0)%Z eqn:E; [apply Z.ltb_lt in E; lia|].
    do 2 f_equal. lia. }
  unfold rr_constraint_jacobian, rs_constraint_jacobian.
  rewrite Hz, Hs, Hr. cbn [bind]. rewrite (zeros_three _ _ Hj). split.
  - rewrite (app_assoc (repeat f0 (8 * j))), <- repeat_app.
    rewrite (setslice_middle (repeat f0 (8 * j + 4)) (repeat f0 4));
      [reflexivity | ..];
      rewrite ?length_map, ?repeat_length, ?vec4_list_length; lia.
  - rewrite (setslice_middle (repeat f0 (8 * j)) (repeat f0 4));
      [| rewrite ?repeat_length, ?vec4_list_length; lia ..].
    cbn [bind]. rewrite (app_assoc (repeat f0 (8 * j))).
    rewrite (setslice_middle (repeat f0 (8 * j) ++ vec4_list r) (repeat f0 4));
      [rewrite <- app_assoc; reflexivity | ..];
      rewrite ?length_app, ?repeat_length, ?vec4_list_length; lia.
Qed.

Lemma constraint_jacobians_form_witness :
  rr_constraint_jacobian
    (flatten_q [identity_dualquat; (quat 1 2 3 4, quat 5 6 7 8)]) 1 1 2
  = Ok (repeat f0 12 ++ map (fl_mul (Fin 2)) (vec4_list (quat 5 6 7 8))
          ++ repeat f0 0) /\
  rs_constraint_jacobian
    (flatten_q [identity_dualquat; (quat 1 2 3 4, quat 5 6 7 8)]) 1 1 2
  = Ok (repeat f0 8 ++ vec4_list (quat 5 6 7 8) ++ vec4_list (quat 1 2 3 4)
          ++ repeat f0 0).
Proof.
  exact (constraint_jacobians_form
           [identity_dualquat; (quat 1 2 3 4, quat 5 6 7 8)] 1 1 2
           (quat 1 2 3 4) (quat 5 6 7 8) eq_refl eq_refl).
Defined.

Lemma nth_error_imap_from {A B : Type} (f : nat -> A -> B) (l : list A) :
  forall start i,
    nth_error (imap_from f start l) i
    = option_map (f (start + i)%nat) (nth_error l i).
Proof.
  induction l as [|a l IH]; intros start i; destruct i as [|i]; cbn; try reflexivity.
  - rewrite Nat.add_0_r. reflexivity.
  - rewrite IH. do 2 f_equal. lia.
Qed.

Lemma length_imap_from {A B : Type} (f : nat -> A -> B) (l : list A) :
  forall start, length (imap_from f start l) = length l.
Proof. induction l as [|a l IH]; intros start; cbn; [|rewrite IH]; reflexivity. Qed.

Lemma get2_zeros (R P i j : nat) :
  (i < R)%nat -> (j < P)%nat -> get2 (zeros (R, P)) i j = Some f0.
Proof.
  intros Hi Hj. unfold get2, zeros. cbn [fst snd].
  rewrite nth_error_repeat by assumption. apply nth_error_repeat. assumption.
Qed.

Lemma shape_zeros (sh : nat * nat) :
  (0 < fst sh)%nat -> shape (zeros sh) = sh.
Proof.
  destruct sh as [R P]. cbn [fst]. intros H. destruct R as [|R]; [lia|].
  unfold shape, zeros. cbn [fst snd repeat hd length].
  rewrite !repeat_length. reflexivity.
Qed.

Lemma iadd_shape (a V r : matrix) (vshape : nat * nat) :
  iadd a V vshape = Ok r -> shape r = shape a.
Proof.
  unfold iadd. destruct (broadcastable _ _); [|discriminate].
  intros H. injection H as <-. unfold shape. rewrite length_imap_from.
  destruct a as [|row a]; cbn; [reflexivity|].
  rewrite length_imap_from. reflexivity.
Qed.

Lemma iadd_get2 (a V r : matrix) (vshape : nat * nat) (i j : nat) :
  iadd a V vshape = Ok r ->
  get2 r i j
  = option_map (fun x => (x + bcast_get V vshape i j)%fl) (get2 a i j).
Proof.
  unfold iadd. destruct (broadcastable _ _); [|discriminate].
  intros H. injection H as <-. unfold get2.
  rewrite nth_error_imap_from. destruct (nth_error a i) as [row|]; cbn; [|reflexivity].
  rewrite nth_error_imap_from. reflexivity.
Qed.

Lemma bcast_get_mask (w : fl) (a b : list String.string) (i j : nat) x y :
  nth_error a i = Some x -> nth_error b j = Some y ->
  (1 < length a)%nat \/ i = O -> (1 < length b)%nat \/ j = O ->
  bcast_get (scale_mask w (ne_outer a b)) (length a, length b) i j
  = (w * (if String.eqb x y then f0 else f1))%fl.
Proof.
  intros Hx Hy Hi Hj. unfold bcast_get. cbn [fst snd].
  assert (Ei : (if (length a =? 1)%nat then O else i) = i).
  { destruct (length a =? 1)%nat eqn:E; [|reflexivity].
    apply Nat.eqb_eq in E. destruct Hi; [lia | congruence]. }
  assert (Ej : (if (length b =? 1)%nat then O else j) = j).
  { destruct (length b =? 1)%nat eqn:E; [|reflexivity].
    apply Nat.eqb_eq in E. destruct Hj; [lia | congruence]. }
  rewrite Ei, Ej. unfold scale_mask, ne_outer.
  rewrite map_map.
  erewrite (nth_error_nth (map _ a) i []).
  2:{ rewrite nth_error_map, Hx. reflexivity. }
  rewrite map_map.
  erewrite (nth_error_nth (map _ b) j NaN).
  2:{ rewrite nth_error_map, Hy. reflexivity. }
  destruct (String.eqb x y); reflexivity.
Qed.

Lemma q1e300_pos : 0 < q1e300.
Proof.
  unfold q1e300, Qlt. cbn [Qnum Qden inject_Z].
  change (0 * 1)%Z with 0%Z. rewrite Z.mul_1_r.
  apply Z.pow_pos_nonneg; lia.
Qed.

Lemma shape_index_ok (n k i : nat) :
  n = k -> (i < n)%nat -> (1 < n)%nat \/ i = O.
Proof. intros. lia. Qed.

(** X19: the matrix that [Atomic.score] returns, for type arrays of the
    shape of the match matrix and a positive
    [settings.atomic_sybyl_weight]: a perfect match is 0 and an imperfect
    match is positive.  The entry of reactant atom [i] and product atom [j]
    is zero when both the sybyl types and the elements agree, positive
    otherwise, at least [1e300] when the elements differ, and at most the
    sybyl weight when they agree; it does not depend on the match matrix
    passed to [score]. *)
Theorem Atomic_score_zero_iff_perfect_match
  (w : Q) (M : Ordering) (T : AtomTypes)
  (Hw : 0 < w)
  (Hrs : length (reactants_sybyl_types T) = fst (shape (match_matrix M)))
  (Hps : length (products_sybyl_types T) = snd (shape (match_matrix M)))
  (Hre : length (reactants_elements T) = fst (shape (match_matrix M)))
  (Hpe : length (products_elements T) = snd (shape (match_matrix M))) :
  exists self,
    Atomic_init (Fin w) M T = Ok self /\
    forall (mtch : matrix) (i j : nat) (tr tp er ep : String.string),
      nth_error (reactants_sybyl_types T) i = Some tr ->
      nth_error (products_sybyl_types T) j = Some tp ->
      nth_error (reactants_elements T) i = Some er ->
      nth_error (products_elements T) j = Some ep ->
      exists v,
        get2 (Atomic_score self mtch) i j = Some (Fin v) /\
        (tr = tp /\ er = ep -> v == 0) /\
        (~ (tr = tp /\ er = ep) -> 0 < v) /\
        (er <> ep -> q1e300 <= v) /\
        (er = ep -> v <= w).
Proof.
  pose proof q1e300_pos as Hbig.
  destruct (shape (match_matrix M)) as [R P] eqn:Hsh. cbn [fst snd] in *.
  unfold Atomic_init, get_score_matrix. rewrite Hsh.
  destruct R as [|R].
  - (* no rows: nothing to index *)
    assert (HP : P = O).
    { unfold shape in Hsh. injection Hsh as Hl Hp.
      destruct (match_matrix M); [cbn in Hp; congruence | discriminate]. }
    rewrite HP in *. unfold iadd, zeros. cbn [fst snd repeat shape length hd].
    rewrite Hrs, Hps. cbn [broadcastable Nat.eqb orb andb imap_from bind].
    cbn [shape length hd]. rewrite Hre, Hpe.
    cbn [broadcastable Nat.eqb orb andb imap_from bind].
    eexists. split; [reflexivity|].
    intros mtch i j tr tp er ep Htr.
    apply length_zero_iff_nil in Hrs. rewrite Hrs in Htr.
    destruct i; discriminate.
  - assert (Hz : shape (zeros (S R, P)) = (S R, P)) by (apply shape_zeros; cbn; lia).
    destruct (iadd (zeros (S R, P)) _ _) as [m1|e] eqn:E1.
    2:{ unfold iadd in E1. rewrite Hz, Hrs, Hps in E1. unfold broadcastable in E1.
        rewrite !Nat.eqb_refl in E1. discriminate. }
    cbn [bind]. pose proof (iadd_shape _ _ _ _ E1) as Hs1. rewrite Hz in Hs1.
    destruct (iadd m1 _ _) as [m2|e] eqn:E2.
    2:{ unfold iadd in E2. rewrite Hs1, Hre, Hpe in E2. unfold broadcastable in E2.
        rewrite !Nat.eqb_refl in E2. discriminate. }
    cbn [bind]. eexists. split; [reflexivity|].
    intros mtch i j tr tp er ep Htr Htp Her Hep.
    unfold Atomic_score. cbn [atomic_score_matrix].
    assert (Hi : (i < S R)%nat) by (rewrite <- Hrs; apply nth_error_Some; congruence).
    assert (Hj : (j < P)%nat) by (rewrite <- Hps; apply nth_error_Some; congruence).
    rewrite (iadd_get2 _ _ _ _ i j E2), (iadd_get2 _ _ _ _ i j E1).
    rewrite (get2_zeros _ _ _ _ Hi Hj). cbn [option_map].
    rewrite (bcast_get_mask _ _ _ i j tr tp Htr Htp) by lia.
    rewrite (bcast_get_mask _ _ _ i j er ep Her Hep) by lia.
    destruct (String.eqb_spec tr tp) as [Et|Et];
      destruct (String.eqb_spec er ep) as [Ee|Ee];
      cbn [fl_mul fl_add f0 f1]; eexists; (split; [reflexivity|]);
      repeat split; intros; try tauto; try lra.
Qed.

Lemma Atomic_score_zero_iff_perfect_match_witness :
  exists self,
    Atomic_init (Fin 1) example_single example_types = Ok self /\
    forall (mtch : matrix) (i j : nat) (tr tp er ep : String.string),
      nth_error (reactants_sybyl_types example_types) i = Some tr ->
      nth_error (products_sybyl_types example_types) j = Some tp ->
      nth_error (reactants_elements example_types) i = Some er ->
      nth_error (products_elements example_types) j = Some ep ->
      exists v,
        get2 (Atomic_score self mtch) i j = Some (Fin v) /\
        (tr = tp /\ er = ep -> v == 0) /\
        (~ (tr = tp /\ er = ep) -> 0 < v) /\
        (er <> ep -> q1e300 <= v) /\
        (er = ep -> v <= 1).
Proof.
  apply (Atomic_score_zero_iff_perfect_match 1 example_single example_types);
    [lra | reflexivity ..].
Defined.

Lemma key_eqb_spec (k k' : key) : reflect (k = k') (key_eqb k k').
Proof.
  destruct k as [a b], k' as [a' b']. unfold key_eqb. cbn [fst snd].
  destruct (String.eqb_spec a a') as [->|Ha];
    destruct (String.eqb_spec b b') as [->|Hb]; cbn [andb];
    constructor; congruence.
Qed.

Lemma key_eqb_refl (k : key) : key_eqb k k = true.
Proof. destruct (key_eqb_spec k k); congruence. Qed.

Lemma reversed_involutive (k : key) : reversed (reversed k) = k.
Proof. destruct k; reflexivity. Qed.

Lemma reversed_eq_iff (k k' : key) : reversed k = k' <-> k = reversed k'.
Proof.
  split; intros H; [rewrite <- H | rewrite H]; now rewrite reversed_involutive.
Qed.

(** [d[k] = v] then [d[k']]: the new value at [k], the old one elsewhere. *)
Lemma dict_get_set {V : Type} (d : list (key * V)) (k k' : key) (v : V) :
  dict_get (dict_set d k v) k' = if key_eqb k' k then Some v else dict_get d k'.
Proof.
  induction d as [|[k0 v0] d IH]; cbn [dict_set dict_get].
  - reflexivity.
  - destruct (key_eqb_spec k k0) as [->|Hk]; cbn [dict_get].
    + destruct (key_eqb k' k0); reflexivity.
    + rewrite IH. destruct (key_eqb_spec k' k0) as [->|Hk'].
      * destruct (key_eqb_spec k0 k); [congruence | reflexivity].
      * reflexivity.
Qed.

Lemma dict_get_In {V : Type} (d : list (key * V)) (k : key) (v : V) :
  dict_get d k = Some v -> In (k, v) d.
Proof.
  induction d as [|[k0 v0] d IH]; cbn [dict_get]; [discriminate|].
  destruct (key_eqb_spec k k0) as [->|Hk].
  - intros H. injection H as ->. left. reflexivity.
  - intros H. right. exact (IH H).
Qed.

Lemma dict_get_None {V : Type} (d : list (key * V)) (k : key) :
  dict_get d k = None -> forall v, ~ In (k, v) d.
Proof.
  induction d as [|[k0 v0] d IH]; cbn [dict_get]; [intros _ v []|].
  destruct (key_eqb_spec k k0) as [->|Hk]; [discriminate|].
  intros H v [E|Hin]; [congruence | exact (IH H v Hin)].
Qed.

Lemma In_dict_get {V : Type} (d : list (key * V)) (k : key) (v : V) :
  unique_keys d = true -> In (k, v) d -> dict_get d k = Some v.
Proof.
  induction d as [|[k0 v0] d IH]; cbn [unique_keys dict_get]; [intros _ []|].
  destruct (dict_get d k0) eqn:E0; [discriminate|].
  intros Hu [E|Hin].
  - injection E as -> ->. rewrite key_eqb_refl. reflexivity.
  - destruct (key_eqb_spec k k0) as [->|Hk].
    + exfalso. exact (dict_get_None _ _ E0 v Hin).
    + exact (IH Hu Hin).
Qed.

(** The loop writes [value] at the reverse of every key it visits and
    leaves the other keys alone. *)
Lemma add_reversed_other {V : Type} (items : list (key * V)) (k : key) :
  forall d,
    (forall v, ~ In (reversed k, v) items) ->
    dict_get (add_reversed items d) k = dict_get d k.
Proof.
  induction items as [|[k0 v0] items IH]; intros d H; [reflexivity|].
  cbn [add_reversed fold_left]. fold (add_reversed items (dict_set d (reversed k0) v0)).
  rewrite IH by (intros v Hin; exact (H v (or_intror Hin))).
  rewrite dict_get_set. destruct (key_eqb_spec k (reversed k0)) as [E|E]; [|reflexivity].
  exfalso. apply (H v0). left. rewrite E, reversed_involutive. reflexivity.
Qed.

Lemma add_reversed_visited {V : Type} (items : list (key * V)) (k : key) (v : V) :
  forall d,
    (forall v', In (reversed k, v') items -> v' = v) ->
    In (reversed k, v) items ->
    dict_get (add_reversed items d) k = Some v.
Proof.
  induction items as [|[k0 v0] items IH]; intros d Hfun Hin; [destruct Hin|].
  cbn [add_reversed fold_left]. fold (add_reversed items (dict_set d (reversed k0) v0)).
  destruct (dict_get items (reversed k)) as [v'|] eqn:E.
  - apply dict_get_In in E.
    assert (v' = v) by (apply Hfun; right; exact E). subst v'.
    apply IH; [|exact E]. intros v' H'. apply Hfun. right. exact H'.
  - rewrite add_reversed_other by exact (dict_get_None _ _ E).
    destruct Hin as [Eq|Hin]; [|exfalso; exact (dict_get_None _ _ E v Hin)].
    injection Eq as -> ->. rewrite reversed_involutive, dict_get_set, key_eqb_refl.
    reflexivity.
Qed.

Lemma one_way_spec {V : Type} (d : list (key * V)) (k : key) (v : V) :
  one_way d = true -> In (k, v) d ->
  reversed k = k \/ dict_get d (reversed k) = None.
Proof.
  unfold one_way. rewrite forallb_forall. intros H Hin.
  specialize (H _ Hin). cbn beta iota in H. apply orb_true_iff in H.
  destruct H as [H|H].
  - left. destruct (key_eqb_spec (reversed k) k); [assumption | discriminate].
  - right. destruct (dict_get d (reversed k)); [discriminate | reflexivity].
Qed.

(** What the loop leaves at any key when it runs over the entries of a
    dictionary, in any order: the value of the reversed key when that key
    was there, the old value otherwise. *)
Lemma add_reversed_get {V : Type} (d items : list (key * V)) (k : key)
  (Hu : unique_keys d = true)
  (Hitems : Permutation items d) :
  dict_get (add_reversed items d) k
  = match dict_get d (reversed k) with
    | Some v => Some v
    | None => dict_get d k
    end.
Proof.
  destruct (dict_get d (reversed k)) as [v|] eqn:E.
  - apply add_reversed_visited.
    + intros v' H'. apply (Permutation_in _ Hitems) in H'.
      apply (In_dict_get _ _ _ Hu) in H'. congruence.
    + apply (Permutation_in _ (Permutation_sym Hitems)).
      apply dict_get_In. exact E.
  - apply add_reversed_other. intros v Hin.
    apply (Permutation_in _ Hitems) in Hin.
    exact (dict_get_None _ _ E v Hin).
Qed.

(** X20: the loop [for key, value in d.items(): d[key[::-1]] = value]
    makes a dictionary symmetric in its pair keys, in whatever order the
    entries are visited: if no entry of [d] has the entry of its reversed
    key beside it (unless the key is its own reverse), then afterwards
    [d[(a, b)]] and [d[(b, a)]] are the same (both missing or both the
    same value), every entry of [d] has kept its value, and every entry
    comes from [d] at the key or at the reversed key. *)
Theorem add_reversed_symmetric {V : Type} (d items : list (key * V))
  (Hu : unique_keys d = true)
  (Hitems : Permutation items d)
  (Hone : one_way d = true) :
  forall a b : String.string,
    dict_get (add_reversed items d) (a, b) = dict_get (add_reversed items d) (b, a) /\
    (forall v, dict_get d (a, b) = Some v ->
               dict_get (add_reversed items d) (a, b) = Some v) /\
    (forall v, dict_get (add_reversed items d) (a, b) = Some v ->
               dict_get d (a, b) = Some v \/ dict_get d (b, a) = Some v).
Proof.
  intros a b.
  rewrite (add_reversed_get d items (a, b) Hu Hitems).
  rewrite (add_reversed_get d items (b, a) Hu Hitems).
  change (reversed (a, b)) with (b, a). change (reversed (b, a)) with (a, b).
  destruct (dict_get d (a, b)) as [v|] eqn:Eab;
    destruct (dict_get d (b, a)) as [v'|] eqn:Eba.
  - (* both present: the key is its own reverse *)
    destruct (one_way_spec d (a, b) v Hone (dict_get_In _ _ _ Eab)) as [H|H].
    + injection H as ->. assert (v = v') by congruence. subst v'.
      repeat split; intros; auto.
    + change (reversed (a, b)) with (b, a) in H. congruence.
  - repeat split; intros; auto.
  - repeat split; intros; auto; discriminate.
  - repeat split; intros; auto.
Qed.

Lemma add_reversed_symmetric_witness :
  let d := bond_length_limits_one_way in
  dict_get (add_reversed d d) ("S", "H")%string
  = dict_get (add_reversed d d) ("H", "S")%string /\
  (forall v, dict_get d ("S", "H")%string = Some v ->
             dict_get (add_reversed d d) ("S", "H")%string = Some v) /\
  (forall v, dict_get (add_reversed d d) ("S", "H")%string = Some v ->
             dict_get d ("S", "H")%string = Some v \/
             dict_get d ("H", "S")%string = Some v).
Proof.
  apply (add_reversed_symmetric bond_length_limits_one_way
           bond_length_limits_one_way).
  - vm_compute. reflexivity.
  - apply Permutation_refl.
  - vm_compute. reflexivity.
Defined.

Lemma ascendingb_spec (l : limits) : ascendingb l = true -> ascending l.
Proof.
  destruct l as [[[a b] c] e]. unfold ascendingb, ascending.
  destruct a as [qa| |]; try discriminate.
  destruct b as [qb| |]; try discriminate.
  destruct c as [qc| |]; try discriminate.
  destruct e as [qe| |]; try discriminate.
  rewrite !andb_true_iff, negb_true_iff. intros [[[H0 H1] H2] H3].
  apply Qle_bool_iff in H1, H2, H3.
  exists qa, qb, qc, qe. repeat split; try assumption.
  apply Qnot_le_lt. intros H. apply Qle_bool_iff in H. congruence.
Qed.

(** X21: the tables of [Constants()], in whatever order the dictionary is
    iterated: [bond_length_limits] is symmetric in the two atom types;
    every entry holds four positive limits in ascending order, between
    atom types that [number_bonds] knows; and [monovalent] lists exactly
    the atom types whose [number_bonds] entry is [[1]]. *)
Theorem Constants_bond_length_limits
  (items : list (key * limits))
  (Hitems : Permutation items bond_length_limits_one_way) :
  forall a b : String.string,
    dict_get (bond_length_limits (Constants_init items)) (a, b)
    = dict_get (bond_length_limits (Constants_init items)) (b, a) /\
    (forall l, dict_get (bond_length_limits (Constants_init items)) (a, b) = Some l ->
               ascending l /\
               In a (map fst (number_bonds (Constants_init items))) /\
               In b (map fst (number_bonds (Constants_init items)))) /\
    (In a (monovalent (Constants_init items)) <->
     In (a, [1%Z]) (number_bonds (Constants_init items))).
Proof.
  intros a b. cbn [bond_length_limits Constants_init].
  assert (Hu : unique_keys bond_length_limits_one_way = true)
    by (vm_compute; reflexivity).
  rewrite (add_reversed_get _ items (a, b) Hu Hitems).
  rewrite (add_reversed_get _ items (b, a) Hu Hitems).
  change (reversed (a, b)) with (b, a). change (reversed (b, a)) with (a, b).
  assert (Hone : one_way bond_length_limits_one_way = true)
    by (vm_compute; reflexivity).
  assert (Hall : forallb (fun '(k, l) =>
                   ascendingb l
                   && existsb (String.eqb (fst k))
                              (map fst (number_bonds (Constants_init items)))
                   && existsb (String.eqb (snd k))
                              (map fst (number_bonds (Constants_init items))))
                 bond_length_limits_one_way = true)
    by (vm_compute; reflexivity).
  rewrite forallb_forall in Hall.
  assert (Hent : forall x y l,
             dict_get bond_length_limits_one_way (x, y) = Some l ->
             ascending l /\
             In x (map fst (number_bonds (Constants_init items))) /\
             In y (map fst (number_bonds (Constants_init items)))).
  { intros x y l H. apply dict_get_In in H. specialize (Hall _ H).
    cbn beta iota in Hall. rewrite !andb_true_iff in Hall.
    destruct Hall as [[Hl Hx] Hy]. split; [exact (ascendingb_spec _ Hl)|].
    rewrite existsb_exists in Hx, Hy.
    destruct Hx as [x' [Hx1 Hx2]], Hy as [y' [Hy1 Hy2]].
    cbn [fst snd] in Hx2, Hy2.
    apply String.eqb_eq in Hx2, Hy2. subst x' y'. split; assumption. }
  split; [|split].
  - destruct (dict_get bond_length_limits_one_way (a, b)) as [v|] eqn:Eab;
      destruct (dict_get bond_length_limits_one_way (b, a)) as [v'|] eqn:Eba;
      try reflexivity.
    destruct (one_way_spec _ (a, b) v Hone (dict_get_In _ _ _ Eab)) as [H|H].
    + injection H as ->. congruence.
    + change (reversed (a, b)) with (b, a) in H. congruence.
  - intros l Hl.
    destruct (dict_get bond_length_limits_one_way (b, a)) as [v'|] eqn:Eba.
    + injection Hl as <-. destruct (Hent _ _ _ Eba) as (H1 & H2 & H3). auto.
    + exact (Hent _ _ _ Hl).
  - cbn [monovalent number_bonds Constants_init In]. split.
    + intros H. repeat (destruct H as [<-|H]; [tauto|]). destruct H.
    + intros H.
      repeat (destruct H as [H|H];
              [injection H as <-; tauto || (try discriminate H)|]);
      try discriminate. destruct H.
Qed.

Lemma Constants_bond_length_limits_witness :
  let c := Constants_init bond_length_limits_one_way in
  dict_get (bond_length_limits c) ("S", "H")%string
  = dict_get (bond_length_limits c) ("H", "S")%string /\
  (forall l, dict_get (bond_length_limits c) ("S", "H")%string = Some l ->
             ascending l /\
             In "S"%string (map fst (number_bonds c)) /\
             In "H"%string (map fst (number_bonds c))) /\
  (In "S"%string (monovalent c) <-> In ("S"%string, [1%Z]) (number_bonds c)).
Proof.
  apply (Constants_bond_length_limits bond_length_limits_one_way).
  apply Permutation_refl.
Defined.

Lemma Qt_dot_W_entry_symmetric (x y : vec3) :
  vec3_Forall finite x -> vec3_Forall finite y ->
  mat4_symmetric
    (mat4_dot (mat4_T (makeQ (quat_of_coord y))) (makeW (quat_of_coord x))) /\
  mat4_antisymmetric
    (mat4_sub (makeW (quat_of_coord x)) (makeQ (quat_of_coord y))).
Proof.
  destruct x as [[x1 x2] x3], y as [[y1 y2] y3].
  intros ([a1 ->] & [a2 ->] & [a3 ->]) ([b1 ->] & [b2 ->] & [b3 ->]).
  unfold mat4_symmetric, mat4_antisymmetric, mat4_sub.
  cbn [quat_of_coord makeW makeQ mat4_T mat4_dot mat4_map mat4_map2 vec4_map
       vec4_map2 dot4 fl_mul fl_add fl_sub fl_opp f0 mat4_Forall2 vec4_Forall2].
  split; fl_eq_ring.
Qed.

Lemma map_length_const {A B : Type} (f : A -> list B) (n : nat) (l : list A) :
  (forall a, length (f a) = n) -> map (@length B) (map f l) = repeat n (length l).
Proof.
  intros H. induction l as [|a l IH]; cbn; [reflexivity|].
  rewrite H, IH. reflexivity.
Qed.

(** X22: the arrays of [interaction_arrays] for finite coordinates:
    [Qt_dot_W] and [W_minus_Q] have one row per atom of [X] and one column
    per atom of [Y]; every 4x4 matrix [Qt_dot_W[i][j]] is symmetric and
    every [W_minus_Q[i][j]] is antisymmetric. *)
Theorem interaction_arrays_symmetry (X Y : list vec3)
  (HX : Forall (vec3_Forall finite) X)
  (HY : Forall (vec3_Forall finite) Y) :
  let '(_, _, Qt_dot_W, W_minus_Q) := interaction_arrays X Y in
  map (@length mat4) Qt_dot_W = repeat (length Y) (length X) /\
  map (@length mat4) W_minus_Q = repeat (length Y) (length X) /\
  Forall (Forall mat4_symmetric) Qt_dot_W /\
  Forall (Forall mat4_antisymmetric) W_minus_Q.
Proof.
  unfold interaction_arrays.
  split; [|split; [|split]].
  - rewrite map_length_const with (n := length Y); [rewrite length_map; reflexivity|].
    intros w. rewrite !length_map. reflexivity.
  - rewrite map_length_const with (n := length Y); [rewrite length_map; reflexivity|].
    intros w. rewrite !length_map. reflexivity.
  - rewrite map_map. apply Forall_map. rewrite Forall_forall in HX |- *. intros x Hx.
    rewrite map_map. apply Forall_map. rewrite Forall_forall in HY |- *.
    intros y Hy. exact (proj1 (Qt_dot_W_entry_symmetric x y (HX x Hx) (HY y Hy))).
  - rewrite map_map. apply Forall_map. rewrite Forall_forall in HX |- *. intros x Hx.
    rewrite map_map. apply Forall_map. rewrite Forall_forall in HY |- *.
    intros y Hy. exact (proj2 (Qt_dot_W_entry_symmetric x y (HX x Hx) (HY y Hy))).
Qed.

Lemma interaction_arrays_symmetry_witness :
  let '(_, _, Qt_dot_W, W_minus_Q) :=
    interaction_arrays [coord 0 0 0; coord 1 0 0] [coord 0 2 0; coord 1 0 3] in
  map (@length mat4) Qt_dot_W = repeat 2%nat 2%nat /\
  map (@length mat4) W_minus_Q = repeat 2%nat 2%nat /\
  Forall (Forall mat4_symmetric) Qt_dot_W /\
  Forall (Forall mat4_antisymmetric) W_minus_Q.
Proof.
  apply (interaction_arrays_symmetry
           [coord 0 0 0; coord 1 0 0] [coord 0 2 0; coord 1 0 3]);
    repeat constructor; eexists; reflexivity.
Defined.

(** X23: [Atomic.get_score_matrix] on a match matrix with at least one
    row returns a matrix of the shape of the match matrix exactly when both
    pairs of type arrays broadcast to that shape (each length equals the
    dimension or is 1); in every other case it raises ValueError. *)
Theorem get_score_matrix_shape_check (w : fl) (M : Ordering) (T : AtomTypes)
  (Hrows : (0 < fst (shape (match_matrix M)))%nat) :
  let sh := shape (match_matrix M) in
  let sybyl := (length (reactants_sybyl_types T), length (products_sybyl_types T)) in
  let elements := (length (reactants_elements T), length (products_elements T)) in
  if broadcastable sybyl sh && broadcastable elements sh
  then exists m, get_score_matrix w M T = Ok m /\ shape m = sh
  else get_score_matrix w M T = Raise ValueError.
Proof.
  intros sh sybyl elements. unfold get_score_matrix. fold sh sybyl elements.
  destruct (iadd (zeros sh) _ sybyl) as [m1|e] eqn:E1.
  - pose proof (iadd_shape _ _ _ _ E1) as Hs1.
    rewrite (shape_zeros sh Hrows) in Hs1.
    assert (B1 : broadcastable sybyl sh = true).
    { unfold iadd in E1. rewrite (shape_zeros sh Hrows) in E1.
      destruct (broadcastable sybyl sh); [reflexivity | discriminate]. }
    rewrite B1. cbn [andb bind].
    destruct (iadd m1 _ elements) as [m2|e] eqn:E2; cbn [bind].
    + assert (B2 : broadcastable elements sh = true).
      { unfold iadd in E2. rewrite Hs1 in E2.
        destruct (broadcastable elements sh); [reflexivity | discriminate]. }
      rewrite B2. exists m2. split; [reflexivity|].
      rewrite (iadd_shape _ _ _ _ E2). exact Hs1.
    + unfold iadd in E2. rewrite Hs1 in E2.
      destruct (broadcastable elements sh); [discriminate|].
      injection E2 as <-. reflexivity.
  - unfold iadd in E1. rewrite (shape_zeros sh Hrows) in E1.
    destruct (broadcastable sybyl sh); [discriminate|].
    injection E1 as <-. reflexivity.
Qed.

Lemma get_score_matrix_shape_check_witness :
  let sh := shape (match_matrix example_single) in
  let sybyl := (length (reactants_sybyl_types example_types),
                length (products_sybyl_types example_types)) in
  let elements := (length (reactants_elements example_types),
                   length (products_elements example_types)) in
  if broadcastable sybyl sh && broadcastable elements sh
  then exists m, get_score_matrix (Fin 1) example_single example_types = Ok m /\
                 shape m = sh
  else get_score_matrix (Fin 1) example_single example_types = Raise ValueError.
Proof.
  apply (get_score_matrix_shape_check (Fin 1) example_single example_types).
  cbn. lia.
Defined.

(** ** The scorer in the range of binary64 *)

(** *** Arithmetic in range *)









(** *** What a call in the range model may change *)
















(** *** The states of a scorer *)









(** C8: the code at the failing input.  One product atom at
    [(1e154, 0, 0)], one reactant atom at [(-1e154, 0, 0)] and the match
    matrix [[1.0]]: the precomputed matrices are finite and the total
    weight [C2] is 1, yet [C1 = -2*sum(...)] overflows to an infinity, so
    does [C3.T.dot(C3)], the entry [A[0][0]] is [inf - inf], that is NaN,
    and [assert(np.allclose(A, A.T))] raises [AssertionError], whatever
    the eigen-solver and the optimizer are. *)
Theorem symmetry_assertion_fails_on_overflow
  (eigh : mat4 -> result (vec4 * mat4))
  (step : list fl -> fl -> list fl -> list bound -> option (list fl)) :
  Binary64.Rotation_init example_overflow
  = Ok (Binary64.rotation_of example_overflow) /\
  Forall (Forall (mat4_Forall finite))
         (self_Qt_dot_W (Binary64.rotation_of example_overflow)) /\
  Forall (Forall (mat4_Forall finite))
         (self_W_minus_Q (Binary64.rotation_of example_overflow)) /\
  fl_is (Binary64.block_C2 [[f1]]) 1 /\
  mat4_00 (Binary64.block_C1 [[f1]]
             (self_Qt_dot_W (Binary64.rotation_of example_overflow)))
  = Inf false /\
  mat4_00 (Binary64.block_A [[f1]]
             (self_Qt_dot_W (Binary64.rotation_of example_overflow))
             (self_W_minus_Q (Binary64.rotation_of example_overflow)))
  = NaN /\
  Binary64.Score eigh step (Binary64.rotation_of example_overflow) [[f1]]
  = (Raise AssertionError, Binary64.rotation_of example_overflow).
Proof.
  split; [reflexivity|].
  split; [vm_compute; repeat constructor; eexists; reflexivity|].
  split; [vm_compute; repeat constructor; eexists; reflexivity|].
  split; [exists (0 + 1); split; [reflexivity | ring]|].
  split; [vm_compute; reflexivity|].
  split; [vm_compute; reflexivity|].
  vm_compute. reflexivity.
Qed.
